(** * Rank-based significance tests: Kruskal-Wallis, Mann-Whitney, Wilcoxon

    A shallow embedding of the three tools under [src/indicators]
    ([kruskal-wallis.cc], [mann-whit.cc], [wilcoxon-sign.cc]) and the
    properties of their loader, ranking scan, statistics and reports.

    Modelling conventions.
    - A C [int] is a [Z].  [wrap] is the two's-complement reduction to 32
      bits; it follows every [int] operation of the ranking scan and every
      product of sample sizes.  Counters and indices that are bounded by
      the number of lines of the input file are left unwrapped: files of
      2^31 lines are outside the model.
    - A C [double] is the rational it denotes ([Q]); the numbers of an
      input file are doubles.  As long as no [int] of the ranking scan
      overflows (pools of at most 65534 values), ranks are integers or
      halves of integers and their sums, the sums of their squares and
      the numerator of the rank-sum statistic are far below 2^53: they
      are exact in binary floating point and [Q] arithmetic is the same
      arithmetic.  The model computes ranks and these sums exactly on
      every pool.  Where the exact result of an operation need not be a
      [double], the operation is followed by [round_double], the
      rounding to the nearest [double]: the difference of two input
      values in wilcoxon-sign.cc, and every operation of [S_squared],
      [Tvalue] and [pairwise] in kruskal-wallis.cc.  The latter are
      partial: [None] is an infinity or a NaN, which the model does not
      follow further.  The quotients of [corrected_Tvalue]
      (mann-whit.cc) and of the normal approximation (wilcoxon-sign.cc)
      are left unrounded, and there a quotient by zero is whatever
      [Qdiv] makes of it: what is proved of them is about exact
      numerators, signs and the branch taken.
    - An array reached through a pointer is the memory that starts at the
      pointer: a total function from indices to cells.  The cells after
      the [N] elements handed to a function are part of that memory, and
      the model reads and writes them whenever the C code does.  What
      [malloc] returns is a parameter.
    - A loop whose trip count is not fixed on entry is the [while]
      combinator below, with fuel; [None] is fuel exhaustion, and the
      properties show that the fuel given is enough.
    - The distribution functions of dcdflib ([cdfchi], [cdft], [cdfnor]),
      [sqrt] and the [%g] conversions of [fprintf] are the fields of the
      class [Extern].
    - An input file is the list of its [fgets] chunks, each replaced by
      the outcome of [sscanf (line, "%lf", &number)]: [Some number] or
      [None].  Standard output (the [VERBOSE] trace) is not modelled. *)

From Stdlib Require Import ZArith QArith Qabs Qround List Bool Lia Lqa String Ascii.
From Stdlib Require Import DecimalString.
From Stdlib Require Import Permutation Sorted.
Import ListNotations.
Local Open Scope Z_scope.

(** * Part I: the programs *)

(** ** Machine integers *)

Definition INT_MAX : Z := 2147483647.
Definition INT_MIN : Z := -2147483648.

Definition wrap (z : Z) : Z := (z + 2147483648) mod 4294967296 - 2147483648.

Definition in_int (z : Z) : Prop := INT_MIN <= z <= INT_MAX.

(** ** Doubles *)

Definition Qlt_bool (x y : Q) : bool := negb (Qle_bool y x).

(** The integer nearest to [x], the even one of the two when [x] is
    halfway between them. *)
Definition nearest_even (x : Q) : Z :=
  let f := Qfloor x in
  match (x - inject_Z f ?= 1 # 2)%Q with
  | Lt => f
  | Gt => f + 1
  | Eq => if Z.even f then f else f + 1
  end.

(** For [0 < x], the exponent [e] with [2^e <= x < 2^(e+1)]. *)
Definition binade (x : Q) : Z :=
  let e := Z.log2 (Qnum x) - Z.log2 (Z.pos (Qden x)) in
  if Qle_bool (2 ^ e) x then e else e - 1.

(** The rational that stands for the [double] infinity: the first
    power of two above the finite doubles. *)
Definition INFINITY : Q := (2 ^ 1024)%Q.

(** The result of an operation whose exact value is [x], as the
    hardware stores it in a [double]: the nearest number with a
    significand of 53 bits and an exponent of at least -1022
    (subnormal numbers keep the exponent -1022), ties going to the
    even significand, and an infinity from [2^1024 - 2^970] on. *)
Definition round_double (x : Q) : Q :=
  let x := Qred x in
  if Qeq_bool x 0 then 0%Q
  else
    let a := Qabs x in
    let ulp := (2 ^ (Z.max (binade a) (-1022) - 52))%Q in
    let r := Qred (inject_Z (nearest_even (a / ulp)) * ulp) in
    let r := if Qle_bool INFINITY r then INFINITY else r in
    if Qlt_bool x 0 then (- r)%Q else r.

(** The statistics of kruskal-wallis.cc divide by numbers that can be
    zero and take square roots of numbers that can be negative.  Their
    operations are partial here: [None] is a result that is not a
    finite number (an infinity or a NaN), and a computation that meets
    one is not followed further. *)
Definition finite (x : Q) : option Q :=
  let r := round_double x in
  if Qlt_bool (Qabs r) INFINITY then Some r else None.

Definition dadd (x y : Q) : option Q := finite (x + y).
Definition dsub (x y : Q) : option Q := finite (x - y).
Definition dmul (x y : Q) : option Q := finite (x * y).
Definition ddiv (x y : Q) : option Q :=
  if Qeq_bool y 0 then None else finite (x / y).

Definition obind {A B : Type} (o : option A) (k : A -> option B) : option B :=
  match o with
  | Some a => k a
  | None => None
  end.

Notation "'let?' x ':=' o 'in' k" := (obind o (fun x => k))
  (at level 10, x name, o at level 200, k at level 200).

(** ** Memory reached through a pointer *)

Definition array (A : Type) : Type := Z -> A.

Definition upd {A : Type} (m : array A) (i : Z) (x : A) : array A :=
  fun k => if k =? i then x else m k.

Definition of_list {A : Type} (l : list A) (past : array A) : array A :=
  fun k => if (0 <=? k) && (k <? Z.of_nat (List.length l))
           then nth (Z.to_nat k) l (past k) else past k.

Definition zrange (n : Z) : list Z := map Z.of_nat (seq 0 (Z.to_nat n)).

Definition take {A : Type} (m : array A) (n : Z) : list A :=
  map m (zrange n).

(** ** Loops *)

Fixpoint while {S : Type} (fuel : nat) (cond : S -> bool)
    (body : S -> option S) (s : S) : option S :=
  if cond s then
    match fuel with
    | O => None
    | Datatypes.S fuel' =>
        match body s with
        | Some s' => while fuel' cond body s'
        | None => None
        end
    end
  else Some s.

(** [do body while (cond)]. *)
Definition do_while {S : Type} (fuel : nat) (cond : S -> bool)
    (body : S -> option S) (s : S) : option S :=
  match body s with
  | Some s' => while fuel cond body s'
  | None => None
  end.

(** [for (i = 0; i < n; i++) sum += f i], for an [int] bound [n]: the
    counter stays below [n], so it never wraps. *)
Fixpoint sum_upto (k : nat) (f : Z -> Q) : Q :=
  match k with
  | O => 0%Q
  | Datatypes.S k' => (sum_upto k' f + f (Z.of_nat k'))%Q
  end.

(** ** Runs of a tool

    A run ends with [return(0)], with a diagnostic on [stderr] followed
    by [exit(1)], or does not end within the fuel of the model. *)

Inductive fatal : Type :=
  | ParamUnreadable | ParamFileError | AlphaOutOfRange
  | IndicatorUnreadable | OutputUnwritable
  | TooManyDistributions | UnequalSampleSizes | TooFewValues.

Inductive run (A : Type) : Type :=
  | Done (a : A)
  | Exit1 (diag : fatal)
  | NoFuel.
Arguments Done {A} a.
Arguments Exit1 {A} diag.
Arguments NoFuel {A}.

Definition bind {A B : Type} (r : run A) (k : A -> run B) : run B :=
  match r with
  | Done a => k a
  | Exit1 e => Exit1 e
  | NoFuel => NoFuel
  end.

Notation "x <- r ;; k" := (bind r (fun x => k))
  (at level 61, r at next level, right associativity).

Fixpoint foldM {A S : Type} (step : S -> A -> run S) (l : list A) (s : S)
  : run S :=
  match l with
  | [] => Done s
  | x :: l' => s' <- step s x ;; foldM step l' s'
  end.

Definition exit_code {A : Type} (r : run A) : option Z :=
  match r with
  | Done _ => Some 0
  | Exit1 _ => Some 1
  | NoFuel => None
  end.

(** Messages on [stderr] that do not end the run. *)
Inductive warning : Type :=
  | SmallSample (population size : Z)
  | MultipleTests.

(** ** dcdflib, libm and printf *)

Class Extern : Type := {
  cdfchi : Q -> Q -> Q * Q;        (* x, df: (p, q) *)
  cdft   : Q -> Q -> Q * Q;        (* t, df: (p, q) *)
  cdfnor : Q -> Q -> Q -> Q * Q;   (* x, mean, sd: (p, q) *)
  sqrt   : Q -> Q;
  fmt_g  : Q -> string;            (* "%g" *)
  fmt_9g : Q -> string             (* "%.9g" *)
}.

Definition nl : string := String (ascii_of_nat 10) EmptyString.

(** "%d" *)
Definition fmt_d (z : Z) : string := NilZero.string_of_int (Z.to_int z).

(** ** The loader ([check_file] and [read_file], the same text in the
       three tools; [wilcoxon-sign.cc] adds a check of the sizes) *)

Definition MAX_DISTS : Z := 30.

Record D : Type := mkD { value : Q; label : Z; rank : Q }.

Record counts : Type := mkCounts {
  no_runs : Z; total : Z; new_run : Z; Nsamp : array Z
}.

Definition check_line (s : counts) (line : option Q) : run counts :=
  match line with
  | None => Done (mkCounts (no_runs s) (total s) 1 (Nsamp s))
  | Some _ =>
      let runs := if new_run s =? 1 then no_runs s + 1 else no_runs s in
      let tot := total s + 1 in
      if runs <=? MAX_DISTS then
        Done (mkCounts runs tot 0
                (upd (Nsamp s) (runs - 1) (Nsamp s (runs - 1) + 1)))
      else Exit1 TooManyDistributions
  end.

(** [main] clears the [MAX_DISTS] entries of [Nsamp] before the call. *)
Definition check_file (lines : list (option Q)) : run counts :=
  foldM check_line lines (mkCounts 0 0 1 (fun _ => 0)).

Definition read_line (s : Z * Z * array D) (line : option Q)
  : Z * Z * array D :=
  let '(clabel, no_points, d) := s in
  match line with
  | None => (clabel + 1, no_points, d)
  | Some number =>
      (clabel, no_points + 1,
       upd d no_points (mkD number clabel (rank (d no_points))))
  end.

(** Returns [*no_pointsp] and the memory at [d]. *)
Definition read_file (lines : list (option Q)) (d : array D) : Z * array D :=
  let '(_, no_points, d') := fold_left read_line lines (0, 0, d) in
  (no_points, d').

Definition small_samples (ndist : Z) (Nsamp : array Z) : list warning :=
  flat_map (fun i => if Nsamp i <? 20 then [SmallSample (i + 1) (Nsamp i)]
                     else [])
           (zrange ndist).

(** ** [qsort]

    The C library leaves the order of elements that compare equal
    unspecified; the model is the stable insertion sort.  Tied cells get
    the same rank, so no rank sum depends on that order. *)

Fixpoint insert {A : Type} (cmp : A -> A -> Z) (x : A) (l : list A) : list A :=
  match l with
  | [] => [x]
  | y :: l' => if cmp x y <=? 0 then x :: l else y :: insert cmp x l'
  end.

Definition sort {A : Type} (cmp : A -> A -> Z) (l : list A) : list A :=
  fold_right (insert cmp) [] l.

Definition qsort {A : Type} (cmp : A -> A -> Z) (m : array A) (n : Z)
  : array A :=
  of_list (sort cmp (take m n)) m.

(** ** The ranking scan

    [assign_ranks] occurs three times in the sources, with the same
    text up to the type of the cells and the comparison of their keys
    ([value] of a [D] in kruskal-wallis.cc and mann-whit.cc, [myabs] of
    the [diff] of a [P] in wilcoxon-sign.cc).  The scan is written once
    over the cell type and instantiated in each tool's module. *)

Module RankAssigner.
Section Scan.
Context {Cell : Type}.
Variable same_key : Cell -> Cell -> bool.
Variable get_rank : Cell -> Q.
Variable set_rank : Cell -> Q -> Cell.

(** State of the inner [do ... while]: [ahead] (as an index from [d]),
    [count] and [totalrank]. *)
Definition tie_body (crank : Z) (s : Z * Z * Z) : option (Z * Z * Z) :=
  let '(ahead, count, totalrank) := s in
  let ahead := ahead + 1 in
  let count := wrap (count + 1) in
  let totalrank := wrap (totalrank + wrap (crank + count)) in
  Some (ahead, count, totalrank).

Definition tie_cond (d : array Cell) (i N : Z) (s : Z * Z * Z) : bool :=
  let '(ahead, count, _) := s in
  same_key (d ahead) (d i) && (wrap (i + count) <? wrap (N - 1)).

(** [for (j = 0; j <= count; j++) d[i+j].rank = avg]. *)
Definition fill_cond (count : Z) (s : array Cell * Z) : bool :=
  snd s <=? count.

Definition fill_body (i : Z) (avg : Q) (s : array Cell * Z)
  : option (array Cell * Z) :=
  let '(d, j) := s in
  Some (upd d (wrap (i + j)) (set_rank (d (wrap (i + j))) avg), wrap (j + 1)).

(** State of the outer [while (i < N)]: the memory, [i], [crank] and
    [total_ties]. *)
Definition scan_cond (N : Z) (s : array Cell * Z * Z * Z) : bool :=
  let '(_, i, _, _) := s in i <? N.

Definition scan_body (fuel : nat) (N : Z) (s : array Cell * Z * Z * Z)
  : option (array Cell * Z * Z * Z) :=
  let '(d, i, crank, total_ties) := s in
  let ahead := wrap (i + 1) in
  if same_key (d ahead) (d i) then
    match do_while fuel (tie_cond d i N) (tie_body crank) (ahead, 0, crank) with
    | None => None
    | Some (_, count, totalrank) =>
        let avg := (inject_Z totalrank / inject_Z (wrap (count + 1)))%Q in
        match while fuel (fill_cond count) (fill_body i avg) (d, 0) with
        | None => None
        | Some (d', _) =>
            Some (d', wrap (i + wrap (count + 1)),
                  wrap (crank + wrap (count + 1)),
                  wrap (total_ties + count))
        end
    end
  else
    Some (upd d i (set_rank (d i) (inject_Z crank)),
          wrap (i + 1), wrap (crank + 1), total_ties).

(** Returns the memory at [d] and [total_ties]. *)
Definition assign_ranks (d : array Cell) (N : Z) : option (array Cell * Z) :=
  let fuel := Datatypes.S (Z.to_nat N) in
  match while fuel (scan_cond N) (scan_body fuel N) (d, 0, 1, 0) with
  | None => None
  | Some (d', _, _, total_ties) => Some (d', total_ties)
  end.

Definition sum_ranks (d : array Cell) (N : Z) : Q :=
  sum_upto (Z.to_nat N) (fun i => get_rank (d i)).

End Scan.
End RankAssigner.

Definition D_same_value (a b : D) : bool := Qeq_bool (value a) (value b).
Definition D_set_rank (c : D) (r : Q) : D := mkD (value c) (label c) r.

(** [compare] of kruskal-wallis.cc and mann-whit.cc. *)
Definition compare (i j : D) : Z :=
  let x := (value i - value j)%Q in
  if Qlt_bool x 0 then -1 else if Qlt_bool 0 x then 1 else 0.

Definition sum_of_ranks (d : array D) (index N : Z) : Q :=
  sum_upto (Z.to_nat N)
    (fun i => if label (d i) =? index then rank (d i) else 0%Q).

Definition sum_squared_ranks (d : array D) (N : Z) : Q :=
  sum_upto (Z.to_nat N) (fun i => (rank (d i) * rank (d i))%Q).

(** The report line shared by the tools, up to the conversion of [p]. *)
Definition report_line (winner loser : Z) (gap p : string) : string :=
  (fmt_d winner ++ " better than " ++ fmt_d loser ++ " with a p-value of"
   ++ gap ++ p ++ nl)%string.

(** ** kruskal-wallis.cc *)

Module Kruskal.
Section WithExtern.
Context {E : Extern}.

Definition mychi (x df : Q) : Q := snd (cdfchi x df).
Definition myt (t df : Q) : Q := snd (cdft t df).

Definition assign_ranks (d : array D) (N : Z) : option (array D * Z) :=
  RankAssigner.assign_ranks D_same_value D_set_rank d N.

(** [sqrt (x)] of a finite [x]: not a number when [x] is negative. *)
Definition dsqrt (x : Q) : option Q :=
  if Qlt_bool x 0 then None else Some (sqrt x).

(** [(N*(N+1.0)*(N+1.0))/4.0] *)
Definition correction (N : Z) : option Q :=
  let? n1 := dadd (inject_Z N) 1 in
  let? a := dmul (inject_Z N) n1 in
  let? b := dmul a n1 in
  ddiv b 4.

Definition S_squared (d : array D) (N ndist : Z) : option Q :=
  let? n1 := dsub (inject_Z N) 1 in
  let? inv := ddiv 1 n1 in
  let? c := correction N in
  let? diff := dsub (sum_squared_ranks d N) c in
  dmul inv diff.

Definition Tvalue (d : array D) (N ndist : Z) (Nsamp : array Z) : option Q :=
  let R := fun i => sum_of_ranks d i N in
  let? S2 := S_squared d N ndist in
  let? sum :=
    fold_left
      (fun sum i =>
         let? s := sum in
         let? sq := dmul (R i) (R i) in
         let? q := ddiv sq (inject_Z (Nsamp i)) in
         dadd s q)
      (zrange ndist) (Some 0%Q) in
  let? inv := ddiv 1 S2 in
  let? c := correction N in
  let? diff := dsub sum c in
  dmul inv diff.

(** [ndist] is the global of that name. *)
Definition pairwise (ndist a b : Z) (d : array D) (N : Z) (Nsamp : array Z)
    (T : Q) : option Q :=
  let? ma := ddiv (sum_of_ranks d a N) (inject_Z (Nsamp a)) in
  let? mb := ddiv (sum_of_ranks d b N) (inject_Z (Nsamp b)) in
  let? value := dsub ma mb in
  let? S2 := S_squared d N ndist in
  let? n1 := dsub (inject_Z N) 1 in
  let? n1T := dsub n1 T in
  let? prod := dmul S2 n1T in
  let? q := ddiv prod (inject_Z (N - ndist)) in
  let? s1 := dsqrt q in
  let? ia := ddiv 1 (inject_Z (Nsamp a)) in
  let? ib := ddiv 1 (inject_Z (Nsamp b)) in
  let? sab := dadd ia ib in
  let? s2 := dsqrt sab in
  let? denom := dmul s1 s2 in
  ddiv value denom.

(** The text written to the output file once it is open; [None] when
    the statistic of a pair is not a finite number. *)
Definition report (alpha allsame : Q) (ndist : Z)
    (pvalue : Z -> Z -> option Q) : option string :=
  if Qle_bool allsame alpha then
    fold_left
      (fun out i =>
         fold_left
           (fun out j =>
              if i =? j then out
              else
                let? text := out in
                let? p := pvalue i j in
                Some (text ++ report_line (wrap (j + 1)) (wrap (i + 1)) " "
                                          (fmt_g p))%string)
           (zrange ndist) out)
      (zrange ndist) (Some EmptyString)
  else Some "H0"%string.

(** [param]: [None] when the parameter file cannot be opened,
    [Some None] when [fscanf] returns [EOF], [Some (Some alpha)]
    otherwise.  [indicator]: [None] when the file cannot be opened.
    [writable]: whether the output file can be opened for writing.
    [heap]: the memory [malloc] returns for [d].  The result holds the
    warnings and the text of the output file; the text is [None] when
    [T] or the statistic of a pair that is reported is not a finite
    number: what dcdflib and [fprintf] make of such a value is not
    modelled. *)
Definition main (param : option (option Q))
    (indicator : option (list (option Q))) (writable : bool)
    (heap : array D) : run (list warning * option string) :=
  match param with
  | None => Exit1 ParamUnreadable
  | Some None => Exit1 ParamFileError
  | Some (Some alpha) =>
    if Qlt_bool (1 # 10) alpha || Qle_bool alpha 0 then Exit1 AlphaOutOfRange
    else
      match indicator with
      | None => Exit1 IndicatorUnreadable
      | Some lines =>
          c <- check_file lines ;;
          let ndist := no_runs c in
          let '(N, d) := read_file lines heap in
          let warnings := small_samples ndist (Nsamp c) in
          let d := qsort compare d N in
          match assign_ranks d N with
          | None => NoFuel
          | Some (d, _) =>
              let T := Tvalue d N ndist (Nsamp c) in
              if writable then
                Done (warnings,
                      let? T := T in
                      let allsame := mychi T (inject_Z (ndist - 1)) in
                      report alpha allsame ndist
                        (fun i j =>
                           let? z := pairwise ndist i j d N (Nsamp c) T in
                           Some (myt z (inject_Z (N - ndist)))))
              else Exit1 OutputUnwritable
          end
      end
  end.

End WithExtern.
End Kruskal.

(** ** mann-whit.cc *)

Module MannWhitney.
Section WithExtern.
Context {E : Extern}.

Definition myZ (x : Q) : Q := fst (cdfnor x 0 1).

Definition assign_ranks (d : array D) (N : Z) : option (array D * Z) :=
  RankAssigner.assign_ranks D_same_value D_set_rank d N.

Definition corrected_Tvalue (d : array D) (n m N idx : Z) : Q :=
  let T := sum_of_ranks d idx N in
  let ssR := sum_squared_ranks d N in
  let T1 := (T - inject_Z (wrap (n * wrap (N + 1))) / 2)%Q in
  let denom :=
    (inject_Z (wrap (n * m)) / inject_Z (wrap (N * wrap (N - 1))) * ssR
     - inject_Z (wrap (wrap (wrap (m * n) * wrap (N + 1)) * wrap (N + 1)))
       / inject_Z (wrap (4 * wrap (N - 1))))%Q in
  if Qeq_bool T1 0 then 0%Q else (T1 / sqrt denom)%Q.

(** [start = 0; for (i = 0; i < j; i++) start += Nsamp[i]]. *)
Definition start_of (Nsamp : array Z) (j : Z) : Z :=
  fold_left (fun start i => start + Nsamp i) (zrange j) 0.

(** [for (i = 0; i < n; i++) { pair[i+off].value = d[i+start].value;
    pair[i+off].label = lab; }]: the [rank] field keeps what it held.
    The buffer [pair] of the source is [pair_] here. *)
Definition copy_sample (d : array D) (start n off lab : Z) (pair_ : array D)
  : array D :=
  fold_left
    (fun pair_ i =>
       upd pair_ (i + off)
         (mkD (value (d (i + start))) lab (rank (pair_ (i + off)))))
    (zrange n) pair_.

(** The body of the double loop for one [j <> k]: the state is the
    memory at [pair], which lives across the tests, and the text of the
    output file. *)
Definition test (d : array D) (Nsamp : array Z) (s : array D * string)
    (jk : Z * Z) : run (array D * string) :=
  let '(pair_, out) := s in
  let '(j, k) := jk in
  let pair_ := copy_sample d (start_of Nsamp j) (Nsamp j) 0 j pair_ in
  let pair_ := copy_sample d (start_of Nsamp k) (Nsamp k) (Nsamp j) k pair_ in
  let pair_ := qsort compare pair_ (Nsamp j + Nsamp k) in
  match assign_ranks pair_ (Nsamp j + Nsamp k) with
  | None => NoFuel
  | Some (pair_, _) =>
      let T := corrected_Tvalue pair_ (Nsamp j) (Nsamp k)
                 (Nsamp j + Nsamp k) j in
      let p_value := (1 - myZ T)%Q in
      Done (pair_,
            (out ++ report_line (wrap (k + 1)) (wrap (j + 1)) "  "
                                (fmt_9g p_value))%string)
  end.

(** The pairs [(j, k)] in the order of the double loop, [j == k]
    skipped by its [continue]. *)
Definition tests (ndist : Z) : list (Z * Z) :=
  flat_map (fun j => flat_map (fun k => if j =? k then [] else [(j, k)])
                              (zrange ndist))
           (zrange ndist).

(** [indicator], [writable]: as for [Kruskal.main]; [heap_d] and
    [heap_pair]: the memory [malloc] returns for [d] and [pair].  The
    parameter file is opened and closed, and a failure to open it is
    ignored. *)
Definition main (indicator : option (list (option Q))) (writable : bool)
    (heap_d heap_pair : array D) : run (list warning * string) :=
  match indicator with
  | None => Exit1 IndicatorUnreadable
  | Some lines =>
      c <- check_file lines ;;
      let ndist := no_runs c in
      let '(N, d) := read_file lines heap_d in
      let warnings := small_samples ndist (Nsamp c) in
      if writable then
        s <- foldM (test d (Nsamp c)) (tests ndist) (heap_pair, EmptyString) ;;
        Done (warnings ++ (if 2 <? ndist then [MultipleTests] else []),
              snd s)
      else Exit1 OutputUnwritable
  end.

End WithExtern.
End MannWhitney.

(** ** wilcoxon-sign.cc *)

Module Wilcoxon.

Record P : Type := mkP { diff : Q; rank : Q; sigrank : Q }.

Definition myabs (v : Q) : Q := if Qle_bool 0 v then v else (- v)%Q.

Definition P_same_abs (a b : P) : bool :=
  Qeq_bool (myabs (diff a)) (myabs (diff b)).
Definition P_set_rank (c : P) (r : Q) : P := mkP (diff c) r (sigrank c).

Definition assign_ranks (p : array P) (N : Z) : option (array P * Z) :=
  RankAssigner.assign_ranks P_same_abs P_set_rank p N.

Definition comparediff (i j : P) : Z :=
  let x := (myabs (diff i) - myabs (diff j))%Q in
  if Qlt_bool x 0 then -1 else if Qlt_bool 0 x then 1 else 0.

(** [init_W]: the significance levels and the critical values, rows
    [0] to [3] of the global [W] being left at zero. *)
Definition Wsig_table : list Q :=
  [5 # 1000; 1 # 100; 25 # 1000; 5 # 100; 1 # 10; 2 # 10; 3 # 10; 4 # 10;
   5 # 10]%Q.

Definition W_table : list (list Q) := [
  [0; 0; 0; 0; 0; 0; 0; 0; 0];
  [0; 0; 0; 0; 0; 0; 0; 0; 0];
  [0; 0; 0; 0; 0; 0; 0; 0; 0];
  [0; 0; 0; 0; 0; 0; 0; 0; 0];
  [0; 0; 0; 0; 1; 3; 3; 4; 5];
  [0; 0; 0; 1; 3; 4; 5; 6; 15 # 2];
  [0; 0; 1; 3; 4; 6; 8; 9; 21 # 2];
  [0; 1; 3; 4; 6; 9; 11; 12; 14];
  [1; 2; 4; 6; 9; 12; 14; 16; 18];
  [2; 4; 6; 9; 11; 15; 18; 20; 45 # 2];
  [4; 6; 9; 11; 15; 19; 22; 25; 55 # 2];
  [6; 8; 11; 14; 18; 23; 27; 30; 33];
  [8; 10; 14; 18; 22; 28; 32; 36; 39];
  [10; 13; 18; 22; 27; 33; 38; 42; 91 # 2];
  [13; 16; 22; 26; 32; 39; 44; 48; 105 # 2];
  [16; 20; 26; 31; 37; 45; 51; 55; 60];
  [20; 24; 30; 36; 43; 51; 58; 63; 68];
  [24; 28; 35; 42; 49; 58; 65; 71; 153 # 2];
  [28; 33; 41; 48; 56; 66; 73; 80; 171 # 2];
  [33; 38; 47; 54; 63; 74; 82; 89; 95];
  [38; 44; 53; 61; 70; 83; 91; 98; 105];
  [44; 50; 59; 68; 78; 91; 100; 108; 231 # 2];
  [49; 56; 67; 76; 87; 100; 110; 119; 253 # 2];
  [55; 63; 74; 84; 95; 110; 120; 130; 138];
  [62; 70; 82; 92; 105; 120; 131; 141; 150];
  [69; 77; 90; 101; 114; 131; 143; 153; 325 # 2];
  [76; 85; 99; 111; 125; 142; 155; 165; 351 # 2];
  [84; 94; 108; 120; 135; 154; 167; 178; 189];
  [92; 102; 117; 131; 146; 166; 180; 192; 203];
  [101; 111; 127; 141; 158; 178; 193; 206; 435 # 2];
  [110; 121; 138; 152; 170; 191; 207; 220; 465 # 2];
  [119; 131; 148; 164; 182; 205; 221; 235; 248];
  [129; 141; 160; 176; 195; 219; 236; 250; 264];
  [139; 152; 171; 188; 208; 233; 251; 266; 561 # 2];
  [149; 163; 183; 201; 222; 248; 266; 282; 595 # 2];
  [160; 175; 196; 214; 236; 263; 283; 299; 315];
  [172; 187; 209; 228; 251; 279; 299; 317; 333];
  [184; 199; 222; 242; 266; 296; 316; 335; 703 # 2];
  [196; 212; 236; 257; 282; 312; 334; 353; 741 # 2];
  [208; 225; 250; 272; 298; 329; 352; 372; 390];
  [221; 239; 265; 287; 314; 347; 371; 391; 410];
  [235; 253; 280; 303; 331; 365; 390; 411; 861 # 2];
  [248; 267; 295; 320; 349; 384; 409; 431; 903 # 2];
  [263; 282; 311; 337; 366; 403; 429; 452; 473];
  [227; 297; 328; 354; 385; 422; 450; 473; 495];
  [292; 313; 344; 372; 403; 442; 471; 495; 1035 # 2];
  [308; 329; 362; 390; 423; 463; 492; 517; 1081 # 2];
  [324; 346; 379; 408; 442; 484; 514; 540; 564];
  [340; 363; 397; 428; 463; 505; 536; 563; 588];
  [357; 381; 416; 447; 483; 527; 559; 587; 1225 # 2];
  [374; 398; 435; 467; 504; 550; 583; 611; 1275 # 2]
]%Q.

Definition Wsig (j : Z) : Q := nth (Z.to_nat j) Wsig_table 0%Q.
Definition W (n j : Z) : Q := nth (Z.to_nat j) (nth (Z.to_nat n) W_table []) 0%Q.

(** The value of the literal [10e99] that replaces a zero difference:
    the double nearest to [10^100]. *)
Definition dropped : Q :=
  inject_Z 10000000000000000159028911097599180468360808563945281389781327557747838772170381060813469985856815104.

(** The first loop of a test: differences, zero differences counted in
    [ties] and replaced. *)
Definition differences (d : array D) (Nsamp0 a b : Z) (p : array P)
  : array P * Z :=
  fold_left
    (fun s i =>
       let '(p, ties) := s in
       let ib := Nsamp0 * b + i in
       let ia := Nsamp0 * a + i in
       let df := round_double (value (d ib) - value (d ia)) in
       if Qeq_bool df 0
       then (upd p i (mkP dropped (rank (p i)) (sigrank (p i))), ties + 1)
       else (upd p i (mkP df (rank (p i)) (sigrank (p i))), ties))
    (zrange Nsamp0) (p, 0).

Definition sign_ranks (p : array P) (n : Z) : array P :=
  fold_left
    (fun p i =>
       if Qlt_bool (diff (p i)) 0
       then upd p i (mkP (diff (p i)) (rank (p i)) (- rank (p i))%Q)
       else upd p i (mkP (diff (p i)) (rank (p i)) (rank (p i))))
    (zrange n) p.

(** The ranked differences of the pair [(a, b)]: the memory at [p],
    [ties] and [n]. *)
Definition rank_differences (d : array D) (Nsamp0 a b : Z) (p : array P)
  : option (array P * Z * Z) :=
  let '(p, ties) := differences d Nsamp0 a b p in
  let p := qsort comparediff p Nsamp0 in
  let n := Nsamp0 - ties in
  match assign_ranks p n with
  | None => None
  | Some (p, _) => Some (sign_ranks p n, ties, n)
  end.

Definition Tplus (p : array P) (n : Z) : Q :=
  sum_upto (Z.to_nat n)
    (fun i => if Qlt_bool 0 (diff (p i)) then sigrank (p i) else 0%Q).

(** [j = 0; while (W[n][j] < Tplus && j < 8) j++;] *)
Definition upper_scan (n : Z) (Tplus : Q) : option Z :=
  while 8 (fun j => Qlt_bool (W n j) Tplus && (j <? 8))
        (fun j => Some (j + 1)) 0.

(** [j = 0; while ((n*(n-1))/2 - W[n][j] > Tplus && j < 8) j++;] *)
Definition lower_scan (n : Z) (Tplus : Q) : option Z :=
  let half := Z.quot (wrap (n * wrap (n - 1))) 2 in
  while 8 (fun j => Qlt_bool Tplus (inject_Z half - W n j)%Q && (j <? 8))
        (fun j => Some (j + 1)) 0.

(** Which branch computed the p-value. *)
Inductive method : Type := Normal | Exact.

Section WithExtern.
Context {E : Extern}.

Definition myZ (x : Q) : Q := fst (cdfnor x 0 1).

Definition normal_pvalue (p : array P) (n : Z) : Q :=
  let sum_of_ranks := sum_upto (Z.to_nat n) (fun i => sigrank (p i)) in
  let sum_of_sq_ranks :=
    sum_upto (Z.to_nat n) (fun i => (sigrank (p i) * sigrank (p i))%Q) in
  let lowerp := (1 - myZ ((sum_of_ranks + 1) / sqrt sum_of_sq_ranks))%Q in
  let upperp := myZ ((sum_of_ranks - 1) / sqrt sum_of_sq_ranks)%Q in
  let pvalue := if Qlt_bool lowerp upperp then (2 * lowerp)%Q
                else (2 * upperp)%Q in
  let pvalue := upperp in
  pvalue.

Definition exact_pvalue (p : array P) (n : Z) : option Q :=
  let Tplus := Tplus p n in
  match upper_scan n Tplus, lower_scan n Tplus with
  | Some ju, Some jl =>
      let upperp := Wsig ju in
      let lowerp := Wsig jl in
      let pvalue := if Qlt_bool lowerp upperp then (2 * lowerp)%Q
                    else (2 * upperp)%Q in
      let pvalue := upperp in
      Some pvalue
  | _, _ => None
  end.

(** The p-value of the pair [(a, b)] and the branch that gave it, from
    the ranked differences. *)
Definition pvalue_of (p : array P) (Nsamp0 ties n : Z) : run (method * Q) :=
  if n <? 4 then Exit1 TooFewValues
  else if (50 <? n) || Qlt_bool (1 # 2) (inject_Z ties / inject_Z Nsamp0)
  then Done (Normal, normal_pvalue p n)
  else match exact_pvalue p n with
       | Some pv => Done (Exact, pv)
       | None => NoFuel
       end.

(** The body of the double loop for one [a <> b]. *)
Definition test (d : array D) (Nsamp0 : Z) (s : array P * string)
    (ab : Z * Z) : run (array P * string) :=
  let '(p, out) := s in
  let '(a, b) := ab in
  match rank_differences d Nsamp0 a b p with
  | None => NoFuel
  | Some (p, ties, n) =>
      r <- pvalue_of p Nsamp0 ties n ;;
      Done (p, (out ++ report_line (wrap (b + 1)) (wrap (a + 1)) " "
                                   (fmt_g (snd r)))%string)
  end.

Definition tests (ndist : Z) : list (Z * Z) :=
  flat_map (fun a => flat_map (fun b => if a =? b then [] else [(a, b)])
                              (zrange ndist))
           (zrange ndist).

(** [check_file] of wilcoxon-sign.cc: the common text, then the
    comparison of every [Nsamp[j]] with [Nsamp[0]]. *)
Definition check_file (lines : list (option Q)) : run counts :=
  c <- check_file lines ;;
  if forallb (fun j => Nsamp c (j + 1) =? Nsamp c 0) (zrange (no_runs c - 1))
  then Done c else Exit1 UnequalSampleSizes.

Definition main (indicator : option (list (option Q))) (writable : bool)
    (heap_d : array D) (heap_p : array P) : run (list warning * string) :=
  match indicator with
  | None => Exit1 IndicatorUnreadable
  | Some lines =>
      c <- check_file lines ;;
      let ndist := no_runs c in
      let '(N, d) := read_file lines heap_d in
      if writable then
        s <- foldM (test d (Nsamp c 0)) (tests ndist) (heap_p, EmptyString) ;;
        Done (if 2 <? ndist then [MultipleTests] else [], snd s)
      else Exit1 OutputUnwritable
  end.

End WithExtern.
End Wilcoxon.

(** * Part II: notions used in the statements *)

(** Pools of at most [RANK_LIMIT] observations keep every [int] of the
    scan, [totalrank] included, inside 32 bits. *)
Definition RANK_LIMIT : Z := 65534.

(** The mean of the natural ranks [r], [r+1], ..., [r+c]. *)
Definition avg_rank (r c : Z) : Q := (inject_Z (2 * r + c) / 2)%Q.

(** The largest pool on which the products of sample sizes in
    [corrected_Tvalue]'s numerator stay inside 32 bits. *)
Definition PAIR_LIMIT : Z := 46340.

(** [(r + (r+1) + ... + (r+c)) / (c+1)], as the specification writes the
    rank of a run of [c + 1] observations that starts at natural rank
    [r]. *)
Definition natural_sum (r c : Z) : Z :=
  fold_right Z.add 0 (map (Z.add r) (zrange (c + 1))).

Definition mean_rank (r c : Z) : Q :=
  (inject_Z (natural_sum r c) / inject_Z (c + 1))%Q.

Section Runs.
Context {Cell : Type}.
Variable same_key : Cell -> Cell -> bool.

(** The cells [s], ..., [s + c] are a maximal run of the pool
    [d[0..N-1]]: they are tied to [d[s]], the cell before them is not
    tied to [d[s]], nor is the cell after them. *)
Definition is_run (d : array Cell) (N s c : Z) : Prop :=
  0 <= s /\ 0 <= c /\ s + c < N /\
  (s = 0 \/ same_key (d s) (d (s - 1)) = false) /\
  (forall k, 1 <= k <= c -> same_key (d (s + k)) (d s) = true) /\
  (s + c = N - 1 \/ same_key (d (s + c + 1)) (d s) = false).

(** The number of observations of the pool tied to the one before
    them: [c] in each run of [c + 1]. *)
Definition tied_count (d : array Cell) (N : Z) : Z :=
  Z.of_nat (List.length
              (filter (fun k => same_key (d k) (d (k - 1)))
                      (map (Z.add 1) (zrange (N - 1))))).

Variable get_rank : Cell -> Q.

(** The first [i] cells of the pool [d[0..M-1]] are ranked in [d'] and
    [t] ties are counted: [i] is where a run starts, the runs before
    [i] cover the cells before [i] and have the mean of their natural
    ranks, and [t] is the number of tied observations before [i]. *)
Definition scanned (M : Z) (d d' : array Cell) (i t : Z) : Prop :=
  (i = 0 \/ i = M \/ same_key (d i) (d (i - 1)) = false) /\
  (forall s c, is_run d M s c -> s + c < i ->
     forall k, 0 <= k <= c ->
       (get_rank (d' (s + k)%Z) == mean_rank (s + 1)%Z c)%Q) /\
  (forall x, 0 <= x < i ->
     exists s c, is_run d M s c /\ s <= x <= s + c) /\
  t = tied_count d i.
End Runs.

(** The labels the specification gives the observations of a file: the
    position of each one's block among the blocks, a block being a
    maximal sequence of consecutive numeric lines. *)
Fixpoint block_labels (lines : list (option Q)) (in_block : bool) (next : Z)
  : list Z :=
  match lines with
  | [] => []
  | None :: l => block_labels l false next
  | Some _ :: l =>
      if in_block then (next - 1) :: block_labels l true next
      else next :: block_labels l true (next + 1)
  end.

(** The labels [read_file] gives the numeric lines, from the value of
    [clabel]. *)
Fixpoint line_labels (lines : list (option Q)) (clabel : Z) : list Z :=
  match lines with
  | [] => []
  | None :: l => line_labels l (clabel + 1)
  | Some _ :: l => clabel :: line_labels l clabel
  end.


(** The number of blocks of a file, and the number of its numeric
    lines. *)
Fixpoint block_count (lines : list (option Q)) (in_block : bool) : Z :=
  match lines with
  | [] => 0
  | None :: l => block_count l false
  | Some _ :: l => (if in_block then 0 else 1) + block_count l true
  end.

Fixpoint numeric_count (lines : list (option Q)) : Z :=
  match lines with
  | [] => 0
  | None :: l => numeric_count l
  | Some _ :: l => 1 + numeric_count l
  end.


Definition cat (l : list string) : string :=
  fold_right String.append EmptyString l.

(** The p-value the specification gives on the exact path: the first
    level whose critical value exceeds [Tplus], the last level if none
    does. *)
Definition first_exceeding (n : Z) (Tplus : Q) : Q :=
  match find (fun j => Qlt_bool Tplus (Wilcoxon.W n j)) (zrange 9) with
  | Some j => Wilcoxon.Wsig j
  | None => Wilcoxon.Wsig 8
  end.

(** The sum of the absolute values of the negative signed ranks. *)
Definition Tminus (p : array Wilcoxon.P) (n : Z) : Q :=
  sum_upto (Z.to_nat n)
    (fun i => if Qlt_bool (Wilcoxon.sigrank (p i)) 0
              then Qabs (Wilcoxon.sigrank (p i)) else 0%Q).

(** An executable stand-in for the external functions, for running the
    model on examples: no property below depends on it. *)
Definition toy_extern : Extern := {|
  cdfchi := fun x _ => (1 - x, x)%Q;
  cdft := fun t _ => (1 - t, t)%Q;
  cdfnor := fun x _ _ => (x, 1 - x)%Q;
  sqrt := fun x => x;
  fmt_g := fun x => (fmt_d (Qnum (Qred x)) ++ "/"
                     ++ fmt_d (Z.pos (Qden (Qred x))))%string;
  fmt_9g := fun x => (fmt_d (Qnum (Qred x)) ++ "/"
                      ++ fmt_d (Z.pos (Qden (Qred x))))%string
|}.

(** Memory as [calloc] would return it. *)
Definition zeroD : array D := fun _ => mkD 0 0 0.
Definition zeroP : array Wilcoxon.P := fun _ => Wilcoxon.mkP 0 0 0.

(** Input files of the examples: one number or one blank line per
    element. *)
Definition blocks (bs : list (list Q)) : list (option Q) :=
  flat_map (fun b => map Some b ++ [None]) bs.

(** Three samples, [{1}], [{2, 3, 5}] and [{4, 5}]. *)
Definition three_samples : list (option Q) :=
  blocks [[1]; [2; 3; 5]; [4; 5]]%Q.

(** Two samples after a leading blank line and two blank lines. *)
Definition spaced_samples : list (option Q) :=
  (None :: blocks [[1; 2]] ++ None :: blocks [[3]])%Q.

(** Paired samples with differences [1], [2], [-3], [-4], [-5], [0]. *)
Definition six_pairs : list (option Q) :=
  blocks [[0; 0; 0; 0; 0; 0]; [1; 2; -3; -4; -5; 0]]%Q.

(** Paired samples with differences [1], [2], [3], [10e99], [0], [0]. *)
Definition huge_pair : list (option Q) :=
  blocks [[0; 0; 0; 0; 0; 0]; [1; 2; 3; Wilcoxon.dropped; 0; 0]]%Q.



(** The [n] integers from [start] on. *)
Fixpoint count_up (start : Z) (n : nat) : list Q :=
  match n with
  | O => []
  | S n' => inject_Z start :: count_up (start + 1) n'
  end.

(** Two samples with the same mean rank and a pool of 46341
    observations: the integers from 1 to 46341 without the middle one,
    and the middle one, 23171, alone. *)
Definition without_median : list Q :=
  count_up 1 (Z.to_nat 23170) ++ count_up 23172 (Z.to_nat 23170).

Definition around_median : list (list Q) := [without_median; [23171%Q]].

Definition wide_samples : list (option Q) := blocks around_median.

(** The labelled values of the pool of the first test on
    [wide_samples]: sample 1, then sample 2. *)
Definition wide_pool : list (Q * Z) :=
  map (fun v => (v, 0)) without_median ++ [(23171%Q, 1)].

(** [compare] on the values alone. *)
Definition compare_values (x y : Q) : Z := compare (mkD x 0 0) (mkD y 0 0).

(** Paired samples with differences [0], [0], [0], [1]. *)
Definition mostly_equal_pairs : list (option Q) :=
  blocks [[1; 1; 1; 1]; [1; 1; 1; 2]]%Q.

(** ** Notions of the further properties *)

(** The numeric lines of a file, in order. *)
Definition numeric_lines (lines : list (option Q)) : list Q :=
  flat_map (fun o => match o with Some x => [x] | None => [] end) lines.

(** The blocks of a file.  [parse_blocks] returns the numeric lines
    before the first line that is not a number, and the blocks after
    that line; a block is never empty. *)
Definition add_block (b : list Q) (bs : list (list Q)) : list (list Q) :=
  match b with
  | [] => bs
  | _ :: _ => b :: bs
  end.

Fixpoint parse_blocks (lines : list (option Q)) : list Q * list (list Q) :=
  match lines with
  | [] => ([], [])
  | Some x :: l => let '(b, bs) := parse_blocks l in (x :: b, bs)
  | None :: l => let '(b, bs) := parse_blocks l in ([], add_block b bs)
  end.

Definition file_blocks (lines : list (option Q)) : list (list Q) :=
  let '(b, bs) := parse_blocks lines in add_block b bs.

(** The [i]-th value of the [j]-th block. *)
Definition block_value (lines : list (option Q)) (j i : Z) : Q :=
  nth (Z.to_nat i) (nth (Z.to_nat j) (file_blocks lines) []) 0%Q.

Definition block_size (lines : list (option Q)) (j : Z) : Z :=
  Z.of_nat (List.length (nth (Z.to_nat j) (file_blocks lines) [])).

(** The labels of the values of the blocks [bs], the first block being
    numbered [j]. *)
Fixpoint block_indices (bs : list (list Q)) (j : Z) : list Z :=
  match bs with
  | [] => []
  | b :: bs' => map (fun _ => j) b ++ block_indices bs' (j + 1)
  end.

(** The case in which the look-ahead of [assign_ranks] at [i = N - 1]
    takes the cell after the pool for a tie: that cell holds the key of
    the last observation, and the last observation starts a run. *)
Definition past_tie {Cell : Type} (same_key : Cell -> Cell -> bool)
    (d : array Cell) (N : Z) : bool :=
  same_key (d N) (d (N - 1))
  && ((N =? 1) || negb (same_key (d (N - 1)) (d (N - 2)))).

(** The midrank of [v] among the values [vs]: the number of smaller
    values plus half of one more than the number of equal values. *)
Definition midrank (vs : list Q) (v : Q) : Q :=
  (inject_Z (Z.of_nat (List.length (filter (fun u => Qlt_bool u v) vs)))
   + (inject_Z (Z.of_nat (List.length (filter (fun u => Qeq_bool u v) vs)))
      + 1) / 2)%Q.

(** The level the exact path reports, as the loop computes it: the
    first of the eight lower levels whose critical value is not below
    [Tplus], and the ninth level, 0.5, when there is none. *)
Definition first_reaching (n : Z) (Tplus : Q) : Q :=
  match find (fun j => Qle_bool Tplus (Wilcoxon.W n j)) (zrange 8) with
  | Some j => Wilcoxon.Wsig j
  | None => Wilcoxon.Wsig 8
  end.


Definition Qsum (l : list Q) : Q := fold_right Qplus 0%Q l.

(** ** The omnibus test as section 4.3 of the specification writes it

    The ranked pool is the list of its observations, and every
    operation on reals is the operation on doubles ([None]: not a
    finite number). *)








(** * Part III: properties *)

(** ** Integers and loops *)

Lemma wrap_small (z : Z) : in_int z -> wrap z = z.
Proof.
  unfold in_int, INT_MIN, INT_MAX, wrap. intros H.
  rewrite Z.mod_small; lia.
Qed.

Lemma wrap_in_int (z : Z) : in_int (wrap z).
Proof.
  unfold in_int, INT_MIN, INT_MAX, wrap.
  pose proof (Z.mod_pos_bound (z + 2147483648) 4294967296). lia.
Qed.

(** ** Doubles *)

Lemma round_double_compat (x y : Q) :
  (x == y)%Q -> round_double x = round_double y.
Proof.
  intros H. unfold round_double. rewrite (Qred_complete x y H). reflexivity.
Qed.

Lemma Qabs_opp_eq (x : Q) : Qabs (- x) = Qabs x.
Proof. destruct x as [n d]. unfold Qabs, Qopp. cbn. now rewrite Z.abs_opp. Qed.

Lemma Qopp_opp_eq (x : Q) : (- - x)%Q = x.
Proof. destruct x as [n d]. unfold Qopp. cbn. now rewrite Z.opp_involutive. Qed.

Lemma round_double_opp (x : Q) : round_double (- x) = (- round_double x)%Q.
Proof.
  unfold round_double. cbv zeta. rewrite Qred_opp.
  set (q := Qred x).
  assert (H0 : Qeq_bool (- q) 0 = Qeq_bool q 0).
  { destruct q as [n d]. unfold Qeq_bool, Qopp. cbn.
    destruct n; reflexivity. }
  rewrite H0, Qabs_opp_eq.
  destruct (Qeq_bool q 0) eqn:E0; [reflexivity|].
  set (r := if Qle_bool INFINITY _ then INFINITY else _).
  assert (Hs : Qlt_bool (- q) 0 = negb (Qlt_bool q 0)).
  { destruct q as [n d]. unfold Qlt_bool, Qle_bool, Qopp, Qeq_bool in *. cbn in *.
    destruct n; try discriminate; reflexivity. }
  rewrite Hs. destruct (Qlt_bool q 0); cbn [negb].
  - now rewrite Qopp_opp_eq.
  - reflexivity.
Qed.

Lemma finite_compat (x y : Q) : (x == y)%Q -> finite x = finite y.
Proof. intros H. unfold finite. now rewrite (round_double_compat x y H). Qed.

Lemma finite_opp (x : Q) : finite (- x) = option_map Qopp (finite x).
Proof.
  unfold finite. rewrite round_double_opp, Qabs_opp_eq.
  destruct (Qlt_bool _ _); reflexivity.
Qed.

Lemma dsub_swap (x y : Q) : dsub y x = option_map Qopp (dsub x y).
Proof.
  unfold dsub. rewrite <- finite_opp. apply finite_compat. ring.
Qed.

Lemma dadd_comm (x y : Q) : dadd x y = dadd y x.
Proof. unfold dadd. apply finite_compat. ring. Qed.

Lemma ddiv_opp (x y : Q) : ddiv (- x) y = option_map Qopp (ddiv x y).
Proof.
  unfold ddiv. destruct (Qeq_bool y 0) eqn:E; [reflexivity|].
  rewrite <- finite_opp. apply finite_compat.
  apply Qeq_bool_neq in E. field. exact E.
Qed.

Lemma dadd_compat (x x' y y' : Q) :
  (x == x')%Q -> (y == y')%Q -> dadd x y = dadd x' y'.
Proof. intros Hx Hy. unfold dadd. apply finite_compat. now rewrite Hx, Hy. Qed.


(** Hoare-style rule for [while]: an invariant and a measure that each
    iteration decreases give termination within [fuel] steps, the
    invariant on exit and the negated condition. *)
Lemma while_rule {S : Type} (Inv : S -> Prop) (mu : S -> nat)
    (cond : S -> bool) (body : S -> option S) :
  (forall s, Inv s -> cond s = true ->
     exists s', body s = Some s' /\ Inv s' /\ (mu s' < mu s)%nat) ->
  forall fuel s, Inv s -> (mu s <= fuel)%nat ->
  exists s', while fuel cond body s = Some s' /\ Inv s' /\ cond s' = false.
Proof.
  intros Hstep fuel. induction fuel as [|fuel IH]; intros s Hinv Hmu.
  - simpl. destruct (cond s) eqn:Hc.
    + destruct (Hstep s Hinv Hc) as (s' & _ & _ & Hlt). lia.
    + exists s. auto.
  - simpl. destruct (cond s) eqn:Hc.
    + destruct (Hstep s Hinv Hc) as (s' & Hb & Hinv' & Hlt).
      rewrite Hb. apply IH; [assumption | lia].
    + exists s. auto.
Qed.

Lemma upd_same {A : Type} (m : array A) (i : Z) (x : A) : upd m i x i = x.
Proof. unfold upd. now rewrite Z.eqb_refl. Qed.

Lemma upd_other {A : Type} (m : array A) (i k : Z) (x : A) :
  k <> i -> upd m i x k = m k.
Proof. unfold upd. intros H. apply Z.eqb_neq in H. now rewrite H. Qed.

(** ** Ranges *)

Lemma in_zrange (n k : Z) : In k (zrange n) <-> 0 <= k < n.
Proof.
  unfold zrange. rewrite in_map_iff. split.
  - intros (x & <- & Hx). apply in_seq in Hx. lia.
  - intros Hk. exists (Z.to_nat k). split; [lia|]. apply in_seq. lia.
Qed.



Lemma zrange_length (n : Z) : List.length (zrange n) = Z.to_nat n.
Proof. unfold zrange. now rewrite length_map, length_seq. Qed.


Lemma zrange_succ (n : Z) : 0 <= n -> zrange (n + 1) = zrange n ++ [n].
Proof.
  intros Hn. unfold zrange.
  replace (Z.to_nat (n + 1)) with (S (Z.to_nat n)) by lia.
  rewrite seq_S, map_app. cbn [map Nat.add]. f_equal. f_equal. lia.
Qed.

(** ** Sums *)

Lemma sum_upto_ext (n : nat) (f g : Z -> Q) :
  (forall k, 0 <= k < Z.of_nat n -> (f k == g k)%Q) ->
  (sum_upto n f == sum_upto n g)%Q.
Proof.
  induction n as [|n IH]; intros H; simpl.
  - reflexivity.
  - rewrite IH, (H (Z.of_nat n)) by (intros; try apply H; lia). reflexivity.
Qed.

Lemma sum_upto_app (n m : nat) (f : Z -> Q) :
  (sum_upto (n + m) f == sum_upto n f + sum_upto m (fun k => f (Z.of_nat n + k)%Z))%Q.
Proof.
  induction m as [|m IH]; simpl.
  - rewrite Nat.add_0_r. ring.
  - rewrite Nat.add_succ_r. simpl. rewrite IH, Nat2Z.inj_add. ring.
Qed.

Lemma sum_upto_const (m : nat) (a : Q) :
  (sum_upto m (fun _ => a) == inject_Z (Z.of_nat m) * a)%Q.
Proof.
  induction m as [|m IH]; simpl sum_upto.
  - change (inject_Z (Z.of_nat 0)) with 0%Q. ring.
  - rewrite IH, Nat2Z.inj_succ. unfold Z.succ. rewrite inject_Z_plus. ring.
Qed.

(** ** The ranking scan *)

Ltac int_range := unfold in_int, INT_MIN, INT_MAX, RANK_LIMIT in *; nia.

Ltac unwrap :=
  repeat match goal with
         | |- context [wrap ?z] => rewrite (wrap_small z) by int_range
         end.

Ltac zbool :=
  repeat match goal with
         | |- context [?a <=? ?b] => destruct (Z.leb_spec a b)
         | |- context [?a <? ?b] => destruct (Z.ltb_spec a b)
         | |- context [?a =? ?b] => destruct (Z.eqb_spec a b)
         end;
  cbn [andb orb negb]; try reflexivity; try lia; try congruence.

Ltac unwrap_in H :=
  repeat match type of H with
         | context [wrap ?z] => rewrite (wrap_small z) in H by int_range
         end.

Section ScanFacts.
Context {Cell : Type}.
Variable same_key : Cell -> Cell -> bool.
Variable get_rank : Cell -> Q.
Variable set_rank : Cell -> Q -> Cell.
Hypothesis get_set : forall c q, get_rank (set_rank c q) = q.

Local Abbreviation tie_cond := (RankAssigner.tie_cond same_key).
Local Abbreviation tie_body := RankAssigner.tie_body.
Local Abbreviation fill_cond := RankAssigner.fill_cond.
Local Abbreviation fill_body := (RankAssigner.fill_body set_rank).
Local Abbreviation scan_cond := RankAssigner.scan_cond.
Local Abbreviation scan_body := (RankAssigner.scan_body same_key set_rank).
Local Abbreviation assign_ranks := (RankAssigner.assign_ranks same_key set_rank).
Local Abbreviation sum_ranks := (RankAssigner.sum_ranks get_rank).

(** The inner loop, entered at [i] with [d[i+1]] tied to [d[i]]:
    it stops at the first [count] whose look-ahead cell is not tied
    to [d[i]] or whose index [i + count] has reached [N - 1]. *)
Lemma tie_loop_spec (d : array Cell) (i N : Z) (fuel : nat) :
  0 <= i < N -> N <= RANK_LIMIT -> (Z.to_nat N <= fuel)%nat ->
  same_key (d (i + 1)) (d i) = true ->
  exists a c tr,
    do_while fuel (tie_cond d i N) (tie_body (i + 1)) (wrap (i + 1), 0, i + 1)
      = Some (a, c, tr) /\
    1 <= c /\ (i + c <= N - 1 \/ (c = 1 /\ i = N - 1)) /\
    2 * tr = (c + 1) * (2 * (i + 1) + c) /\
    (forall k, 1 <= k <= c -> same_key (d (i + k)) (d i) = true) /\
    (i + c < N - 1 -> same_key (d (i + c + 1)) (d i) = false).
Proof.
  intros Hi HN Hfuel Htie.
  unfold do_while. cbn [tie_body RankAssigner.tie_body].
  set (Inv := fun s : Z * Z * Z =>
    let '(a, c, tr) := s in
    a = i + 1 + c /\ 1 <= c /\ (i + c <= N - 1 \/ (c = 1 /\ i = N - 1)) /\
    2 * tr = (c + 1) * (2 * (i + 1) + c) /\
    (forall k, 1 <= k <= c -> same_key (d (i + k)) (d i) = true)).
  set (mu := fun s : Z * Z * Z =>
    let '(_, c, _) := s in Z.to_nat (N - 1 - (i + c))).
  destruct (while_rule Inv mu (tie_cond d i N) (tie_body (i + 1)))
    with (fuel := fuel)
         (s := (wrap (i + 1) + 1, wrap (0 + 1),
                wrap (i + 1 + wrap (i + 1 + wrap (0 + 1)))))
    as (((a, c), tr) & Hrun & Hinv & Hexit).
  - intros ((a, c), tr) (Ha & Hc & Hb & Htr & Hk) Hcond.
    unfold RankAssigner.tie_cond in Hcond.
    apply andb_true_iff in Hcond. destruct Hcond as [Hkey Hlt].
    assert (Hic : i + c < N - 1).
    { unwrap_in Hlt. apply Z.ltb_lt in Hlt. exact Hlt. }
    eexists. split; [reflexivity|]. unfold Inv, mu.
    assert (Htr' : in_int (tr + (i + 1 + (c + 1)))).
    { unfold in_int, INT_MIN, INT_MAX, RANK_LIMIT in *. nia. }
    unwrap.
    repeat split; try lia.
    intros k Hk'. destruct (Z.eq_dec k (c + 1)) as [->|Hne].
    + rewrite <- Hkey. f_equal. f_equal. lia.
    + apply Hk. lia.
  - unfold Inv. unwrap. repeat split; try lia.
    intros k Hk. assert (k = 1) by lia. subst k. exact Htie.
  - unfold mu. unwrap. lia.
  - exists a, c, tr. destruct Hinv as (Ha & Hc & Hb & Htr & Hk).
    repeat split; try assumption.
    intros Hic. unfold RankAssigner.tie_cond in Hexit.
    apply andb_false_iff in Hexit. destruct Hexit as [Hkey | Hlt].
    + rewrite <- Hkey. f_equal. f_equal. lia.
    + unwrap_in Hlt. apply Z.ltb_ge in Hlt. lia.
Qed.

(** The [for] loop that stores the average in [d[i]], ..., [d[i+count]]. *)
Lemma fill_loop_spec (d : array Cell) (i c : Z) (avg : Q) (fuel : nat) :
  0 <= i -> 0 <= c -> i + c <= RANK_LIMIT + 1 ->
  (Z.to_nat (c + 1) <= fuel)%nat ->
  exists d' j,
    while fuel (fill_cond c) (fill_body i avg) (d, 0) = Some (d', j) /\
    forall k, d' k = if (i <=? k) && (k <=? i + c)
                     then set_rank (d k) avg else d k.
Proof.
  intros Hi Hc Hic Hfuel.
  set (Inv := fun s : array Cell * Z =>
    let '(dj, j) := s in
    0 <= j <= c + 1 /\
    forall k, dj k = if (i <=? k) && (k <? i + j)
                     then set_rank (d k) avg else d k).
  set (mu := fun s : array Cell * Z => Z.to_nat (c + 1 - snd s)).
  destruct (while_rule Inv mu (fill_cond c) (fill_body i avg))
    with (fuel := fuel) (s := (d, 0)) as ((d', j) & Hrun & Hinv & Hexit).
  - intros (dj, j) (Hj & Hd) Hcond.
    unfold RankAssigner.fill_cond in Hcond. cbn [snd] in Hcond.
    apply Z.leb_le in Hcond.
    eexists. split; [reflexivity|]. unfold Inv, mu. cbn [snd].
    unwrap. repeat split; try lia.
    intros k. unfold upd. rewrite !Hd. zbool.
  - unfold Inv. split; [lia|]. intros k. zbool.
  - unfold mu. cbn [snd]. lia.
  - exists d', j. split; [exact Hrun|]. destruct Hinv as (Hj & Hd).
    unfold RankAssigner.fill_cond in Hexit. cbn [snd] in Hexit.
    apply Z.leb_gt in Hexit. assert (j = c + 1) by lia. subst j.
    intros k. rewrite Hd. zbool.
Qed.

Lemma avg_rank_of_total (tr r c : Z) :
  0 <= c -> 2 * tr = (c + 1) * (2 * r + c) ->
  (inject_Z tr / inject_Z (c + 1) == avg_rank r c)%Q.
Proof.
  intros Hc Htr. unfold avg_rank.
  assert (H1 : ~ (inject_Z (c + 1) == 0)%Q).
  { unfold Qeq. simpl. lia. }
  assert (H2 : (2 * inject_Z tr == inject_Z (c + 1) * inject_Z (2 * r + c))%Q).
  { change 2%Q with (inject_Z 2). rewrite <- !inject_Z_mult, Htr. reflexivity. }
  apply (Qmult_inj_r _ _ (2 * inject_Z (c + 1))%Q).
  { intros H. apply H1. lra. }
  transitivity (2 * inject_Z tr)%Q; [field; exact H1|].
  rewrite H2. field.
Qed.

(** One iteration of the outer loop at a position [i] inside the pool.
    Either the tie run found stays inside the pool, or the scan stood
    on the last observation and found the cell after the pool tied to
    it, in which case both get the average of ranks [N] and [N+1]. *)
Lemma scan_step (d : array Cell) (i N ties : Z) (fuel : nat) :
  0 <= i < N -> N <= RANK_LIMIT -> (Z.to_nat N < fuel)%nat ->
  0 <= ties <= i ->
  exists c d' r,
    scan_body fuel N (d, i, i + 1, ties)
      = Some (d', i + c + 1, i + c + 2, ties + c) /\
    0 <= c /\
    (i + c <= N - 1 \/
     (c = 1 /\ i = N - 1 /\ same_key (d N) (d (N - 1)) = true)) /\
    (r == avg_rank (i + 1) c)%Q /\
    (forall k, d' k = if (i <=? k) && (k <=? i + c)
                      then set_rank (d k) r else d k) /\
    (forall k, 1 <= k <= c -> same_key (d (i + k)) (d i) = true) /\
    (i + c < N - 1 -> same_key (d (i + c + 1)) (d i) = false) /\
    (c = 0 -> same_key (d (i + 1)) (d i) = false).
Proof.
  intros Hi HN Hfuel Hties.
  unfold RankAssigner.scan_body.
  rewrite (wrap_small (i + 1)) by int_range.
  destruct (same_key (d (i + 1)) (d i)) eqn:Htie.
  - destruct (tie_loop_spec d i N fuel) as (a & c & tr & Hrun & Hc & Hb & Htr & Hk & Hx);
      try assumption; try lia.
    rewrite (wrap_small (i + 1)) in Hrun by int_range.
    rewrite Hrun.
    assert (Hwc : wrap (c + 1) = c + 1) by (apply wrap_small; int_range).
    rewrite Hwc.
    destruct (fill_loop_spec d i c (inject_Z tr / inject_Z (c + 1))%Q fuel)
      as (d' & j & Hfill & Hd'); try lia.
    rewrite Hfill. unwrap.
    exists c, d', (inject_Z tr / inject_Z (c + 1))%Q.
    repeat split; try assumption; try lia.
    + replace (i + (c + 1)) with (i + c + 1) by lia.
      replace (i + 1 + (c + 1)) with (i + c + 2) by lia. reflexivity.
    + destruct Hb as [Hb | (Hc1 & Hi1)]; [left; exact Hb|right].
      subst c. repeat split; try lia.
      replace N with (i + 1) by lia. replace (i + 1 - 1) with i by lia.
      exact Htie.
    + apply avg_rank_of_total; [lia | exact Htr].
  - unwrap.
    exists 0, (upd d i (set_rank (d i) (inject_Z (i + 1)))), (inject_Z (i + 1)).
    repeat split; try lia.
    + replace (i + 0 + 1) with (i + 1) by lia.
      replace (i + 0 + 2) with (i + 1 + 1) by lia.
      replace (ties + 0) with ties by lia. reflexivity.
    + unfold avg_rank. rewrite Z.add_0_r, inject_Z_mult.
      change (inject_Z 2) with 2%Q. field.
    + intros k. unfold upd. zbool.
    + intros _. rewrite Z.add_0_r. exact Htie.
Qed.

(** The scan as an iteration over tie runs.  [assign_ranks] returns on
    every pool of [1] to [RANK_LIMIT] observations.  A property [P] of
    the memory, the position and [total_ties] that holds at the start
    and is carried over each run [i], ..., [i + c] of cells tied to
    [d[i]] and followed, inside the pool, by a cell that is not, holds
    at the end of the pool; or it holds at [N - 1] and the scan then
    took the last observation and the cell after the pool for a run of
    two. *)
Lemma scan_runs_gen (P : array Cell -> Z -> Z -> Prop) (d0 : array Cell)
    (N : Z) :
  1 <= N <= RANK_LIMIT ->
  P d0 0 0 ->
  (forall d i ties c d' r,
      P d i ties -> 0 <= i < N -> 0 <= ties <= i ->
      (forall k, i <= k -> d k = d0 k) ->
      0 <= c -> i + c <= N - 1 ->
      (r == avg_rank (i + 1) c)%Q ->
      (forall k, d' k = if (i <=? k) && (k <=? i + c)
                        then set_rank (d k) r else d k) ->
      (forall k, 1 <= k <= c -> same_key (d0 (i + k)) (d0 i) = true) ->
      (i + c < N - 1 -> same_key (d0 (i + c + 1)) (d0 i) = false) ->
      (c = 0 -> same_key (d0 (i + 1)) (d0 i) = false) ->
      P d' (i + c + 1) (ties + c)) ->
  exists d' t,
    assign_ranks d0 N = Some (d', t) /\
    ((P d' N t /\ (forall k, N <= k -> d' k = d0 k)) \/
     (same_key (d0 N) (d0 (N - 1)) = true /\
      exists d1 t1 r,
        P d1 (N - 1) t1 /\ (forall k, N - 1 <= k -> d1 k = d0 k) /\
        t = t1 + 1 /\ (r == avg_rank N 1)%Q /\
        forall k, d' k = if (N - 1 <=? k) && (k <=? N)
                         then set_rank (d1 k) r else d1 k)).
Proof.
  intros HN H0 Hstep.
  unfold RankAssigner.assign_ranks. cbv zeta.
  set (fuel := S (Z.to_nat N)).
  set (Past := fun (d' : array Cell) (t : Z) =>
    same_key (d0 N) (d0 (N - 1)) = true /\
    exists d1 t1 r,
      P d1 (N - 1) t1 /\ (forall k, N - 1 <= k -> d1 k = d0 k) /\
      t = t1 + 1 /\ (r == avg_rank N 1)%Q /\
      forall k, d' k = if (N - 1 <=? k) && (k <=? N)
                       then set_rank (d1 k) r else d1 k).
  set (Inv := fun s : (array Cell * Z * Z * Z)%type =>
    let '(d, i, crank, ties) := s in
    crank = i + 1 /\ 0 <= ties <= i /\
    ((0 <= i <= N /\ (forall k, i <= k -> d k = d0 k) /\ P d i ties) \/
     (i = N + 1 /\ Past d ties))).
  set (mu := fun s : (array Cell * Z * Z * Z)%type =>
    let '(_, i, _, _) := s in Z.to_nat (N - i)).
  destruct (while_rule Inv mu (scan_cond N) (scan_body fuel N))
    with (fuel := fuel) (s := (d0, 0, 1, 0))
    as ((((d', i), crank), ties) & Hrun & Hinv & Hexit).
  - intros (((d, i), crank), ties) (Hcrank & Hties & Hcase) Hcond.
    unfold RankAssigner.scan_cond in Hcond. apply Z.ltb_lt in Hcond.
    subst crank.
    destruct Hcase as [(Hi & Hsame & HP) | (Hi & _)]; [|lia].
    destruct (scan_step d i N ties fuel)
      as (c & d1 & r & Hbody & Hc & Hb & Hr & Hd1 & Hk & Hx & Hc0);
      try lia.
    exists (d1, i + c + 1, i + c + 2, ties + c).
    split; [exact Hbody|]. unfold Inv, mu.
    destruct Hb as [Hin | (Hc1 & Hi1 & Htie)].
    + repeat split; try lia. left. repeat split; try lia.
      * intros k Hk'. rewrite Hd1, <- Hsame by lia. zbool.
      * apply (Hstep d i ties c d1 r); try assumption; try lia.
        -- intros k Hk'. rewrite <- !Hsame by lia. apply Hk. exact Hk'.
        -- intros Hlt. rewrite <- !Hsame by lia. apply Hx. exact Hlt.
        -- intros Hz. rewrite <- !Hsame by lia. apply Hc0. exact Hz.
    + subst c. repeat split; try lia. right. split; [lia|].
      unfold Past. split.
      * rewrite <- !Hsame by lia. exact Htie.
      * exists d, ties, r. replace (N - 1) with i by lia.
        repeat split; try assumption.
        -- replace N with (i + 1) by lia. exact Hr.
        -- intros k. rewrite Hd1. replace N with (i + 1) by lia. reflexivity.
  - unfold Inv. repeat split; try lia. left. repeat split; try lia; auto.
  - unfold mu, fuel. lia.
  - rewrite Hrun. exists d', ties. split; [reflexivity|].
    destruct Hinv as (Hcrank & Hties & Hcase).
    unfold RankAssigner.scan_cond in Hexit. apply Z.ltb_ge in Hexit.
    destruct Hcase as [(Hi & Hsame & HP) | (Hi & Hpast)].
    + assert (i = N) by lia. subst i. left. auto.
    + right. exact Hpast.
Qed.

(** The same when the cell after the pool is not tied to the last
    observation: the scan stops at the end of the pool and leaves the
    memory after it as it was. *)
Lemma scan_runs (P : array Cell -> Z -> Z -> Prop) (d0 : array Cell) (N : Z) :
  1 <= N <= RANK_LIMIT ->
  same_key (d0 N) (d0 (N - 1)) = false ->
  P d0 0 0 ->
  (forall d i ties c d' r,
      P d i ties -> 0 <= i < N -> 0 <= ties <= i ->
      (forall k, i <= k -> d k = d0 k) ->
      0 <= c -> i + c <= N - 1 ->
      (r == avg_rank (i + 1) c)%Q ->
      (forall k, d' k = if (i <=? k) && (k <=? i + c)
                        then set_rank (d k) r else d k) ->
      (forall k, 1 <= k <= c -> same_key (d0 (i + k)) (d0 i) = true) ->
      (i + c < N - 1 -> same_key (d0 (i + c + 1)) (d0 i) = false) ->
      (c = 0 -> same_key (d0 (i + 1)) (d0 i) = false) ->
      P d' (i + c + 1) (ties + c)) ->
  exists d' t,
    assign_ranks d0 N = Some (d', t) /\ P d' N t /\
    (forall k, N <= k -> d' k = d0 k).
Proof.
  intros HN Hpast H0 Hstep.
  destruct (scan_runs_gen P d0 N HN H0 Hstep)
    as (d' & t & Hrun & [Hok | (Htie & _)]).
  - exists d', t. tauto.
  - congruence.
Qed.


(** Without ties to the cell after the pool, the ranks of a pool of
    [N] observations add up to [N (N + 1) / 2]. *)
Lemma assign_ranks_sum (d : array Cell) (N : Z) :
  1 <= N <= RANK_LIMIT ->
  same_key (d N) (d (N - 1)) = false ->
  exists d' t,
    assign_ranks d N = Some (d', t) /\
    (sum_ranks d' N == inject_Z (N * (N + 1)) / 2)%Q.
Proof.
  intros HN Hpast.
  destruct (scan_runs
              (fun d' i _ => (sum_ranks d' i == inject_Z (i * (i + 1)) / 2)%Q)
              d N HN Hpast) as (d' & t & Hrun & Hsum & _).
  - unfold RankAssigner.sum_ranks. simpl. reflexivity.
  - intros d1 i ties c d2 r Hsum Hi Hties Hsame Hc Hic Hr Hd2 _ _ _.
    unfold RankAssigner.sum_ranks in *.
    replace (Z.to_nat (i + c + 1)) with (Z.to_nat i + Z.to_nat (c + 1))%nat by lia.
    rewrite sum_upto_app.
    rewrite (sum_upto_ext (Z.to_nat i) _ (fun k => get_rank (d1 k))).
    2:{ intros k Hk. rewrite Hd2.
        replace (i <=? k) with false by (symmetry; apply Z.leb_gt; lia).
        reflexivity. }
    rewrite (sum_upto_ext (Z.to_nat (c + 1)) _ (fun _ => r)).
    2:{ intros k Hk. rewrite Hd2.
        replace ((Z.of_nat (Z.to_nat i) + k <=? i + c)) with true
          by (symmetry; apply Z.leb_le; lia).
        replace (i <=? Z.of_nat (Z.to_nat i) + k) with true
          by (symmetry; apply Z.leb_le; lia).
        cbn [andb]. rewrite get_set. reflexivity. }
    rewrite Hsum, sum_upto_const, Hr. unfold avg_rank.
    rewrite Z2Nat.id by lia.
    replace ((i + c + 1) * (i + c + 1 + 1))
      with (i * (i + 1) + (c + 1) * (2 * (i + 1) + c)) by ring.
    rewrite (inject_Z_plus (i * (i + 1))), (inject_Z_mult (c + 1)). field.
  - exists d', t. split; assumption.
Qed.

(** The ranks up to [i + m] after [d[i]], ..., [d[i+c]] got the rank
    [r]. *)
Lemma sum_ranks_fill (d1 d2 : array Cell) (i c : Z) (r : Q) :
  0 <= i -> 0 <= c ->
  (sum_ranks d1 i == inject_Z (i * (i + 1)) / 2)%Q ->
  (r == avg_rank (i + 1) c)%Q ->
  (forall k, d2 k = if (i <=? k) && (k <=? i + c)
                    then set_rank (d1 k) r else d1 k) ->
  forall m, 0 <= m <= c + 1 ->
  (sum_ranks d2 (i + m)
   == inject_Z (i * (i + 1)) / 2 + inject_Z m * avg_rank (i + 1) c)%Q.
Proof.
  intros Hi Hc Hs Hr Hd2 m Hm.
  unfold RankAssigner.sum_ranks in *.
  replace (Z.to_nat (i + m)) with (Z.to_nat i + Z.to_nat m)%nat by lia.
  rewrite sum_upto_app.
  rewrite (sum_upto_ext (Z.to_nat i) _ (fun k => get_rank (d1 k))).
  2:{ intros k Hk. rewrite Hd2.
      replace (i <=? k) with false by (symmetry; apply Z.leb_gt; lia).
      reflexivity. }
  rewrite (sum_upto_ext (Z.to_nat m) _ (fun _ => r)).
  2:{ intros k Hk. rewrite Hd2.
      replace ((Z.of_nat (Z.to_nat i) + k <=? i + c)) with true
        by (symmetry; apply Z.leb_le; lia).
      replace (i <=? Z.of_nat (Z.to_nat i) + k) with true
        by (symmetry; apply Z.leb_le; lia).
      cbn [andb]. rewrite get_set. reflexivity. }
  rewrite Hs, sum_upto_const, Hr, Z2Nat.id by lia. reflexivity.
Qed.

Lemma sum_ranks_run (d1 d2 : array Cell) (i c : Z) (r : Q) :
  0 <= i -> 0 <= c ->
  (sum_ranks d1 i == inject_Z (i * (i + 1)) / 2)%Q ->
  (r == avg_rank (i + 1) c)%Q ->
  (forall k, d2 k = if (i <=? k) && (k <=? i + c)
                    then set_rank (d1 k) r else d1 k) ->
  (sum_ranks d2 (i + c + 1)
   == inject_Z ((i + c + 1) * (i + c + 1 + 1)) / 2)%Q.
Proof.
  intros Hi Hc Hs Hr Hd2.
  replace (i + c + 1) with (i + (c + 1)) by lia.
  rewrite (sum_ranks_fill d1 d2 i c r) by (assumption || lia).
  unfold avg_rank.
  replace ((i + (c + 1)) * (i + (c + 1) + 1))
    with (i * (i + 1) + (c + 1) * (2 * (i + 1) + c)) by ring.
  rewrite (inject_Z_plus (i * (i + 1))), (inject_Z_mult (c + 1)). field.
Qed.

Lemma sum_ranks_past (d1 d2 : array Cell) (N : Z) (r : Q) :
  1 <= N ->
  (sum_ranks d1 (N - 1) == inject_Z ((N - 1) * (N - 1 + 1)) / 2)%Q ->
  (r == avg_rank N 1)%Q ->
  (forall k, d2 k = if (N - 1 <=? k) && (k <=? N)
                    then set_rank (d1 k) r else d1 k) ->
  (sum_ranks d2 N == inject_Z (N * (N + 1)) / 2 + (1 # 2))%Q.
Proof.
  intros HN Hs Hr Hd2.
  replace N with (N - 1 + 1) at 1 by lia.
  rewrite (sum_ranks_fill d1 d2 (N - 1) 1 r); try lia; try assumption.
  - replace (N - 1 + 1) with N by lia. unfold avg_rank.
    replace (N * (N + 1)) with ((N - 1) * N + 2 * N) by ring.
    rewrite (inject_Z_plus ((N - 1) * N)), (inject_Z_plus (2 * N)).
    rewrite (inject_Z_mult 2 N).
    change (inject_Z 2) with 2%Q. change (inject_Z 1) with 1%Q. field.
  - replace (N - 1 + 1) with N by lia. exact Hr.
  - intros k. rewrite Hd2. replace (N - 1 + 1) with N by lia. reflexivity.
Qed.

(** What [assign_ranks] does to the memory in either case: it returns,
    changes nothing but ranks, stores halves of integers, and the ranks
    of the pool add up to [N (N + 1) / 2], or to 1/2 more when the cell
    after the pool is tied to the last observation. *)
Lemma assign_ranks_facts (d : array Cell) (N : Z) :
  1 <= N <= RANK_LIMIT ->
  exists d' t,
    assign_ranks d N = Some (d', t) /\
    (forall x, d' x = d x \/ exists r, d' x = set_rank (d x) r) /\
    (forall x, 0 <= x < N ->
     exists z, 2 <= z /\ (get_rank (d' x) == inject_Z z / 2)%Q) /\
    ((sum_ranks d' N == inject_Z (N * (N + 1)) / 2)%Q \/
     (same_key (d N) (d (N - 1)) = true /\
      (sum_ranks d' N == inject_Z (N * (N + 1)) / 2 + (1 # 2))%Q)).
Proof.
  intros HN.
  set (P := fun (d' : array Cell) (i : Z) (_ : Z) =>
    (forall x, d' x = d x \/ exists r, d' x = set_rank (d x) r) /\
    (forall x, 0 <= x < i ->
       exists z, 2 <= z /\ (get_rank (d' x) == inject_Z z / 2)%Q) /\
    (sum_ranks d' i == inject_Z (i * (i + 1)) / 2)%Q).
  destruct (scan_runs_gen P d N HN) as (d' & t & Hrun & Hcases).
  - unfold P. split; [|split].
    + intros x. left. reflexivity.
    + intros x Hx. lia.
    + unfold RankAssigner.sum_ranks. simpl. reflexivity.
  - intros d1 i ties c d2 r (Hframe & Hhalf & Hs) Hi Hties Hsame Hc Hic Hr Hd2 _ _ _.
    unfold P. split; [|split].
    + intros x. rewrite Hd2.
      destruct ((i <=? x) && (x <=? i + c)) eqn:Hx; [|apply Hframe].
      apply andb_true_iff in Hx. destruct Hx as [Hx _]. apply Z.leb_le in Hx.
      right. exists r. rewrite Hsame by lia. reflexivity.
    + intros x Hx. rewrite Hd2.
      destruct ((i <=? x) && (x <=? i + c)) eqn:Hx'.
      * rewrite get_set. exists (2 * (i + 1) + c). split; [lia | exact Hr].
      * apply Hhalf. apply andb_false_iff in Hx'.
        destruct Hx' as [Hx' | Hx']; [apply Z.leb_gt in Hx' | apply Z.leb_gt in Hx']; lia.
    + apply (sum_ranks_run d1 d2 i c r); assumption || lia.
  - exists d', t. split; [exact Hrun|].
    destruct Hcases as [((Hframe & Hhalf & Hs) & _) | (Htie & d1 & t1 & r & HP & Hsame & Ht & Hr & Hd')].
    + split; [exact Hframe|]. split; [exact Hhalf|]. left. exact Hs.
    + destruct HP as (Hframe & Hhalf & Hs). split; [|split].
      * intros x. rewrite Hd'.
        destruct ((N - 1 <=? x) && (x <=? N)) eqn:Hx; [|apply Hframe].
        apply andb_true_iff in Hx. destruct Hx as [Hx _]. apply Z.leb_le in Hx.
        right. exists r. rewrite Hsame by lia. reflexivity.
      * intros x Hx. rewrite Hd'.
        destruct ((N - 1 <=? x) && (x <=? N)) eqn:Hx'.
        -- rewrite get_set. exists (2 * N + 1). split; [lia | exact Hr].
        -- apply Hhalf. apply andb_false_iff in Hx'.
           destruct Hx' as [Hx' | Hx']; [apply Z.leb_gt in Hx' | apply Z.leb_gt in Hx']; lia.
      * right. split; [exact Htie|].
        apply (sum_ranks_past d1 d' N r); assumption || lia.
Qed.

End ScanFacts.

(** ** The scan returns

    Whatever the keys are, [assign_ranks] returns on every pool whose
    size [N] leaves room for the [i + 1] of the look-ahead: the
    positions and [count] stay between 0 and [N + 1], and [crank],
    [totalrank] and [total_ties], which may wrap on large pools, decide
    no branch. *)

Section ScanReturns.
Context {Cell : Type}.
Variable same_key : Cell -> Cell -> bool.
Variable set_rank : Cell -> Q -> Cell.




End ScanReturns.

(** ** Runs of tied observations *)

Lemma natural_sum_succ (r c : Z) :
  0 <= c -> natural_sum r (c + 1) = natural_sum r c + (r + (c + 1)).
Proof.
  intros Hc. unfold natural_sum.
  rewrite (zrange_succ (c + 1)) by lia.
  rewrite map_app, fold_right_app. cbn [map fold_right].
  generalize (map (Z.add r) (zrange (c + 1))). intros l.
  induction l as [|a l IH]; cbn [fold_right]; [lia|]. rewrite IH. lia.
Qed.

Lemma natural_sum_closed (r c : Z) :
  0 <= c -> 2 * natural_sum r c = (c + 1) * (2 * r + c).
Proof.
  intros Hc. pattern c. apply natlike_ind; [| |exact Hc].
  - unfold natural_sum. change (zrange (0 + 1)) with [0].
    cbn [map fold_right]. lia.
  - clear c Hc. intros c Hc IH. unfold Z.succ.
    rewrite natural_sum_succ by exact Hc. lia.
Qed.

(** The mean of the natural ranks of a run, as the specification writes
    it, is the first rank plus half the number of ties. *)
Lemma mean_rank_avg (r c : Z) : 0 <= c -> (mean_rank r c == avg_rank r c)%Q.
Proof.
  intros Hc. unfold mean_rank.
  apply avg_rank_of_total; [exact Hc | apply natural_sum_closed; exact Hc].
Qed.

Section RunFacts.
Context {Cell : Type}.
Variable same_key : Cell -> Cell -> bool.
Variable get_rank : Cell -> Q.
Variable set_rank : Cell -> Q -> Cell.
Hypothesis get_set : forall c q, get_rank (set_rank c q) = q.
Hypothesis key_sym : forall a b, same_key a b = same_key b a.
Hypothesis key_trans :
  forall a b c, same_key a b = true -> same_key b c = true ->
                same_key a c = true.

Lemma tied_count_succ (d : array Cell) (n : Z) :
  1 <= n ->
  tied_count same_key d (n + 1)
  = tied_count same_key d n + (if same_key (d n) (d (n - 1)) then 1 else 0).
Proof.
  intros Hn. unfold tied_count.
  replace (n + 1 - 1) with (n - 1 + 1) by lia.
  rewrite zrange_succ, map_app, filter_app, length_app by lia.
  cbn [map filter]. replace (1 + (n - 1)) with n by lia.
  destruct (same_key (d n) (d (n - 1))); cbn [List.length]; lia.
Qed.

Lemma tied_count_le_1 (d : array Cell) (n : Z) :
  n <= 1 -> tied_count same_key d n = 0.
Proof.
  intros Hn. unfold tied_count, zrange.
  replace (Z.to_nat (n - 1)) with 0%nat by lia. reflexivity.
Qed.

(** A run of [c + 1] cells that starts at a position not tied to the
    cell before it adds [c] to the count of tied observations. *)
Lemma tied_count_run (d : array Cell) (i c : Z) :
  0 <= i -> 0 <= c ->
  (i = 0 \/ same_key (d i) (d (i - 1)) = false) ->
  (forall k, 1 <= k <= c -> same_key (d (i + k)) (d i) = true) ->
  tied_count same_key d (i + c + 1) = tied_count same_key d i + c.
Proof.
  intros Hi Hc Hstart. pattern c. apply natlike_ind; [| |exact Hc].
  - intros _. rewrite Z.add_0_r.
    destruct (Z.eq_dec i 0) as [->|Hne].
    + rewrite !tied_count_le_1 by lia. reflexivity.
    + rewrite tied_count_succ by lia.
      destruct Hstart as [? | ->]; lia.
  - clear c Hc. intros c Hc IH Hrun. unfold Z.succ.
    replace (i + (c + 1) + 1) with (i + c + 1 + 1) by lia.
    rewrite tied_count_succ by lia.
    rewrite IH by (intros k Hk; apply Hrun; lia).
    replace (i + c + 1 - 1) with (i + c) by lia.
    assert (Htie : same_key (d (i + c + 1)) (d (i + c)) = true).
    { assert (H1 : same_key (d (i + c + 1)) (d i) = true).
      { replace (i + c + 1) with (i + (c + 1)) by lia. apply Hrun. lia. }
      destruct (Z.eq_dec c 0) as [->|Hne].
      - rewrite Z.add_0_r in *. exact H1.
      - apply key_trans with (d i); [exact H1|]. rewrite key_sym.
        apply Hrun. lia. }
    rewrite Htie. lia.
Qed.

Lemma scanned_start (M : Z) (d : array Cell) :
  scanned same_key get_rank M d d 0 0.
Proof.
  unfold scanned. split; [left; reflexivity|]. split; [|split].
  - intros s c (Hs & Hc & _) Hlt. lia.
  - intros x Hx. lia.
  - rewrite tied_count_le_1 by lia. reflexivity.
Qed.

(** One run [i], ..., [i + c] inside the pool extends what is scanned. *)
Lemma scanned_step (M : Z) (d d1 d2 : array Cell) (i c t : Z) (r : Q) :
  scanned same_key get_rank M d d1 i t ->
  0 <= i -> 0 <= c -> i + c <= M - 1 ->
  (r == avg_rank (i + 1) c)%Q ->
  (forall k, d2 k = if (i <=? k) && (k <=? i + c)
                    then set_rank (d1 k) r else d1 k) ->
  (forall k, 1 <= k <= c -> same_key (d (i + k)) (d i) = true) ->
  (i + c < M - 1 -> same_key (d (i + c + 1)) (d i) = false) ->
  scanned same_key get_rank M d d2 (i + c + 1) (t + c).
Proof.
  intros (Hstart & Hranks & Hcover & Ht) Hi Hc Hic Hr Hd2 Hk Hx.
  assert (Hstart' : i = 0 \/ same_key (d i) (d (i - 1)) = false)
    by (destruct Hstart as [? | [? | ?]]; [left | lia | right]; assumption).
  assert (Hadj : forall x, i < x <= i + c ->
                   same_key (d x) (d (x - 1)) = true).
  { intros x Hx'.
    assert (H1 : same_key (d x) (d i) = true).
    { replace x with (i + (x - i)) by lia. apply Hk. lia. }
    destruct (Z.eq_dec (x - 1) i) as [-> | Hne]; [exact H1|].
    apply key_trans with (d i); [exact H1|]. rewrite key_sym.
    replace (x - 1) with (i + (x - 1 - i)) by lia. apply Hk. lia. }
  unfold scanned. split; [|split; [|split]].
  - destruct (Z.eq_dec (i + c + 1) M) as [Heq | Hne]; [right; left; exact Heq|].
    right. right. replace (i + c + 1 - 1) with (i + c) by lia.
    destruct (Z.eq_dec c 0) as [-> | Hc0].
    + rewrite Z.add_0_r in *. apply Hx. lia.
    + destruct (same_key (d (i + c + 1)) (d (i + c))) eqn:E; [|reflexivity].
      rewrite <- (Hx ltac:(lia)). symmetry.
      apply key_trans with (d (i + c)); [exact E | apply Hk; lia].
  - intros s c0 Hrun0 Hlt k Hk'. rewrite Hd2.
    destruct (Z_lt_le_dec (s + c0) i) as [Hbefore | Hhere].
    { replace ((i <=? s + k) && (s + k <=? i + c)) with false
        by (symmetry; zbool).
      apply (Hranks s c0 Hrun0 Hbefore k Hk'). }
    destruct Hrun0 as (Hs & Hc0 & HsN & Hs0 & Hrunk & Hend).
    assert (Hsi : s = i).
    { destruct (Z_lt_le_dec i s) as [Hgt | Hle].
      - exfalso. destruct Hs0 as [? | Hs0]; [lia|].
        rewrite Hadj in Hs0 by lia. discriminate.
      - destruct (Z.eq_dec s i) as [? | Hne]; [assumption|]. exfalso.
        assert (His : same_key (d i) (d s) = true).
        { replace i with (s + (i - s)) by lia. apply Hrunk. lia. }
        assert (Hprev : same_key (d i) (d (i - 1)) = true).
        { destruct (Z.eq_dec (i - 1) s) as [-> | Hne']; [exact His|].
          apply key_trans with (d s); [exact His|]. rewrite key_sym.
          replace (i - 1) with (s + (i - 1 - s)) by lia. apply Hrunk. lia. }
        destruct Hstart' as [? | Hst]; [lia|]. congruence. }
    subst s.
    assert (Hcc : c0 = c).
    { destruct (Z_lt_le_dec c0 c) as [Hlt' | Hge]; [exfalso | lia].
      destruct Hend as [? | Hend]; [lia|].
      replace (i + c0 + 1) with (i + (c0 + 1)) in Hend by lia.
      rewrite Hk in Hend by lia. discriminate. }
    subst c0.
    replace ((i <=? i + k) && (i + k <=? i + c)) with true
      by (symmetry; zbool).
    rewrite get_set, Hr. symmetry. apply mean_rank_avg. exact Hc.
  - intros x Hx'. destruct (Z_lt_le_dec x i) as [Hlt | Hge].
    + apply Hcover. lia.
    + exists i, c. split; [|lia].
      unfold is_run. repeat split; try lia; try assumption.
      destruct (Z.eq_dec (i + c) (M - 1)) as [? | Hne]; [left; assumption|].
      right. apply Hx. lia.
  - rewrite Ht. symmetry. apply tied_count_run; try lia; assumption.
Qed.

(** C2, on the pools the code ranks correctly.  When the cell after the
    pool is not tied to the last observation, [assign_ranks] gives
    every observation of a maximal run of [c + 1] observations starting
    at natural rank [s + 1] the mean [(r + ... + (r + c)) / (c + 1)] of
    the run's natural ranks, the runs cover the pool, and the count
    returned is the number of observations tied to the one before them,
    to which each run contributes [c]. *)
Lemma assign_ranks_runs (d : array Cell) (N : Z) :
  1 <= N <= RANK_LIMIT ->
  same_key (d N) (d (N - 1)) = false ->
  exists d' t,
    RankAssigner.assign_ranks same_key set_rank d N = Some (d', t) /\
    (forall s c, is_run same_key d N s c ->
       forall k, 0 <= k <= c ->
         (get_rank (d' (s + k)%Z) == mean_rank (s + 1)%Z c)%Q) /\
    (forall x, 0 <= x < N ->
       exists s c, is_run same_key d N s c /\ s <= x <= s + c) /\
    t = tied_count same_key d N.
Proof.
  intros HN Hpast.
  destruct (scan_runs same_key set_rank (scanned same_key get_rank N d)
              d N HN Hpast)
    as (d' & t & Hrun & (_ & Hranks & Hcover & Ht) & _).
  - apply scanned_start.
  - intros d1 i ties c d2 r Hsc Hi Hties Hsame Hc Hic Hr Hd2 Hk Hx _.
    apply (scanned_step N d d1 d2 i c ties r); try assumption; lia.
  - exists d', t. split; [exact Hrun|]. split; [|split; [exact Hcover | exact Ht]].
    intros s c Hrun0 k Hk. apply (Hranks s c Hrun0); [|exact Hk].
    destruct Hrun0 as (_ & _ & H & _). exact H.
Qed.

(** C1 and C2, on the pools the code ranks wrongly.  When the cell
    after the pool is tied to the last observation and the last
    observation is not tied to the one before it, [assign_ranks] ranks
    the runs before the last observation as above, and gives the last
    observation the mean [N + 1/2] of the ranks [N] and [N + 1]; the
    ranks of the pool add up to [N (N + 1) / 2 + 1/2] and the count
    returned is one more than the number of tied observations. *)
Lemma assign_ranks_past_tie (d : array Cell) (N : Z) :
  1 <= N <= RANK_LIMIT ->
  same_key (d N) (d (N - 1)) = true ->
  (N = 1 \/ same_key (d (N - 1)) (d (N - 2)) = false) ->
  exists d' t,
    RankAssigner.assign_ranks same_key set_rank d N = Some (d', t) /\
    (forall s c, is_run same_key d (N - 1) s c ->
       forall k, 0 <= k <= c ->
         (get_rank (d' (s + k)%Z) == mean_rank (s + 1)%Z c)%Q) /\
    (get_rank (d' (N - 1)%Z) == inject_Z N + (1 # 2))%Q /\
    (RankAssigner.sum_ranks get_rank d' N
     == inject_Z (N * (N + 1)) / 2 + (1 # 2))%Q /\
    t = tied_count same_key d N + 1 /\
    (forall x, d' x = d x \/ exists q, d' x = set_rank (d x) q).
Proof.
  intros HN Hpast Hlast.
  set (P := fun (d' : array Cell) (i t : Z) =>
    i <= N - 1 /\
    scanned same_key get_rank (N - 1) d d' i t /\
    (RankAssigner.sum_ranks get_rank d' i == inject_Z (i * (i + 1)) / 2)%Q /\
    (forall x, d' x = d x \/ exists q, d' x = set_rank (d x) q)).
  destruct (scan_runs_gen same_key set_rank P d N HN)
    as (d' & t & Hrun & Hcases).
  - unfold P. split; [lia|]. split; [apply scanned_start|]. split.
    + unfold RankAssigner.sum_ranks. simpl. reflexivity.
    + intros x. left. reflexivity.
  - intros d1 i ties c d2 r (_ & Hsc & Hs & Hframe) Hi Hties Hsame Hc Hic Hr
           Hd2 Hk Hx Hc0.
    assert (Hinside : i + c < N - 1).
    { destruct (Z.eq_dec (i + c) (N - 1)) as [Heq | Hne]; [exfalso | lia].
      destruct (Z.eq_dec c 0) as [-> | Hcpos].
      - specialize (Hc0 eq_refl). replace (i + 1) with N in Hc0 by lia.
        replace i with (N - 1) in Hc0 by lia. congruence.
      - destruct Hlast as [? | Hlast]; [lia|].
        assert (H1 : same_key (d (N - 1)) (d i) = true).
        { replace (N - 1) with (i + c) by lia. apply Hk. lia. }
        assert (H2 : same_key (d (N - 1)) (d (N - 2)) = true).
        { destruct (Z.eq_dec (N - 2) i) as [-> | Hne]; [exact H1|].
          apply key_trans with (d i); [exact H1|]. rewrite key_sym.
          replace (N - 2) with (i + (c - 1)) by lia. apply Hk. lia. }
        congruence. }
    unfold P. split; [lia|]. split; [|split].
    + apply (scanned_step (N - 1) d d1 d2 i c ties r); try assumption; try lia.
      intros Hlt. apply Hx. lia.
    + apply (sum_ranks_run get_rank set_rank get_set d1 d2 i c r);
        assumption || lia.
    + intros x. rewrite Hd2.
      destruct ((i <=? x) && (x <=? i + c)) eqn:Hx'; [|apply Hframe].
      apply andb_true_iff in Hx'. destruct Hx' as [Hx' _].
      apply Z.leb_le in Hx'.
      right. exists r. rewrite Hsame by lia. reflexivity.
  - exists d', t. split; [exact Hrun|].
    destruct Hcases as [((Hle & _) & _) | (_ & d1 & t1 & r & HP & Hsame & Ht & Hr & Hd')];
      [lia|].
    destruct HP as (_ & (_ & Hranks & _ & Ht1) & Hs & Hframe).
    split; [|split; [|split; [|split]]].
    + intros s c Hrun0 k Hk. rewrite Hd'.
      assert (Hsc : s + c < N - 1) by (destruct Hrun0 as (_ & _ & H & _); exact H).
      replace ((N - 1 <=? s + k) && (s + k <=? N)) with false by (symmetry; zbool).
      apply (Hranks s c Hrun0 Hsc k Hk).
    + rewrite Hd'.
      replace ((N - 1 <=? N - 1) && (N - 1 <=? N)) with true by (symmetry; zbool).
      rewrite get_set, Hr. unfold avg_rank. rewrite inject_Z_plus, inject_Z_mult.
      change (inject_Z 2) with 2%Q. change (inject_Z 1) with 1%Q. field.
    + apply (sum_ranks_past get_rank set_rank get_set d1 d' N r);
        assumption || lia.
    + rewrite Ht, Ht1. f_equal.
      destruct (Z.eq_dec N 1) as [-> | Hne].
      * rewrite !tied_count_le_1 by lia. reflexivity.
      * replace N with (N - 1 + 1) at 2 by lia.
        rewrite tied_count_succ by lia.
        replace (N - 1 - 1) with (N - 2) by lia.
        destruct Hlast as [? | ->]; lia.
    + intros x. rewrite Hd'.
      destruct ((N - 1 <=? x) && (x <=? N)) eqn:Hx'; [|apply Hframe].
      apply andb_true_iff in Hx'. destruct Hx' as [Hx' _].
      apply Z.leb_le in Hx'.
      right. exists r. rewrite Hsame by lia. reflexivity.
Qed.

(** C1, second part, on the pools the code ranks correctly.  When no
    observation is tied to the one before it, and the cell after the
    pool is not tied to the last one, the ranks are 1, 2, ..., [N] in
    the order of the pool and no tie is counted. *)
Lemma assign_ranks_distinct (d : array Cell) (N : Z) :
  1 <= N <= RANK_LIMIT ->
  (forall x, 1 <= x <= N -> same_key (d x) (d (x - 1)) = false) ->
  exists d' t,
    RankAssigner.assign_ranks same_key set_rank d N = Some (d', t) /\
    (forall x, 0 <= x < N -> (get_rank (d' x) == inject_Z (x + 1)%Z)%Q) /\
    t = 0.
Proof.
  intros HN Hdistinct.
  destruct (assign_ranks_runs d N HN (Hdistinct N ltac:(lia)))
    as (d' & t & Hrun & Hranks & _ & Ht).
  exists d', t. split; [exact Hrun|]. split.
  - intros x Hx.
    assert (Hr : is_run same_key d N x 0).
    { unfold is_run. repeat split; try lia.
      - destruct (Z.eq_dec x 0); [left; assumption | right; apply Hdistinct; lia].
      - destruct (Z.eq_dec (x + 0) (N - 1)); [left; assumption | right].
        replace (x + 0 + 1) with (x + 1) by lia.
        replace (d x) with (d (x + 1 - 1)) by (f_equal; lia).
        apply Hdistinct. lia. }
    specialize (Hranks x 0 Hr 0 ltac:(lia)).
    rewrite Z.add_0_r in Hranks. rewrite Hranks, mean_rank_avg by lia.
    unfold avg_rank. rewrite Z.add_0_r, inject_Z_mult.
    change (inject_Z 2) with 2%Q. field.
  - rewrite Ht. unfold tied_count.
    replace (filter (fun k => same_key (d k) (d (k - 1)))
                    (map (Z.add 1) (zrange (N - 1)))) with (@nil Z);
      [reflexivity|].
    symmetry. generalize (fun k => proj1 (in_zrange (N - 1) k)).
    generalize (zrange (N - 1)). intros l. induction l as [|a l IH]; intros Hl.
    + reflexivity.
    + cbn [map filter]. rewrite Hdistinct.
      * apply IH. intros k Hk. apply Hl. right. exact Hk.
      * specialize (Hl a (or_introl eq_refl)). lia.
Qed.

End RunFacts.

(** ** The critical values of the signed-rank test *)

(** Apart from the entry of row 44 in the first column, no column of
    the table decreases from one sample size to the next. *)
Lemma W_columns_nondecreasing_elsewhere (n j : Z) :
  4 <= n < 50 -> 0 <= j <= 8 -> (n, j) <> (43, 0) ->
  (Wilcoxon.W n j <= Wilcoxon.W (n + 1) j)%Q.
Proof.
  intros Hn Hj Hne.
  assert (Hall :
    forallb (fun n => forallb (fun j =>
               ((n =? 43) && (j =? 0))
               || Qle_bool (Wilcoxon.W n j) (Wilcoxon.W (n + 1) j))
               (zrange 9)) (zrange 50) = true) by (vm_compute; reflexivity).
  rewrite forallb_forall in Hall.
  specialize (Hall n (proj2 (in_zrange 50 n) ltac:(lia))).
  rewrite forallb_forall in Hall.
  specialize (Hall j (proj2 (in_zrange 9 j) ltac:(lia))).
  apply orb_true_iff in Hall. destruct Hall as [H | H].
  - apply andb_true_iff in H. destruct H as [H1 H2].
    apply Z.eqb_eq in H1, H2. congruence.
  - apply Qle_bool_iff. exact H.
Qed.

(** C10 (what the code holds at the failing entry).  In the first
    column (level 0.005) the table built by [init_W] holds 263 for
    sample size 43 and 227 for sample size 44: the column decreases
    there, so it is not nondecreasing over the sample sizes 4 to 50. *)
Lemma W_column_0_decreases_at_44 :
  Wilcoxon.W 43 0 = 263%Q /\ Wilcoxon.W 44 0 = 227%Q /\
  (Wilcoxon.W 44 0 < Wilcoxon.W 43 0)%Q /\
  ~ (forall n j, 4 <= n < 50 -> 0 <= j <= 8 ->
       (Wilcoxon.W n j <= Wilcoxon.W (n + 1) j)%Q).
Proof.
  repeat split.
  intros H. specialize (H 43 0 ltac:(lia) ltac:(lia)).
  revert H. vm_compute. intros H. apply H. reflexivity.
Qed.

(** ** The scan of the levels *)

Lemma Qlt_bool_iff (x y : Q) : Qlt_bool x y = true <-> (x < y)%Q.
Proof.
  unfold Qlt_bool. rewrite negb_true_iff. split.
  - intros H. apply Qnot_le_lt. intros Hle.
    apply Qle_bool_iff in Hle. congruence.
  - intros H. destruct (Qle_bool y x) eqn:E; [|reflexivity].
    apply Qle_bool_iff in E. apply Qlt_not_le in H. contradiction.
Qed.

Lemma Qlt_bool_false (x y : Q) : Qlt_bool x y = false <-> (y <= x)%Q.
Proof.
  unfold Qlt_bool. rewrite negb_false_iff. apply Qle_bool_iff.
Qed.

(** A scan [j = 0; while (c j && j < 8) j++] stops at the first [j]
    below 8 where [c] fails, or at 8. *)
Lemma level_scan (c : Z -> bool) :
  exists j,
    while 8 (fun j => c j && (j <? 8)) (fun j => Some (j + 1)) 0 = Some j /\
    0 <= j <= 8 /\
    (forall k, 0 <= k < j -> c k = true) /\
    (j < 8 -> c j = false).
Proof.
  destruct (while_rule
              (fun j => 0 <= j <= 8 /\ forall k, 0 <= k < j -> c k = true)
              (fun j => Z.to_nat (8 - j))
              (fun j => c j && (j <? 8)) (fun j => Some (j + 1)))
    with (fuel := 8%nat) (s := 0) as (j & Hrun & (Hj & Hk) & Hexit).
  - intros j (Hj & Hk) Hcond. apply andb_true_iff in Hcond.
    destruct Hcond as [Hc Hlt]. apply Z.ltb_lt in Hlt.
    exists (j + 1). repeat split; try lia.
    intros k Hk'. destruct (Z.eq_dec k j) as [->|Hne]; [exact Hc|].
    apply Hk. lia.
  - split; [lia|]. intros k Hk. lia.
  - simpl. lia.
  - exists j. repeat split; try assumption; try lia.
    intros Hlt. apply andb_false_iff in Hexit. destruct Hexit as [Hc | Hge].
    + exact Hc.
    + apply Z.ltb_ge in Hge. lia.
Qed.

(** On the exact path the level reported is the first one whose
    critical value is not below [Tplus], the last one if all of the
    first eight are below. *)
Lemma upper_scan_spec (n : Z) (T : Q) :
  exists j,
    Wilcoxon.upper_scan n T = Some j /\ 0 <= j <= 8 /\
    (forall k, 0 <= k < j -> (Wilcoxon.W n k < T)%Q) /\
    (j < 8 -> (T <= Wilcoxon.W n j)%Q).
Proof.
  destruct (level_scan (fun j => Qlt_bool (Wilcoxon.W n j) T))
    as (j & Hrun & Hj & Hk & Hx).
  exists j. repeat split; try assumption; try lia.
  - intros k Hk'. apply Qlt_bool_iff. apply Hk. exact Hk'.
  - intros Hlt. apply Qlt_bool_false. apply Hx. exact Hlt.
Qed.

Lemma lower_scan_returns (n : Z) (T : Q) :
  exists j, Wilcoxon.lower_scan n T = Some j.
Proof.
  unfold Wilcoxon.lower_scan. cbv zeta.
  destruct (level_scan
              (fun j => Qlt_bool T
                 (inject_Z (Z.quot (wrap (n * wrap (n - 1))) 2)
                  - Wilcoxon.W n j)%Q)) as (j & Hrun & _).
  exists j. exact Hrun.
Qed.


(** ** The programs on the example inputs *)

(** The first five tests of mann-whit.cc on [three_samples], evaluated
    on zeroed memory.  When sample 3 is tested against sample 1 the
    pool is 1, 4, 5 and the cell of [pair] after it still holds the 5
    of the test before.  The observation 5, a run of one at natural
    rank 3, gets the rank 7/2 instead of 3, [assign_ranks] returns 1
    instead of 0, and the rank sum of sample 3 is 11/2 instead of 5. *)
Lemma mann_whitney_rank_past_pool :
  let d := snd (read_file three_samples zeroD) in
  let Nsamp := of_list [1; 3; 2] (fun _ => 0) in
  exists before pool ranked t,
    foldM (MannWhitney.test (E := toy_extern) d Nsamp)
          [(0, 1); (0, 2); (1, 0); (1, 2)] (zeroD, EmptyString)
      = Done before /\
    pool = qsort compare
             (MannWhitney.copy_sample d 0 1 2 0
                (MannWhitney.copy_sample d 4 2 0 2 (fst before))) 3 /\
    map (fun c => Qred (value c)) (take pool 4) = [1; 4; 5; 5]%Q /\
    MannWhitney.assign_ranks pool 3 = Some (ranked, t) /\
    map (fun c => Qred (rank c)) (take ranked 3) = [1; 2; 7 # 2]%Q /\
    t = 1 /\
    tied_count D_same_value pool 3 = 0 /\
    Qred (sum_of_ranks ranked 2 3) = (11 # 2)%Q /\
    exists after,
      MannWhitney.test (E := toy_extern) d Nsamp before (2, 0) = Done after /\
      map (fun c => Qred (rank c)) (take (fst after) 3) = [1; 2; 7 # 2]%Q.
Proof.
  cbv zeta. eexists. eexists. eexists. eexists.
  split; [vm_compute; reflexivity|].
  split; [reflexivity|].
  split; [vm_compute; reflexivity|].
  split; [vm_compute; reflexivity|].
  split; [vm_compute; reflexivity|].
  split; [vm_compute; reflexivity|].
  split; [vm_compute; reflexivity|].
  split; [vm_compute; reflexivity|].
  eexists. split; vm_compute; reflexivity.
Qed.

(** C3 (what the code does at a failing input, whatever [malloc]
    returned and whatever the external functions are).
    wilcoxon-sign.cc on [six_pairs], sample 2 against sample 1: one
    zero difference is dropped, [n = 5] and [Tplus = 3], which is the
    critical value of level 0.1.  The scan stops there and 0.1 is
    reported, although that value does not exceed [Tplus]; the first
    level whose critical value exceeds 3 is 0.2. *)
Theorem wilcoxon_level_at_critical_value {E : Extern} (heap_d : array D)
    (heap_p : array Wilcoxon.P) :
  let d := snd (read_file six_pairs heap_d) in
  exists p,
    Wilcoxon.rank_differences d 6 0 1 heap_p = Some (p, 1, 5) /\
    Qred (Wilcoxon.Tplus p 5) = 3%Q /\
    Wilcoxon.W 5 4 = 3%Q /\
    Wilcoxon.pvalue_of p 6 1 5 = Done (Wilcoxon.Exact, (1 # 10)%Q) /\
    first_exceeding 5 (Wilcoxon.Tplus p 5) = (2 # 10)%Q.
Proof.
  cbv zeta. eexists.
  split; [vm_compute; reflexivity|].
  repeat split; vm_compute; reflexivity.
Qed.

(** C7 (what the code does at a failing input, whatever [malloc]
    returned).  On [spaced_samples], a blank line, the block 1, 2, two
    blank lines and the block 3, [check_file] counts 2 blocks of sizes
    2 and 1 while [read_file] labels the observations 1, 1, 3: the
    labels are not the positions 0, 0, 1 of the blocks and not all of
    them are below the number of blocks. *)
Theorem read_file_labels_shifted (heap_d : array D) :
  exists c,
    check_file spaced_samples = Done c /\
    no_runs c = 2 /\ take (Nsamp c) 2 = [2; 1] /\
    map label (take (snd (read_file spaced_samples heap_d)) 3) = [1; 1; 3] /\
    block_labels spaced_samples false 0 = [0; 0; 1].
Proof.
  eexists. split; [vm_compute; reflexivity|].
  repeat split; vm_compute; reflexivity.
Qed.

(** C9 (what the code does at a failing input, whatever [malloc]
    returned).  wilcoxon-sign.cc on [huge_pair], sample 2 against
    sample 1: two zero differences are replaced by 10e99 and sorted
    behind the [n = 4] others, the largest of which is 10e99 as well.
    [assign_ranks] ties it with the cell after the pool and ranks it
    9/2: [Tplus] is 21/2, no signed rank is negative, and
    [Tplus + Tminus] is not [4 * 5 / 2 = 10]. *)
Theorem wilcoxon_rank_sum_past_pool (heap_d : array D)
    (heap_p : array Wilcoxon.P) :
  let d := snd (read_file huge_pair heap_d) in
  exists p,
    Wilcoxon.rank_differences d 6 0 1 heap_p = Some (p, 2, 4) /\
    map (fun c => Qred (Wilcoxon.sigrank c)) (take p 4) = [1; 2; 3; 9 # 2]%Q /\
    Qred (Wilcoxon.Tplus p 4) = (21 # 2)%Q /\
    Qred (Tminus p 4) = 0%Q /\
    ~ (Wilcoxon.Tplus p 4 + Tminus p 4 == inject_Z (4 * (4 + 1)) / 2)%Q.
Proof.
  cbv zeta. eexists.
  split; [vm_compute; reflexivity|].
  split; [vm_compute; reflexivity|].
  split; [vm_compute; reflexivity|].
  split; [vm_compute; reflexivity|].
  vm_compute. discriminate.
Qed.

(** ** The branch of the signed-rank test *)

(** The guard before the branch.  wilcoxon-sign.cc on
    [mostly_equal_pairs], sample 2 against sample 1: three of the four
    differences are zero, so the fraction of dropped differences is
    3/4 > 0.5; with [n = 1 < 4] the run ends with exit code 1 before
    the normal approximation is considered. *)
Lemma normal_branch_not_reached_below_four :
  let d := snd (read_file mostly_equal_pairs zeroD) in
  exists p,
    Wilcoxon.rank_differences d 4 0 1 zeroP = Some (p, 3, 1) /\
    (1 # 2 < inject_Z 3 / inject_Z 4)%Q /\
    Wilcoxon.pvalue_of (E := toy_extern) p 4 3 1 = Exit1 TooFewValues /\
    Wilcoxon.main (E := toy_extern) (Some mostly_equal_pairs) true zeroD zeroP
      = Exit1 TooFewValues.
Proof.
  cbv zeta. eexists.
  split; [vm_compute; reflexivity|].
  repeat split; vm_compute; reflexivity.
Qed.

(** ** The loader *)

Lemma block_count_nonneg (lines : list (option Q)) (b : bool) :
  0 <= block_count lines b.
Proof.
  revert b. induction lines as [|[x|] l IH]; intros b; cbn [block_count].
  - lia.
  - specialize (IH true). destruct b; lia.
  - apply IH.
Qed.

Lemma numeric_count_nonneg (lines : list (option Q)) : 0 <= numeric_count lines.
Proof. induction lines as [|[x|] l IH]; cbn [numeric_count]; lia. Qed.

(** [check_file] from any state of its counters: it counts the blocks
    and the numeric lines, and fails exactly when the blocks are more
    than [MAX_DISTS]. *)
Lemma check_lines_spec (lines : list (option Q)) (s : counts) :
  0 <= no_runs s <= MAX_DISTS -> new_run s = 0 \/ new_run s = 1 ->
  let k := no_runs s + block_count lines (new_run s =? 0) in
  (k <= MAX_DISTS ->
   exists c, foldM check_line lines s = Done c /\
             no_runs c = k /\ total c = total s + numeric_count lines) /\
  (MAX_DISTS < k -> foldM check_line lines s = Exit1 TooManyDistributions).
Proof.
  revert s. induction lines as [|[x|] l IH]; intros s Hruns Hnew;
    cbn [foldM block_count numeric_count]; cbv zeta.
  - split.
    + intros _. exists s. repeat split; lia.
    + lia.
  - unfold check_line.
    set (runs := if new_run s =? 1 then no_runs s + 1 else no_runs s).
    assert (Hk : no_runs s + ((if new_run s =? 0 then 0 else 1)
                              + block_count l true)
                 = runs + block_count l true).
    { unfold runs.
      destruct (Z.eqb_spec (new_run s) 1), (Z.eqb_spec (new_run s) 0); lia. }
    rewrite Hk. pose proof (block_count_nonneg l true) as Hb.
    destruct (runs <=? MAX_DISTS) eqn:Hle.
    + apply Z.leb_le in Hle. cbn [bind].
      specialize (IH (mkCounts runs (total s + 1) 0
                        (upd (Nsamp s) (runs - 1) (Nsamp s (runs - 1) + 1)))).
      cbn [no_runs new_run total] in IH.
      destruct IH as [IH1 IH2].
      { unfold runs. destruct (new_run s =? 1); lia. }
      { left. reflexivity. }
      change (0 =? 0) with true in IH1, IH2. split.
      * intros Hmax. destruct (IH1 Hmax) as (c & Hc & Hr & Ht).
        exists c. repeat split; try assumption. lia.
      * exact IH2.
    + apply Z.leb_gt in Hle. cbn [bind]. split; [lia | reflexivity].
  - cbn [check_line bind].
    specialize (IH (mkCounts (no_runs s) (total s) 1 (Nsamp s))).
    cbn [no_runs new_run total] in IH.
    change (1 =? 0) with false in IH. apply IH; [exact Hruns | right; reflexivity].
Qed.

Lemma check_file_spec (lines : list (option Q)) :
  (block_count lines false <= MAX_DISTS ->
   exists c, check_file lines = Done c /\
             no_runs c = block_count lines false /\
             total c = numeric_count lines) /\
  (MAX_DISTS < block_count lines false ->
   check_file lines = Exit1 TooManyDistributions).
Proof.
  unfold check_file.
  pose proof (check_lines_spec lines (mkCounts 0 0 1 (fun _ => 0))) as H.
  cbn [no_runs new_run total] in H. change (1 =? 0) with false in H.
  rewrite !Z.add_0_l in H. apply H; [unfold MAX_DISTS; lia | right; reflexivity].
Qed.

Lemma check_file_done (lines : list (option Q)) (c : counts) :
  check_file lines = Done c ->
  no_runs c = block_count lines false /\ 0 <= no_runs c <= MAX_DISTS /\
  total c = numeric_count lines.
Proof.
  intros Hc. destruct (check_file_spec lines) as [H1 H2].
  destruct (Z_le_gt_dec (block_count lines false) MAX_DISTS) as [Hle | Hgt].
  - destruct (H1 Hle) as (c' & Hc' & Hr & Ht).
    assert (c' = c) by congruence. subst c'.
    pose proof (block_count_nonneg lines false). repeat split; lia.
  - rewrite H2 in Hc by lia. discriminate.
Qed.

Lemma read_lines_count (lines : list (option Q)) (cl np : Z) (d : array D) :
  snd (fst (fold_left read_line lines (cl, np, d))) = np + numeric_count lines.
Proof.
  revert cl np d. induction lines as [|[x|] l IH]; intros cl np d;
    cbn [fold_left read_line numeric_count].
  - cbn [fst snd]. lia.
  - rewrite IH. lia.
  - apply IH.
Qed.

Lemma read_file_count (lines : list (option Q)) (d : array D) :
  fst (read_file lines d) = numeric_count lines.
Proof.
  unfold read_file. pose proof (read_lines_count lines 0 0 d) as H.
  destruct (fold_left read_line lines (0, 0, d)) as ((cl, np), d').
  simpl in *. lia.
Qed.

(** ** The pairwise tools on fewer than two blocks *)

Lemma tests_below_two (k : Z) : k < 2 -> MannWhitney.tests k = [].
Proof.
  intros Hk. unfold MannWhitney.tests, zrange.
  destruct (Z.to_nat k) as [|[|n]] eqn:E; try lia; reflexivity.
Qed.

(** C8 (counterexample).  mann-whit.cc on a file with the single block
    1, 2: no test is made, the output file is left empty, the only
    message is the warning about the size of the sample, and the run
    ends with exit code 0. *)
Lemma mann_whitney_one_block_exit_0 :
  block_count (blocks [[1; 2]]%Q) false = 1 /\
  MannWhitney.main (E := toy_extern) (Some (blocks [[1; 2]]%Q)) true zeroD zeroD
    = Done ([SmallSample 1 2], EmptyString) /\
  exit_code (MannWhitney.main (E := toy_extern) (Some (blocks [[1; 2]]%Q))
               true zeroD zeroD) = Some 0.
Proof. repeat split; vm_compute; reflexivity. Qed.

(** C8 (amended).  For every indicator file with fewer than 2 blocks,
    mann-whit.cc raises no format error: when the output file can be
    opened the run makes no test, leaves it empty, warns only about
    samples of fewer than 20 values and ends with exit code 0. *)
Theorem mann_whitney_few_blocks {E : Extern} (lines : list (option Q))
    (heap_d heap_pair : array D) :
  block_count lines false < 2 ->
  exists c,
    check_file lines = Done c /\
    MannWhitney.main (Some lines) true heap_d heap_pair
      = Done (small_samples (no_runs c) (Nsamp c), EmptyString) /\
    exit_code (MannWhitney.main (Some lines) true heap_d heap_pair) = Some 0.
Proof.
  intros Hk. destruct (check_file_spec lines) as [H1 _].
  destruct H1 as (c & Hc & Hr & Ht); [unfold MAX_DISTS; lia|].
  exists c. split; [exact Hc|].
  assert (Hmain : MannWhitney.main (Some lines) true heap_d heap_pair
                  = Done (small_samples (no_runs c) (Nsamp c), EmptyString)).
  { unfold MannWhitney.main. rewrite Hc. cbn [bind].
    destruct (read_file lines heap_d) as (N, d).
    rewrite tests_below_two by lia. cbn [foldM bind snd].
    replace (2 <? no_runs c) with false by (symmetry; apply Z.ltb_ge; lia).
    rewrite app_nil_r. reflexivity. }
  split; [exact Hmain|]. rewrite Hmain. reflexivity.
Qed.

Lemma mann_whitney_few_blocks_witness :
  block_count (blocks [[3; 1; 2]]%Q) false < 2 /\
  exit_code (MannWhitney.main (E := toy_extern) (Some (blocks [[3; 1; 2]]%Q))
               true zeroD zeroD) = Some 0.
Proof.
  split; [reflexivity|].
  destruct (mann_whitney_few_blocks (E := toy_extern) (blocks [[3; 1; 2]]%Q)
              zeroD zeroD) as (c & _ & _ & Hexit); [reflexivity | exact Hexit].
Defined.

(** ** The report of the omnibus test *)





Lemma append_assoc (a b c : string) :
  ((a ++ b) ++ c = a ++ (b ++ c))%string.
Proof. induction a as [|x a IH]; simpl; [reflexivity | now rewrite IH]. Qed.

Lemma append_empty_r (a : string) : (a ++ "" = a)%string.
Proof. induction a as [|x a IH]; simpl; [reflexivity | now rewrite IH]. Qed.

Lemma cat_app (l1 l2 : list string) :
  cat (l1 ++ l2) = (cat l1 ++ cat l2)%string.
Proof.
  induction l1 as [|a l1 IH]; simpl; [reflexivity|].
  now rewrite IH, append_assoc.
Qed.

(** The inner loop of the report appends one line per [j <> i]. *)
Lemma report_row (f : Z -> string) (i : Z) (js : list Z) (out : string) :
  fold_left (fun out j => if i =? j then out else (out ++ f j)%string) js out
  = (out ++ cat (map f (filter (fun j => negb (i =? j)%Z) js)))%string.
Proof.
  revert out. induction js as [|j js IH]; intros out; cbn [fold_left filter].
  - simpl. now rewrite append_empty_r.
  - rewrite IH. destruct (i =? j); cbn [negb map cat fold_right].
    + reflexivity.
    + now rewrite append_assoc.
Qed.

Lemma report_rows (f : Z -> Z -> string) (js is_ : list Z) (out : string) :
  fold_left
    (fun out i =>
       fold_left (fun out j => if i =? j then out else (out ++ f i j)%string)
                 js out)
    is_ out
  = (out ++ cat (map (fun ij => f (fst ij) (snd ij))
                     (flat_map (fun i => map (fun j => (i, j))
                                  (filter (fun j => negb (i =? j)%Z) js)) is_)))%string.
Proof.
  revert out. induction is_ as [|i is_ IH]; intros out; cbn [fold_left flat_map].
  - simpl. now rewrite append_empty_r.
  - rewrite IH, report_row, map_app, cat_app, map_map, append_assoc.
    reflexivity.
Qed.

(** ** The pool of a Mann-Whitney test *)

Lemma copy_sample_spec (d : array D) (start n off lab : Z) (pr : array D)
    (x : Z) :
  0 <= n ->
  MannWhitney.copy_sample d start n off lab pr x
  = if (off <=? x) && (x <? off + n)
    then mkD (value (d (x - off + start))) lab (rank (pr x))
    else pr x.
Proof.
  intros Hn. revert x. pattern n. apply natlike_ind; [| |exact Hn].
  - intros x. unfold MannWhitney.copy_sample. cbn [zrange Z.to_nat seq map fold_left].
    zbool.
  - clear n Hn. intros n Hn IH x. unfold MannWhitney.copy_sample in *.
    unfold Z.succ. rewrite zrange_succ, fold_left_app by exact Hn.
    cbn [fold_left]. unfold upd. rewrite !IH. zbool.
    subst x. replace (n + off - off + start) with (n + start) by lia.
    reflexivity.
Qed.

Lemma sort_In {A : Type} (cmp : A -> A -> Z) (l : list A) (x : A) :
  In x (sort cmp l) <-> In x l.
Proof.
  assert (Hins : forall a l', In x (insert cmp a l') <-> a = x \/ In x l').
  { intros a l'. induction l' as [|b l' IH]; cbn [insert].
    - reflexivity.
    - destruct (cmp a b <=? 0); cbn [In]; [reflexivity|].
      rewrite IH. tauto. }
  induction l as [|a l IH]; cbn [sort fold_right]; [reflexivity|].
  fold (sort cmp l). rewrite Hins, IH. reflexivity.
Qed.

Lemma sort_length {A : Type} (cmp : A -> A -> Z) (l : list A) :
  List.length (sort cmp l) = List.length l.
Proof.
  assert (Hins : forall a l', List.length (insert cmp a l') = S (List.length l')).
  { intros a l'. induction l' as [|b l' IH]; cbn [insert]; [reflexivity|].
    destruct (cmp a b <=? 0); cbn [List.length]; [reflexivity | now rewrite IH]. }
  induction l as [|a l IH]; cbn [sort fold_right]; [reflexivity|].
  fold (sort cmp l). rewrite Hins, IH. reflexivity.
Qed.

Lemma take_length {A : Type} (m : array A) (n : Z) :
  List.length (take m n) = Z.to_nat n.
Proof. unfold take. now rewrite length_map, zrange_length. Qed.

Lemma take_In {A : Type} (m : array A) (n : Z) (c : A) :
  In c (take m n) <-> exists x, 0 <= x < n /\ c = m x.
Proof.
  unfold take. rewrite in_map_iff. split.
  - intros (x & Hx & Hin). apply in_zrange in Hin. exists x. auto.
  - intros (x & Hx & ->). exists x. split; [reflexivity|]. apply in_zrange. exact Hx.
Qed.

(** [qsort] permutes the first [n] cells and leaves the others. *)
Lemma qsort_inside {A : Type} (cmp : A -> A -> Z) (m : array A) (n x : Z) :
  0 <= x < n -> exists y, 0 <= y < n /\ qsort cmp m n x = m y.
Proof.
  intros Hx. unfold qsort, of_list.
  rewrite sort_length, take_length.
  replace ((0 <=? x) && (x <? Z.of_nat (Z.to_nat n))) with true by (symmetry; zbool).
  apply take_In. apply (sort_In cmp). apply nth_In.
  rewrite sort_length, take_length. lia.
Qed.

Lemma qsort_outside {A : Type} (cmp : A -> A -> Z) (m : array A) (n x : Z) :
  x < 0 \/ n <= x -> qsort cmp m n x = m x.
Proof.
  intros Hx. unfold qsort, of_list.
  rewrite sort_length, take_length.
  replace ((0 <=? x) && (x <? Z.of_nat (Z.to_nat n))) with false by (symmetry; zbool).
  reflexivity.
Qed.

(** ** The statistic of the rank-sum test *)

Lemma sum_upto_plus (n : nat) (f g : Z -> Q) :
  (sum_upto n (fun i => f i + g i) == sum_upto n f + sum_upto n g)%Q.
Proof.
  induction n as [|n IH]; simpl; [reflexivity|]. rewrite IH. ring.
Qed.

Lemma sum_upto_half (n : nat) (f : Z -> Q) :
  (forall k, 0 <= k < Z.of_nat n -> exists z, (f k == inject_Z z / 2)%Q) ->
  exists z, (sum_upto n f == inject_Z z / 2)%Q.
Proof.
  induction n as [|n IH]; intros H; cbn [sum_upto].
  - exists 0. reflexivity.
  - destruct IH as (a & Ha); [intros k Hk; apply H; lia|].
    destruct (H (Z.of_nat n)) as (b & Hb); [lia|].
    exists (a + b). rewrite Ha, Hb, inject_Z_plus. field.
Qed.

(** In a pool whose cells are labelled [a] or [b], the two rank sums
    add up to the sum of all ranks. *)
Lemma sum_of_ranks_split (d : array D) (a b N : Z) :
  a <> b ->
  (forall x, 0 <= x < N -> label (d x) = a \/ label (d x) = b) ->
  (sum_of_ranks d a N + sum_of_ranks d b N
   == RankAssigner.sum_ranks rank d N)%Q.
Proof.
  intros Hab Hlab. unfold sum_of_ranks, RankAssigner.sum_ranks.
  rewrite <- sum_upto_plus. apply sum_upto_ext. intros k Hk.
  destruct (Hlab k) as [Hl | Hl]; [lia | |]; rewrite Hl.
  - rewrite Z.eqb_refl. replace (a =? b) with false by (symmetry; zbool). ring.
  - rewrite Z.eqb_refl. replace (b =? a) with false by (symmetry; zbool). ring.
Qed.

Lemma sum_of_ranks_half (d : array D) (a N : Z) :
  (forall x, 0 <= x < N -> exists z, (rank (d x) == inject_Z z / 2)%Q) ->
  exists z, (sum_of_ranks d a N == inject_Z z / 2)%Q.
Proof.
  intros H. unfold sum_of_ranks. apply sum_upto_half. intros k Hk.
  destruct (label (d k) =? a).
  - apply H. lia.
  - exists 0. reflexivity.
Qed.

Lemma equal_means_cross (Ra Rb : Q) (n m : Z) :
  0 < n -> 0 < m ->
  (Ra / inject_Z n == Rb / inject_Z m)%Q ->
  (Ra * inject_Z m == Rb * inject_Z n)%Q.
Proof.
  intros Hn Hm H.
  assert (Hn' : ~ (inject_Z n == 0)%Q) by (unfold Qeq; simpl; lia).
  assert (Hm' : ~ (inject_Z m == 0)%Q) by (unfold Qeq; simpl; lia).
  transitivity (Ra / inject_Z n * (inject_Z n * inject_Z m))%Q.
  - field. exact Hn'.
  - rewrite H. field. exact Hm'.
Qed.

(** The early return of [corrected_Tvalue]: when the numerator is zero
    the result is the literal 0, whatever [sqrt] is. *)
Lemma corrected_Tvalue_zero_numerator {E : Extern} (d : array D)
    (n m N idx : Z) :
  0 <= n <= N -> N <= PAIR_LIMIT ->
  (sum_of_ranks d idx N - inject_Z (n * (N + 1)) / 2 == 0)%Q ->
  MannWhitney.corrected_Tvalue d n m N idx = 0%Q.
Proof.
  intros Hn HN Hzero. unfold MannWhitney.corrected_Tvalue. cbv zeta.
  unfold PAIR_LIMIT in HN.
  rewrite (wrap_small (N + 1)) by (unfold in_int, INT_MIN, INT_MAX; lia).
  rewrite (wrap_small (n * (N + 1))) by (unfold in_int, INT_MIN, INT_MAX; nia).
  apply Qeq_bool_iff in Hzero. rewrite Hzero. reflexivity.
Qed.

(** The degenerate case on pools of at most [PAIR_LIMIT]
    observations.  For every pair of samples [j <> k] tested by
    mann-whit.cc, with sizes [n] and [m] and the pool of [N = n + m]
    observations ranked by [assign_ranks]: if the mean ranks [Ra / n]
    and [Rb / m] are equal, the numerator [Ra - n (N + 1) / 2] is zero;
    and if the numerator is zero, [corrected_Tvalue] returns exactly 0,
    by its early return and so for every [sqrt], without the division
    by the square root of the denominator. *)
Lemma corrected_Tvalue_equal_means {E : Extern} (d : array D)
    (Nsamp : array Z) (j k : Z) (pr : array D) :
  j <> k -> 0 < Nsamp j -> 0 < Nsamp k -> Nsamp j + Nsamp k <= PAIR_LIMIT ->
  let n := Nsamp j in
  let m := Nsamp k in
  let N := n + m in
  let pool :=
    qsort compare
      (MannWhitney.copy_sample d (MannWhitney.start_of Nsamp k) m n k
         (MannWhitney.copy_sample d (MannWhitney.start_of Nsamp j) n 0 j pr))
      N in
  exists ranked t,
    MannWhitney.assign_ranks pool N = Some (ranked, t) /\
    let Ra := sum_of_ranks ranked j N in
    let Rb := sum_of_ranks ranked k N in
    ((Ra / inject_Z n == Rb / inject_Z m)%Q ->
     (Ra - inject_Z (n * (N + 1)) / 2 == 0)%Q) /\
    ((Ra - inject_Z (n * (N + 1)) / 2 == 0)%Q ->
     MannWhitney.corrected_Tvalue ranked n m N j = 0%Q).
Proof.
  intros Hjk Hn Hm HN n m N pool.
  assert (HN' : 1 <= N <= RANK_LIMIT)
    by (unfold N, n, m, PAIR_LIMIT, RANK_LIMIT in *; lia).
  destruct (assign_ranks_facts D_same_value rank D_set_rank
              (fun c q => eq_refl) pool N HN')
    as (ranked & t & Hrun & Hframe & Hhalf & Hsum).
  exists ranked, t. split; [exact Hrun|]. cbv zeta. split.
  2:{ apply corrected_Tvalue_zero_numerator; [unfold N, n, m; lia | exact HN]. }
  intros Hmeans.
  assert (Hlab : forall x, 0 <= x < N ->
                   label (ranked x) = j \/ label (ranked x) = k).
  { intros x Hx.
    assert (Hl : label (ranked x) = label (pool x)).
    { destruct (Hframe x) as [-> | (r & ->)]; reflexivity. }
    rewrite Hl. unfold pool.
    destruct (qsort_inside compare
                (MannWhitney.copy_sample d (MannWhitney.start_of Nsamp k) m n k
                   (MannWhitney.copy_sample d (MannWhitney.start_of Nsamp j)
                      n 0 j pr)) N x Hx) as (y & Hy & ->).
    rewrite copy_sample_spec by (unfold m; lia).
    destruct ((n <=? y) && (y <? n + m)) eqn:Hy2; [right; reflexivity|].
    rewrite copy_sample_spec by (unfold n; lia).
    replace ((0 <=? y) && (y <? 0 + n)) with true; [left; reflexivity|].
    symmetry. apply andb_false_iff in Hy2.
    destruct Hy2 as [Hy2 | Hy2];
      [apply Z.leb_gt in Hy2 | apply Z.ltb_ge in Hy2; unfold N in Hy]; zbool. }
  pose proof (sum_of_ranks_split ranked j k N Hjk Hlab) as Hsplit.
  assert (Hhalf' : forall x, 0 <= x < N ->
                     exists z, (rank (ranked x) == inject_Z z / 2)%Q).
  { intros x Hx. destruct (Hhalf x Hx) as (z & _ & Hz). exists z. exact Hz. }
  destruct (sum_of_ranks_half ranked j N Hhalf') as (A & HA).
  destruct (sum_of_ranks_half ranked k N Hhalf') as (B & HB).
  pose proof (equal_means_cross _ _ n m Hn Hm Hmeans) as Hcross.
  rewrite HA, HB in Hcross.
  assert (HAB : A * m = B * n).
  { apply inject_Z_injective. rewrite !inject_Z_mult.
    transitivity (2 * (inject_Z A / 2 * inject_Z m))%Q; [field|].
    rewrite Hcross. field. }
  assert (Htot : A + B = N * (N + 1) \/ A + B = N * (N + 1) + 1).
  { rewrite HA, HB in Hsplit.
    destruct Hsum as [Hs | (_ & Hs)]; rewrite Hs in Hsplit; [left | right];
      apply inject_Z_injective; rewrite !inject_Z_plus;
      try change (inject_Z 1) with 1%Q;
      (transitivity (2 * (inject_Z A / 2 + inject_Z B / 2))%Q; [field|]);
      rewrite Hsplit; field. }
  assert (HA' : A = n * (N + 1)).
  { assert (HAN : A * N = n * (A + B)).
    { unfold N. rewrite Z.mul_add_distr_l, HAB. ring. }
    assert (HnN : 0 < n < N) by (unfold N, n, m; lia).
    clearbody N n m. clear - HAN Htot HnN.
    destruct Htot as [Ht | Ht]; rewrite Ht in HAN.
    - apply (Z.mul_reg_r _ _ N); [lia|]. rewrite HAN. ring.
    - exfalso.
      assert (Hdiv : N * (A - n * (N + 1)) = n).
      { transitivity (A * N - n * (N * (N + 1))); [ring|]. rewrite HAN. ring. }
      revert Hdiv. generalize (A - n * (N + 1)). intros q Hq.
      destruct (Z_lt_le_dec 0 q); nia. }
  rewrite HA, HA'. field.
Qed.

Lemma corrected_Tvalue_equal_means_witness :
  let lines := blocks [[1; 4]; [2; 3]]%Q in
  let d := snd (read_file lines zeroD) in
  let Nsamp := of_list [2; 2] (fun _ => 0) in
  let pool :=
    qsort compare
      (MannWhitney.copy_sample d 2 2 2 1
         (MannWhitney.copy_sample d 0 2 0 0 zeroD)) 4 in
  0 <> 1 /\ 0 < Nsamp 0 /\ 0 < Nsamp 1 /\ Nsamp 0 + Nsamp 1 <= PAIR_LIMIT /\
  exists ranked t,
    MannWhitney.assign_ranks pool 4 = Some (ranked, t) /\
    (sum_of_ranks ranked 0 4 / inject_Z 2
     == sum_of_ranks ranked 1 4 / inject_Z 2)%Q /\
    MannWhitney.corrected_Tvalue (E := toy_extern) ranked 2 2 4 0 = 0%Q.
Proof.
  cbv zeta.
  split; [discriminate|]. split; [reflexivity|]. split; [reflexivity|].
  split; [discriminate|].
  destruct (corrected_Tvalue_equal_means (E := toy_extern)
              (snd (read_file (blocks [[1; 4]; [2; 3]]%Q) zeroD))
              (of_list [2; 2] (fun _ => 0)) 0 1 zeroD)
    as (ranked & t & Hrun & Hmeans & Hzero);
    [discriminate | reflexivity | reflexivity | discriminate |].
  exists ranked, t.
  assert (Heq : (sum_of_ranks ranked 0 4 / inject_Z 2
                 == sum_of_ranks ranked 1 4 / inject_Z 2)%Q).
  { vm_compute in Hrun. injection Hrun as <- <-. vm_compute. reflexivity. }
  split; [exact Hrun|]. split; [exact Heq|].
  apply Hzero. apply Hmeans. exact Heq.
Defined.

(** ** The scan on the cells of the three tools *)

Lemma Qeq_bool_comm (x y : Q) : Qeq_bool x y = Qeq_bool y x.
Proof.
  destruct (Qeq_bool x y) eqn:E1, (Qeq_bool y x) eqn:E2; try reflexivity.
  - apply Qeq_bool_iff in E1. symmetry in E1. apply Qeq_bool_iff in E1. congruence.
  - apply Qeq_bool_iff in E2. symmetry in E2. apply Qeq_bool_iff in E2. congruence.
Qed.

Lemma Qeq_bool_transitive (x y z : Q) :
  Qeq_bool x y = true -> Qeq_bool y z = true -> Qeq_bool x z = true.
Proof.
  rewrite !Qeq_bool_iff. intros H1 H2. rewrite H1. exact H2.
Qed.

(** kruskal-wallis.cc and mann-whit.cc: on a pool whose last value is
    not the value of the cell after it, every maximal run of equal
    values gets the mean of its natural ranks, the runs cover the pool,
    the count returned is the number of observations equal to the one
    before them, and the ranks add up to [N (N + 1) / 2]. *)
Lemma assign_ranks_D_correct (d : array D) (N : Z) :
  1 <= N <= RANK_LIMIT ->
  D_same_value (d N) (d (N - 1)) = false ->
  exists d' t,
    Kruskal.assign_ranks d N = Some (d', t) /\
    MannWhitney.assign_ranks d N = Some (d', t) /\
    (forall s c, is_run D_same_value d N s c ->
       forall k, 0 <= k <= c ->
         (rank (d' (s + k)%Z) == mean_rank (s + 1)%Z c)%Q) /\
    (forall x, 0 <= x < N ->
       exists s c, is_run D_same_value d N s c /\ s <= x <= s + c) /\
    t = tied_count D_same_value d N /\
    (RankAssigner.sum_ranks rank d' N == inject_Z (N * (N + 1)) / 2)%Q.
Proof.
  intros HN Hpast.
  destruct (assign_ranks_runs D_same_value rank D_set_rank
              (fun c q => eq_refl)
              (fun a b => Qeq_bool_comm (value a) (value b))
              (fun a b c => Qeq_bool_transitive (value a) (value b) (value c))
              d N HN Hpast) as (d' & t & Hrun & Hranks & Hcover & Ht).
  destruct (assign_ranks_sum D_same_value rank D_set_rank
              (fun c q => eq_refl) d N HN Hpast) as (d'' & t' & Hrun' & Hsum).
  assert (Heq : Some (d', t) = Some (d'', t')) by congruence.
  injection Heq as <- <-.
  exists d', t. repeat split; assumption.
Qed.

(** ** The signed ranks of a Wilcoxon pair *)

Lemma differences_spec (d : array D) (Nsamp0 a b : Z) (p : array Wilcoxon.P) :
  0 <= Nsamp0 ->
  let r := Wilcoxon.differences d Nsamp0 a b p in
  0 <= snd r <= Nsamp0 /\
  forall x,
    (0 <= x < Nsamp0 -> ~ (Wilcoxon.diff (fst r x) == 0)%Q) /\
    (x < 0 \/ Nsamp0 <= x -> fst r x = p x).
Proof.
  intros Hn. cbv zeta. unfold Wilcoxon.differences.
  set (ob := Nsamp0 * b). set (oa := Nsamp0 * a). clearbody ob oa.
  pattern Nsamp0. apply natlike_ind; [| |exact Hn].
  - cbn [zrange Z.to_nat seq map fold_left fst snd]. split; [lia|].
    intros x. split; [lia | reflexivity].
  - clear Nsamp0 Hn. intros n Hn IH. unfold Z.succ.
    rewrite zrange_succ, fold_left_app by exact Hn. cbn [fold_left].
    destruct (fold_left _ (zrange n) (p, 0)) as (p1, ties).
    cbn [fst snd] in IH. destruct IH as (Hties & IH).
    destruct (Qeq_bool (round_double (value (d (ob + n)) - value (d (oa + n))))
                       0) eqn:E;
      cbn [fst snd]; (split; [lia|]); intros x; unfold upd; split.
    + intros Hx. destruct (Z.eqb_spec x n) as [-> | Hne].
      * cbn [Wilcoxon.diff]. unfold Wilcoxon.dropped. discriminate.
      * apply IH. lia.
    + intros Hx. destruct (Z.eqb_spec x n) as [-> | Hne]; [lia|].
      apply IH. lia.
    + intros Hx. destruct (Z.eqb_spec x n) as [-> | Hne].
      * cbn [Wilcoxon.diff]. intros H0. apply Qeq_bool_iff in H0. congruence.
      * apply IH. lia.
    + intros Hx. destruct (Z.eqb_spec x n) as [-> | Hne]; [lia|].
      apply IH. lia.
Qed.

Lemma sign_ranks_spec (p : array Wilcoxon.P) (n x : Z) :
  0 <= n ->
  Wilcoxon.sign_ranks p n x
  = if (0 <=? x) && (x <? n)
    then Wilcoxon.mkP (Wilcoxon.diff (p x)) (Wilcoxon.rank (p x))
           (if Qlt_bool (Wilcoxon.diff (p x)) 0
            then (- Wilcoxon.rank (p x))%Q else Wilcoxon.rank (p x))
    else p x.
Proof.
  intros Hn. revert x. pattern n. apply natlike_ind; [| |exact Hn].
  - intros x. unfold Wilcoxon.sign_ranks.
    cbn [zrange Z.to_nat seq map fold_left]. zbool.
  - clear n Hn. intros n Hn IH x. unfold Wilcoxon.sign_ranks in *.
    unfold Z.succ. rewrite zrange_succ, fold_left_app by exact Hn.
    cbn [fold_left]. rewrite !IH.
    replace ((0 <=? n) && (n <? n)) with false by (symmetry; zbool).
    destruct (Qlt_bool (Wilcoxon.diff (p n)) 0) eqn:E; unfold upd; rewrite IH;
      zbool; subst x; rewrite ?E; reflexivity.
Qed.

(** C9, on the pairs the code ranks correctly.  When the [n >= 1]
    nonzero differences of a pair are ranked and the cell after them is
    not tied to the largest one, [Tplus + Tminus = n (n + 1) / 2]. *)
Lemma wilcoxon_signed_rank_sum (d : array D) (Nsamp0 a b : Z)
    (p0 : array Wilcoxon.P) :
  0 <= Nsamp0 ->
  let r := Wilcoxon.differences d Nsamp0 a b p0 in
  let sorted := qsort Wilcoxon.comparediff (fst r) Nsamp0 in
  let n := Nsamp0 - snd r in
  1 <= n <= RANK_LIMIT ->
  Wilcoxon.P_same_abs (sorted n) (sorted (n - 1)) = false ->
  exists p,
    Wilcoxon.rank_differences d Nsamp0 a b p0 = Some (p, snd r, n) /\
    (Wilcoxon.Tplus p n + Tminus p n == inject_Z (n * (n + 1)) / 2)%Q.
Proof.
  intros HN0 r sorted n Hn Hpast.
  destruct (differences_spec d Nsamp0 a b p0 HN0) as (Hties & Hdiff).
  fold r in Hties, Hdiff.
  destruct (assign_ranks_facts Wilcoxon.P_same_abs Wilcoxon.rank
              Wilcoxon.P_set_rank (fun c q => eq_refl) sorted n Hn)
    as (p3 & t & Hrun & Hframe & Hhalf & Hsum).
  destruct Hsum as [Hsum | (Htie & _)]; [|congruence].
  exists (Wilcoxon.sign_ranks p3 n). split.
  - unfold Wilcoxon.rank_differences. fold r.
    destruct r as (p1, ties) eqn:Er. cbn [fst snd] in *.
    fold sorted. fold n. unfold Wilcoxon.assign_ranks. rewrite Hrun. reflexivity.
  - rewrite <- Hsum. unfold Wilcoxon.Tplus, Tminus, RankAssigner.sum_ranks.
    rewrite <- sum_upto_plus. apply sum_upto_ext. intros k Hk.
    rewrite !sign_ranks_spec by lia.
    replace ((0 <=? k) && (k <? n)) with true by (symmetry; zbool).
    cbn [Wilcoxon.diff Wilcoxon.sigrank].
    assert (Hd : Wilcoxon.diff (p3 k) = Wilcoxon.diff (sorted k)).
    { destruct (Hframe k) as [-> | (q & ->)]; reflexivity. }
    assert (Hnz : ~ (Wilcoxon.diff (p3 k) == 0)%Q).
    { rewrite Hd. unfold sorted.
      destruct (qsort_inside Wilcoxon.comparediff (fst r) Nsamp0 k)
        as (y & Hy & ->); [unfold n in *; lia|].
      apply Hdiff. exact Hy. }
    destruct (Hhalf k) as (z & Hz & Hrank); [lia|].
    assert (Hpos : (0 < Wilcoxon.rank (p3 k))%Q).
    { rewrite Hrank. unfold Qlt, Qdiv, Qmult, Qinv, inject_Z. simpl. lia. }
    destruct (Qlt_bool (Wilcoxon.diff (p3 k)) 0) eqn:E.
    + apply Qlt_bool_iff in E.
      replace (Qlt_bool 0 (Wilcoxon.diff (p3 k))) with false.
      2:{ symmetry. apply Qlt_bool_false. apply Qlt_le_weak. exact E. }
      replace (Qlt_bool (- Wilcoxon.rank (p3 k)) 0) with true.
      2:{ symmetry. apply Qlt_bool_iff. lra. }
      rewrite Qabs_neg by lra. ring.
    + apply Qlt_bool_false in E.
      replace (Qlt_bool 0 (Wilcoxon.diff (p3 k))) with true.
      2:{ symmetry. apply Qlt_bool_iff. apply Qle_lt_or_eq in E.
          destruct E as [E | E]; [exact E|]. symmetry in E. contradiction. }
      replace (Qlt_bool (Wilcoxon.rank (p3 k)) 0) with false.
      2:{ symmetry. apply Qlt_bool_false. lra. }
      ring.
Qed.

(** ** The labels of the loader *)

Lemma take_succ {A : Type} (m : array A) (n : Z) :
  0 <= n -> take m (n + 1) = take m n ++ [m n].
Proof. intros Hn. unfold take. now rewrite zrange_succ, map_app. Qed.

Lemma take_ext {A : Type} (m m' : array A) (n : Z) :
  (forall x, 0 <= x < n -> m x = m' x) -> take m n = take m' n.
Proof.
  intros H. unfold take. apply map_ext_in. intros x Hx.
  apply H. apply in_zrange. exact Hx.
Qed.

Lemma read_lines_labels (lines : list (option Q)) (cl np : Z) (d : array D) :
  0 <= np ->
  let r := fold_left read_line lines (cl, np, d) in
  map label (take (snd r) (snd (fst r)))
  = map label (take d np) ++ line_labels lines cl /\
  forall x, x < np -> snd r x = d x.
Proof.
  revert cl np d. induction lines as [|[v|] l IH]; intros cl np d Hnp;
    cbn [fold_left read_line line_labels].
  - cbn [fst snd]. rewrite app_nil_r. split; reflexivity.
  - destruct (IH cl (np + 1) (upd d np (mkD v cl (rank (d np)))) ltac:(lia))
      as (Hl & Hkeep).
    cbv zeta in *. split.
    + rewrite Hl, take_succ, map_app by exact Hnp. cbn [map].
      rewrite upd_same. cbn [label]. rewrite <- app_assoc. cbn [app].
      f_equal. f_equal. apply take_ext. intros x Hx. apply upd_other. lia.
    + intros x Hx. rewrite Hkeep by lia. apply upd_other. lia.
  - apply IH. exact Hnp.
Qed.

(** [read_file] stores, for the numeric lines in their order, the
    number of lines before them that are not numbers. *)
Lemma read_file_labels (lines : list (option Q)) (d : array D) :
  map label (take (snd (read_file lines d)) (fst (read_file lines d)))
  = line_labels lines 0.
Proof.
  unfold read_file.
  pose proof (read_lines_labels lines 0 0 d ltac:(lia)) as (H & _).
  destruct (fold_left read_line lines (0, 0, d)) as ((cl, np), d').
  cbn [fst snd] in *. exact H.
Qed.



(** ** The cell after the pool *)

Lemma assign_ranks_D_past_tie (d : array D) (N : Z) :
  1 <= N <= RANK_LIMIT ->
  D_same_value (d N) (d (N - 1)) = true ->
  (N = 1 \/ D_same_value (d (N - 1)) (d (N - 2)) = false) ->
  exists d' t,
    Kruskal.assign_ranks d N = Some (d', t) /\
    MannWhitney.assign_ranks d N = Some (d', t) /\
    (forall s c, is_run D_same_value d (N - 1) s c ->
       forall k, 0 <= k <= c ->
         (rank (d' (s + k)%Z) == mean_rank (s + 1)%Z c)%Q) /\
    (rank (d' (N - 1)%Z) == inject_Z N + (1 # 2))%Q /\
    (RankAssigner.sum_ranks rank d' N
     == inject_Z (N * (N + 1)) / 2 + (1 # 2))%Q /\
    t = tied_count D_same_value d N + 1 /\
    (forall x, d' x = d x \/ exists q, d' x = D_set_rank (d x) q).
Proof.
  intros HN Hpast Hlast.
  destruct (assign_ranks_past_tie D_same_value rank D_set_rank
              (fun c q => eq_refl)
              (fun a b => Qeq_bool_comm (value a) (value b))
              (fun a b c => Qeq_bool_transitive (value a) (value b) (value c))
              d N HN Hpast Hlast) as (d' & t & Hrun & H).
  exists d', t. split; [exact Hrun|]. split; [exact Hrun | exact H].
Qed.

(** C1 (what the code does at a failing input, whatever the memory
    further on holds).  On the sorted pool 1, 4, 5, in which no two
    keys are equal, followed in memory by a cell of value 5,
    [assign_ranks] with [N = 3] takes the last observation and the cell
    after the pool for a run of two: the ranks are 1, 2 and 7/2 and
    their sum is 13/2, not [3 * 4 / 2 = 6]. *)
Theorem assign_ranks_sum_past_pool (past : array D) :
  let d := of_list [mkD 1 0 0; mkD 4 2 0; mkD 5 2 0; mkD 5 1 (9 # 2)]%Q past in
  exists d' t,
    Kruskal.assign_ranks d 3 = Some (d', t) /\
    tied_count D_same_value d 3 = 0 /\
    (rank (d' 0%Z) == 1)%Q /\ (rank (d' 1%Z) == 2)%Q /\
    (rank (d' 2%Z) == 7 # 2)%Q /\
    (RankAssigner.sum_ranks rank d' 3 == 13 # 2)%Q /\
    ~ (RankAssigner.sum_ranks rank d' 3 == inject_Z (3 * (3 + 1)) / 2)%Q.
Proof.
  intros d.
  assert (H10 : D_same_value (d 1) (d 0) = false) by reflexivity.
  assert (H21 : D_same_value (d (3 - 1)) (d (3 - 2)) = false) by reflexivity.
  destruct (assign_ranks_D_past_tie d 3)
    as (d' & t & Hrun & _ & Hruns & Hr2 & Hsum & _ & _);
    [split; vm_compute; discriminate | reflexivity | right; exact H21 |].
  exists d', t.
  split; [exact Hrun|].
  split; [reflexivity|].
  split.
  { assert (Hrun0 : is_run D_same_value d (3 - 1) 0 0).
    { unfold is_run. repeat split; try lia. right. exact H10. }
    exact (Hruns 0 0 Hrun0 0 ltac:(lia)). }
  split.
  { assert (Hrun1 : is_run D_same_value d (3 - 1) 1 0).
    { unfold is_run. repeat split; try lia. right. exact H10. }
    exact (Hruns 1 0 Hrun1 0 ltac:(lia)). }
  split; [rewrite Hr2; reflexivity|].
  split; [rewrite Hsum; reflexivity|].
  rewrite Hsum. vm_compute. discriminate.
Qed.

(** C2 (what the code does at a failing input, whatever [malloc]
    returned and whatever the external functions are).  mann-whit.cc on
    [three_samples]: after the test of sample 2 against sample 3 the
    cell [pair[3]] holds the value 5; the next test, of sample 3
    against sample 1, ranks the pool 1, 4, 5 before that cell.  The
    observation 5, a maximal run of one at natural rank 3, gets the
    rank 7/2 instead of 3, [assign_ranks] returns 1 although no
    observation is tied, and the rank sum of sample 3 is 11/2 instead
    of 5. *)
Theorem mann_whitney_stale_cell {E : Extern} (heap_d pr : array D)
    (out : string) :
  let d := snd (read_file three_samples heap_d) in
  let Nsamp := of_list [1; 3; 2] (fun _ => 0) in
  exists s4 s5 pool t,
    MannWhitney.test d Nsamp (pr, out) (1, 2) = Done s4 /\
    MannWhitney.test d Nsamp s4 (2, 0) = Done s5 /\
    (Qeq_bool (value (fst s4 3)) 5 = true) /\
    pool = qsort compare
             (MannWhitney.copy_sample d 0 1 2 0
                (MannWhitney.copy_sample d 4 2 0 2 (fst s4))) 3 /\
    MannWhitney.assign_ranks pool 3 = Some (fst s5, t) /\
    map (fun c => (Qred (value c), label c)) (take pool 3)
      = [(1%Q, 0); (4%Q, 2); (5%Q, 2)] /\
    is_run D_same_value pool 3 2 0 /\
    (rank (fst s5 0%Z) == 1)%Q /\ (rank (fst s5 1%Z) == 2)%Q /\
    (rank (fst s5 2%Z) == 7 # 2)%Q /\
    ~ (rank (fst s5 2%Z) == mean_rank (2 + 1) 0)%Q /\
    tied_count D_same_value pool 3 = 0 /\ t = 1 /\
    (sum_of_ranks (fst s5) 2%Z 3%Z == 11 # 2)%Q.
Proof.
  intros d Nsamp.
  set (pool12 :=
    qsort compare
      (MannWhitney.copy_sample d (MannWhitney.start_of Nsamp 2) (Nsamp 2)
         (Nsamp 1) 2
         (MannWhitney.copy_sample d (MannWhitney.start_of Nsamp 1) (Nsamp 1)
            0 1 pr))
      (Nsamp 1 + Nsamp 2)).
  destruct (assign_ranks_facts D_same_value rank D_set_rank
              (fun c q => eq_refl) pool12 (Nsamp 1 + Nsamp 2))
    as (p4 & t4 & Hrun4 & Hframe4 & _);
    [split; vm_compute; discriminate|].
  assert (Hval4 : forall x, value (p4 x) = value (pool12 x)).
  { intros x. destruct (Hframe4 x) as [-> | (q & ->)]; reflexivity. }
  set (pool20 :=
    qsort compare
      (MannWhitney.copy_sample d (MannWhitney.start_of Nsamp 0) (Nsamp 0)
         (Nsamp 2) 0
         (MannWhitney.copy_sample d (MannWhitney.start_of Nsamp 2) (Nsamp 2)
            0 2 p4))
      (Nsamp 2 + Nsamp 0)).
  assert (H3 : pool20 3 = p4 3) by (vm_compute; reflexivity).
  assert (Hcells : map (fun c => (Qred (value c), label c)) (take pool20 3)
                   = [(1%Q, 0); (4%Q, 2); (5%Q, 2)])
    by (vm_compute; reflexivity).
  assert (Hv2 : value (pool20 2) = 5%Q) by (vm_compute; reflexivity).
  assert (Hv12 : value (pool12 3) = 5%Q) by (vm_compute; reflexivity).
  assert (Hpast : D_same_value (pool20 3) (pool20 (3 - 1)) = true).
  { unfold D_same_value. change (3 - 1) with 2.
    rewrite H3, Hval4, Hv12, Hv2. reflexivity. }
  assert (Hlast : D_same_value (pool20 (3 - 1)) (pool20 (3 - 2)) = false)
    by (vm_compute; reflexivity).
  assert (H10 : D_same_value (pool20 1) (pool20 0) = false)
    by (vm_compute; reflexivity).
  destruct (assign_ranks_D_past_tie pool20 3)
    as (p5 & t5 & _ & Hrun5 & Hruns & Hr2 & _ & Ht5 & Hframe5);
    [split; vm_compute; discriminate | exact Hpast | right; exact Hlast |].
  assert (Hval5 : forall x, value (p5 x) = value (pool20 x)).
  { intros x. destruct (Hframe5 x) as [-> | (q & ->)]; reflexivity. }
  assert (Hlab5 : forall x, label (p5 x) = label (pool20 x)).
  { intros x. destruct (Hframe5 x) as [-> | (q & ->)]; reflexivity. }
  assert (Hr0 : (rank (p5 0%Z) == 1)%Q).
  { assert (Hrun0 : is_run D_same_value pool20 (3 - 1) 0 0).
    { unfold is_run. repeat split; try lia. right. exact H10. }
    exact (Hruns 0 0 Hrun0 0 ltac:(lia)). }
  assert (Hr1 : (rank (p5 1%Z) == 2)%Q).
  { assert (Hrun1 : is_run D_same_value pool20 (3 - 1) 1 0).
    { unfold is_run. repeat split; try lia. right. exact H10. }
    exact (Hruns 1 0 Hrun1 0 ltac:(lia)). }
  assert (Htied : tied_count D_same_value pool20 3 = 0)
    by (vm_compute; reflexivity).
  eexists (p4, _). eexists (p5, _). exists pool20, t5.
  split.
  { cbv beta iota zeta delta [MannWhitney.test]. fold pool12.
    unfold MannWhitney.assign_ranks. rewrite Hrun4. reflexivity. }
  split.
  { cbv beta iota zeta delta [MannWhitney.test]. fold pool20.
    change (Nsamp 2 + Nsamp 0) with 3. rewrite Hrun5. reflexivity. }
  cbn [fst]. split.
  { rewrite Hval4, Hv12. reflexivity. }
  split; [reflexivity|].
  split; [exact Hrun5|].
  split; [exact Hcells|].
  split.
  { unfold is_run. repeat split; try lia. right. exact Hlast. }
  split; [exact Hr0|]. split; [exact Hr1|]. split.
  { rewrite Hr2. reflexivity. }
  split.
  { rewrite Hr2. vm_compute. discriminate. }
  split; [exact Htied|].
  split; [rewrite Ht5, Htied; reflexivity|].
  unfold sum_of_ranks. change (Z.to_nat 3) with 3%nat.
  cbn [sum_upto Z.of_nat Pos.of_succ_nat Pos.succ].
  rewrite !Hlab5.
  replace (label (pool20 0)) with 0 by (vm_compute; reflexivity).
  replace (label (pool20 1)) with 2 by (vm_compute; reflexivity).
  replace (label (pool20 2)) with 2 by (vm_compute; reflexivity).
  cbn [Z.eqb Pos.eqb]. rewrite Hr1. change 2 with (3 - 1) at 1.
  rewrite Hr2. reflexivity.
Qed.

(** * Part IV: further properties of the tools *)

(** ** The blocks of a file *)

Lemma add_block_length (b : list Q) (bs : list (list Q)) :
  List.length (add_block b bs)
  = ((match b with [] => 0 | _ :: _ => 1 end) + List.length bs)%nat.
Proof. destruct b; reflexivity. Qed.

Lemma block_count_blocks (lines : list (option Q)) :
  block_count lines false
  = Z.of_nat (List.length (add_block (fst (parse_blocks lines))
                                     (snd (parse_blocks lines)))) /\
  block_count lines true = Z.of_nat (List.length (snd (parse_blocks lines))).
Proof.
  induction lines as [|[x|] l [IH1 IH2]]; cbn [block_count parse_blocks].
  - split; reflexivity.
  - destruct (parse_blocks l) as (b, bs). cbn [fst snd] in *.
    rewrite IH2. cbn [add_block List.length]. split; lia.
  - destruct (parse_blocks l) as (b, bs). cbn [fst snd] in *.
    rewrite IH1. cbn [add_block]. split; reflexivity.
Qed.

Lemma block_count_file_blocks (lines : list (option Q)) :
  block_count lines false = Z.of_nat (List.length (file_blocks lines)).
Proof.
  unfold file_blocks. pose proof (block_count_blocks lines) as [H _].
  destruct (parse_blocks lines) as (b, bs). exact H.
Qed.

Lemma numeric_lines_blocks (lines : list (option Q)) :
  numeric_lines lines
  = fst (parse_blocks lines) ++ List.concat (snd (parse_blocks lines)).
Proof.
  induction lines as [|[x|] l IH]; cbn [numeric_lines flat_map parse_blocks].
  - reflexivity.
  - fold (numeric_lines l). rewrite IH.
    destruct (parse_blocks l) as (b, bs). reflexivity.
  - fold (numeric_lines l). rewrite IH.
    destruct (parse_blocks l) as (b, bs). cbn [fst snd app].
    destruct b; reflexivity.
Qed.

Lemma concat_file_blocks (lines : list (option Q)) :
  List.concat (file_blocks lines) = numeric_lines lines.
Proof.
  rewrite numeric_lines_blocks. unfold file_blocks.
  destruct (parse_blocks lines) as (b, bs). cbn [fst snd].
  destruct b; reflexivity.
Qed.

Lemma numeric_count_lines (lines : list (option Q)) :
  numeric_count lines = Z.of_nat (List.length (numeric_lines lines)).
Proof.
  induction lines as [|[x|] l IH]; cbn [numeric_count numeric_lines flat_map].
  - reflexivity.
  - fold (numeric_lines l). cbn [app List.length]. lia.
  - fold (numeric_lines l). exact IH.
Qed.

Lemma file_blocks_nonempty (lines : list (option Q)) (b : list Q) :
  In b (file_blocks lines) -> b <> [].
Proof.
  assert (H : forall l, (forall b, In b (snd (parse_blocks l)) -> b <> [])).
  { induction l as [|[x|] l IH]; cbn [parse_blocks].
    - intros b' [].
    - destruct (parse_blocks l) as (b0, bs). exact IH.
    - destruct (parse_blocks l) as (b0, bs). cbn [fst snd] in *.
      intros b' Hb'. destruct b0; cbn [add_block] in Hb'.
      + apply IH. exact Hb'.
      + destruct Hb' as [<- | Hb']; [discriminate | apply IH; exact Hb']. }
  unfold file_blocks. specialize (H lines).
  destruct (parse_blocks lines) as (b0, bs). cbn [snd] in H.
  intros Hb. destruct b0; cbn [add_block] in Hb.
  - apply H. exact Hb.
  - destruct Hb as [<- | Hb]; [discriminate | apply H; exact Hb].
Qed.

(** ** The loader and the blocks *)

Lemma check_lines_blocks (lines : list (option Q)) (s c : counts) :
  new_run s = 0 \/ new_run s = 1 ->
  foldM check_line lines s = Done c ->
  let b := fst (parse_blocks lines) in
  let bs := snd (parse_blocks lines) in
  let bl := if new_run s =? 0 then bs else add_block b bs in
  no_runs c = no_runs s + Z.of_nat (List.length bl) /\
  forall j,
    Nsamp c j
    = Nsamp s j
      + (if (new_run s =? 0) && (j =? no_runs s - 1)
         then Z.of_nat (List.length b) else 0)
      + (if no_runs s <=? j
         then Z.of_nat (List.length (nth (Z.to_nat (j - no_runs s)) bl []))
         else 0).
Proof.
  revert s. induction lines as [|[x|] l IH]; intros s Hnew Hc;
    cbn [foldM parse_blocks] in *; cbv zeta.
  - injection Hc as <-. cbn [fst snd add_block].
    split.
    + destruct (new_run s =? 0); cbn [List.length]; lia.
    + intros j.
      assert (Hnth : forall k, nth k (@nil (list Q)) [] = []) by (intros [|k]; reflexivity).
      destruct (new_run s =? 0); rewrite Hnth; cbn [List.length];
        destruct (_ && _), (no_runs s <=? j); lia.
  - unfold check_line at 1 in Hc.
    set (runs := if new_run s =? 1 then no_runs s + 1 else no_runs s) in Hc.
    destruct (runs <=? MAX_DISTS) eqn:Hle; cbn [bind] in Hc; [|discriminate].
    match type of Hc with
    | foldM _ _ ?s1 = _ => pose proof (IH s1 (or_introl eq_refl) Hc) as IH'
    end. clear IH.
    rename IH' into IH.
    cbn [no_runs new_run Nsamp] in IH. change (0 =? 0) with true in IH.
    cbv zeta in IH. destruct IH as [IHr IHn].
    destruct (parse_blocks l) as (b', bs'). cbn [fst snd] in *.
    subst runs.
    destruct Hnew as [Hn | Hn]; rewrite Hn in IHr, IHn |- *;
      cbn [Z.eqb Pos.eqb andb add_block] in *.
    + split; [exact IHr|]. intros j. rewrite IHn. unfold upd.
      cbn [List.length]. destruct (Z.eqb_spec j (no_runs s - 1)) as [-> | Hj];
        lia.
    + split; [rewrite IHr; cbn [List.length]; lia|]. intros j.
      rewrite IHn. unfold upd.
      replace (no_runs s + 1 - 1) with (no_runs s) by lia.
      destruct (Z.eqb_spec j (no_runs s)) as [-> | Hj].
      * rewrite Z.sub_diag. cbn [Z.to_nat nth List.length].
        destruct (Z.leb_spec (no_runs s + 1) (no_runs s)); [lia|].
        rewrite Z.leb_refl. lia.
      * destruct (Z.leb_spec (no_runs s + 1) j), (Z.leb_spec (no_runs s) j);
          try lia.
        replace (Z.to_nat (j - no_runs s))
          with (Datatypes.S (Z.to_nat (j - (no_runs s + 1)))) by lia.
        cbn [nth]. lia.
  - unfold check_line at 1 in Hc. cbn [bind] in Hc.
    match type of Hc with
    | foldM _ _ ?s1 = _ => pose proof (IH s1 (or_intror eq_refl) Hc) as IH'
    end. clear IH.
    rename IH' into IH.
    cbn [no_runs new_run Nsamp] in IH. change (1 =? 0) with false in IH.
    cbv zeta in IH. cbn [andb] in IH. destruct IH as [IHr IHn].
    destruct (parse_blocks l) as (b', bs'). cbn [fst snd add_block] in *.
    assert (Hbl : (if new_run s =? 0 then add_block b' bs'
                   else add_block b' bs') = add_block b' bs')
      by (destruct (new_run s =? 0); reflexivity).
    rewrite Hbl. split; [exact IHr|]. intros j. rewrite IHn.
    cbn [List.length]. destruct (_ && _); lia.
Qed.

Lemma nth_nil_list (k : nat) : nth k (@nil (list Q)) [] = [].
Proof. destruct k; reflexivity. Qed.

Lemma check_file_sizes (lines : list (option Q)) (c : counts) :
  check_file lines = Done c ->
  no_runs c = Z.of_nat (List.length (file_blocks lines)) /\
  (forall j, 0 <= j -> Nsamp c j = block_size lines j) /\
  (forall j, j < 0 -> Nsamp c j = 0).
Proof.
  intros Hc. unfold check_file in Hc.
  pose proof (check_lines_blocks lines (mkCounts 0 0 1 (fun _ => 0)) c
                (or_intror eq_refl) Hc) as H.
  cbn [no_runs new_run Nsamp] in H. change (1 =? 0) with false in H.
  cbv zeta in H. cbn [andb] in H. destruct H as [Hr Hn].
  unfold block_size, file_blocks.
  destruct (parse_blocks lines) as (b, bs). cbn [fst snd] in *.
  split; [lia|]. split; intros j Hj; rewrite Hn.
  - destruct (Z.leb_spec 0 j); [|lia]. rewrite Z.sub_0_r. lia.
  - destruct (Z.leb_spec 0 j); lia.
Qed.

Lemma check_file_accepts (lines : list (option Q)) :
  let k := Z.of_nat (List.length (file_blocks lines)) in
  k <= MAX_DISTS ->
  exists c, check_file lines = Done c /\
    no_runs c = k /\
    total c = Z.of_nat (List.length (numeric_lines lines)) /\
    (forall j, 0 <= j < k -> Nsamp c j = block_size lines j /\ 1 <= Nsamp c j) /\
    (forall j, j < 0 \/ k <= j -> Nsamp c j = 0).
Proof.
  cbv zeta. rewrite <- block_count_file_blocks. intros Hle.
  destruct (check_file_spec lines) as [H1 _].
  destruct (H1 Hle) as (c & Hc & Hr & Ht). exists c.
  destruct (check_file_sizes lines c Hc) as (Hk & Hin & Hout).
  split; [exact Hc|]. split; [exact Hr|].
  split; [rewrite Ht; apply numeric_count_lines|].
  rewrite block_count_file_blocks. split.
  - intros j Hj. rewrite Hin by lia. split; [reflexivity|].
    unfold block_size.
    assert (Hin' : In (nth (Z.to_nat j) (file_blocks lines) [])
                      (file_blocks lines)) by (apply nth_In; lia).
    apply file_blocks_nonempty in Hin'.
    destruct (nth (Z.to_nat j) (file_blocks lines) []);
      [congruence | cbn [List.length]; lia].
  - intros j [Hj | Hj]; [apply Hout; exact Hj|].
    rewrite Hin by lia. unfold block_size.
    rewrite nth_overflow by lia. reflexivity.
Qed.

Lemma check_file_rejects (lines : list (option Q)) :
  MAX_DISTS < Z.of_nat (List.length (file_blocks lines)) ->
  check_file lines = Exit1 TooManyDistributions.
Proof.
  rewrite <- block_count_file_blocks. intros Hgt.
  destruct (check_file_spec lines) as [_ H2]. apply H2. exact Hgt.
Qed.

(** X1.  [check_file] accepts a file exactly when it has at most
    [MAX_DISTS = 30] blocks of consecutive numeric lines.  It then
    returns the number of blocks, the number of numeric lines and, in
    [Nsamp], the size of each block, the other entries staying zero;
    with more blocks it ends the run with the diagnostic about
    [MAX_DISTS] and exit code 1. *)
Theorem check_file_blocks (lines : list (option Q)) :
  let k := Z.of_nat (List.length (file_blocks lines)) in
  (k <= MAX_DISTS /\
   exists c, check_file lines = Done c /\
     no_runs c = k /\
     total c = Z.of_nat (List.length (numeric_lines lines)) /\
     (forall j, 0 <= j < k -> Nsamp c j = block_size lines j /\ 1 <= Nsamp c j) /\
     (forall j, j < 0 \/ k <= j -> Nsamp c j = 0))
  \/ (MAX_DISTS < k /\ check_file lines = Exit1 TooManyDistributions /\
      exit_code (check_file lines) = Some 1).
Proof.
  cbv zeta.
  destruct (Z_le_gt_dec (Z.of_nat (List.length (file_blocks lines))) MAX_DISTS)
    as [Hle | Hgt].
  - left. split; [exact Hle|]. apply check_file_accepts. exact Hle.
  - right. split; [lia|].
    rewrite check_file_rejects by lia. split; reflexivity.
Qed.

Lemma read_lines_values (lines : list (option Q)) (cl np : Z) (d : array D) :
  0 <= np ->
  let r := fold_left read_line lines (cl, np, d) in
  map value (take (snd r) (snd (fst r)))
  = map value (take d np) ++ numeric_lines lines /\
  (forall x, x < np \/ snd (fst r) <= x -> snd r x = d x) /\
  (forall x, rank (snd r x) = rank (d x)).
Proof.
  revert cl np d. induction lines as [|[v|] l IH]; intros cl np d Hnp;
    cbn [fold_left read_line numeric_lines flat_map].
  - cbn [fst snd]. rewrite app_nil_r. repeat split; reflexivity.
  - fold (numeric_lines l).
    pose proof (read_lines_count l cl (np + 1)
                  (upd d np (mkD v cl (rank (d np))))) as Hcount.
    pose proof (numeric_count_nonneg l) as Hnn.
    destruct (IH cl (np + 1) (upd d np (mkD v cl (rank (d np)))) ltac:(lia))
      as (Hl & Hkeep & Hrank).
    cbv zeta in *. split; [|split].
    + rewrite Hl, take_succ, map_app by exact Hnp. cbn [map].
      rewrite upd_same. cbn [value]. rewrite <- app_assoc. cbn [app].
      f_equal. f_equal. apply take_ext. intros x Hx. apply upd_other. lia.
    + intros x Hx. rewrite Hkeep by lia. apply upd_other. lia.
    + intros x. rewrite Hrank. unfold upd.
      destruct (Z.eqb_spec x np) as [-> | Hx]; reflexivity.
  - fold (numeric_lines l). apply IH. exact Hnp.
Qed.

Lemma take_nth {A : Type} (m : array A) (n x : Z) (dflt : A) :
  0 <= x < n -> nth (Z.to_nat x) (take m n) dflt = m x.
Proof.
  intros Hx. unfold take, zrange.
  rewrite nth_indep with (d' := m (Z.of_nat (Z.to_nat x)))
    by (rewrite !length_map, length_seq; lia).
  rewrite map_map.
  rewrite (map_nth (fun k => m (Z.of_nat k)) (seq 0 (Z.to_nat n))
             (Z.to_nat x) (Z.to_nat x)) at 1.
  rewrite seq_nth by lia. cbn [Nat.add]. f_equal. lia.
Qed.

Lemma read_file_cells (lines : list (option Q)) (d : array D) :
  let d' := snd (read_file lines d) in
  map value (take d' (numeric_count lines)) = numeric_lines lines /\
  (forall x, x < 0 \/ numeric_count lines <= x -> d' x = d x) /\
  (forall x, rank (d' x) = rank (d x)).
Proof.
  cbv zeta. pose proof (read_file_count lines d) as Hcount.
  unfold read_file in *.
  pose proof (read_lines_values lines 0 0 d ltac:(lia)) as (Hv & Hkeep & Hrank).
  destruct (fold_left read_line lines (0, 0, d)) as ((cl, np), d').
  cbn [fst snd] in *. subst np.
  split; [exact Hv|]. split; [exact Hkeep | exact Hrank].
Qed.

(** X2.  [read_file] returns the number of numeric lines and stores
    their values, in the order of the file, in the cells [0] to [N-1]
    of [d]; it writes no other cell and no [rank] field.  The count is
    the one [check_file] returns for the same file, so the [N] cells
    that [main] allocates between the two passes are the cells
    written. *)
Theorem read_file_values (lines : list (option Q)) (d : array D) :
  let N := fst (read_file lines d) in
  let d' := snd (read_file lines d) in
  N = Z.of_nat (List.length (numeric_lines lines)) /\
  map value (take d' N) = numeric_lines lines /\
  (forall x, x < 0 \/ N <= x -> d' x = d x) /\
  (forall x, rank (d' x) = rank (d x)) /\
  (forall c, check_file lines = Done c -> total c = N).
Proof.
  cbv zeta. rewrite read_file_count.
  destruct (read_file_cells lines d) as (Hv & Hkeep & Hrank).
  split; [apply numeric_count_lines|].
  split; [exact Hv|]. split; [exact Hkeep|]. split; [exact Hrank|].
  intros c Hc. destruct (check_file_done lines c Hc) as (_ & _ & Ht).
  exact Ht.
Qed.

Lemma read_file_value_nth (lines : list (option Q)) (heap : array D) (x : Z) :
  0 <= x < numeric_count lines ->
  value (snd (read_file lines heap) x)
  = nth (Z.to_nat x) (numeric_lines lines) 0%Q.
Proof.
  intros Hx. destruct (read_file_cells lines heap) as (Hv & _).
  cbv zeta in *. rewrite <- Hv.
  change 0%Q with (value (mkD 0 0 0)).
  rewrite (map_nth value), take_nth by lia. reflexivity.
Qed.

Lemma nth_concat (bs : list (list Q)) (j i : nat) :
  (j < List.length bs)%nat -> (i < List.length (nth j bs []))%nat ->
  nth (List.length (List.concat (firstn j bs)) + i) (List.concat bs) 0%Q
  = nth i (nth j bs []) 0%Q /\
  (List.length (List.concat (firstn j bs)) + i
   < List.length (List.concat bs))%nat.
Proof.
  revert j. induction bs as [|b bs IH]; intros j Hj Hi; cbn [List.length] in Hj.
  - lia.
  - destruct j as [|j]; cbn [firstn List.concat nth] in *.
    + cbn [List.length Nat.add]. rewrite length_app. split.
      * apply app_nth1. exact Hi.
      * lia.
    + rewrite !length_app. destruct (IH j ltac:(lia) Hi) as (IH1 & IH2).
      split; [|lia].
      rewrite <- Nat.add_assoc, app_nth2_plus. exact IH1.
Qed.

Lemma firstn_succ_nth (bs : list (list Q)) (j : nat) :
  (j < List.length bs)%nat ->
  firstn (Datatypes.S j) bs = firstn j bs ++ [nth j bs []].
Proof.
  revert j. induction bs as [|b bs IH]; intros j Hj; cbn [List.length] in Hj.
  - lia.
  - destruct j as [|j]; [reflexivity|].
    rewrite firstn_cons, (firstn_cons j), IH by lia. reflexivity.
Qed.

Lemma start_of_blocks (lines : list (option Q)) (c : counts) (j : Z) :
  check_file lines = Done c -> 0 <= j <= no_runs c ->
  MannWhitney.start_of (Nsamp c) j
  = Z.of_nat (List.length (List.concat
                             (firstn (Z.to_nat j) (file_blocks lines)))).
Proof.
  intros Hc Hj. destruct (check_file_sizes lines c Hc) as (Hk & Hin & _).
  destruct Hj as [Hj0 Hjk]. revert Hjk. pattern j.
  apply natlike_ind; [| |exact Hj0].
  - intros _. reflexivity.
  - intros x Hx IH Hxk. unfold MannWhitney.start_of in *.
    unfold Z.succ. rewrite zrange_succ, fold_left_app by exact Hx. cbn [fold_left].
    rewrite IH by lia. rewrite Hin by exact Hx. unfold block_size.
    replace (Z.to_nat (x + 1)) with (Datatypes.S (Z.to_nat x)) by lia.
    rewrite firstn_succ_nth by lia.
    rewrite concat_app, length_app. cbn [List.concat].
    rewrite app_nil_r. lia.
Qed.

Lemma value_at_start (lines : list (option Q)) (heap : array D)
    (c : counts) (j i : Z) :
  check_file lines = Done c ->
  0 <= j < no_runs c -> 0 <= i < Nsamp c j ->
  let start := MannWhitney.start_of (Nsamp c) j in
  0 <= start + i < total c /\
  value (snd (read_file lines heap) (start + i)) = block_value lines j i.
Proof.
  intros Hc Hj Hi. cbv zeta.
  destruct (check_file_sizes lines c Hc) as (Hk & Hin & _).
  destruct (check_file_done lines c Hc) as (_ & _ & Ht).
  rewrite Ht, numeric_count_lines.
  rewrite (start_of_blocks lines c j Hc) by lia.
  rewrite Hin in Hi by lia. unfold block_size in Hi.
  destruct (nth_concat (file_blocks lines) (Z.to_nat j) (Z.to_nat i)
              ltac:(lia) ltac:(lia)) as (Hnth & Hlt).
  rewrite concat_file_blocks in Hnth, Hlt. split; [lia|].
  unfold block_value. rewrite <- Hnth.
  set (s := List.length (List.concat (firstn (Z.to_nat j) (file_blocks lines)))) in *.
  rewrite read_file_value_nth by (rewrite numeric_count_lines; lia).
  f_equal. lia.
Qed.

(** ** Files written block by block *)

Lemma parse_blocks_app (b : list Q) (rest : list (option Q)) :
  parse_blocks (map Some b ++ None :: rest)
  = (b, add_block (fst (parse_blocks rest)) (snd (parse_blocks rest))).
Proof.
  induction b as [|x b IH]; cbn [map app parse_blocks].
  - destruct (parse_blocks rest) as (b0, bs0). reflexivity.
  - rewrite IH. reflexivity.
Qed.

Lemma blocks_cons (b : list Q) (bs : list (list Q)) :
  blocks (b :: bs) = map Some b ++ None :: blocks bs.
Proof. unfold blocks. cbn [flat_map]. rewrite <- app_assoc. reflexivity. Qed.

Lemma file_blocks_blocks (bs : list (list Q)) :
  (forall b, In b bs -> b <> []) -> file_blocks (blocks bs) = bs.
Proof.
  induction bs as [|b bs IH]; intros Hne; [reflexivity|].
  rewrite blocks_cons. unfold file_blocks in *. rewrite parse_blocks_app.
  destruct (parse_blocks (blocks bs)) as (b0, bs0). cbn [fst snd].
  rewrite IH by (intros b' Hb'; apply Hne; right; exact Hb').
  destruct b; [exfalso; apply (Hne []); [left|]; reflexivity | reflexivity].
Qed.

Lemma numeric_lines_app (l1 l2 : list (option Q)) :
  numeric_lines (l1 ++ l2) = numeric_lines l1 ++ numeric_lines l2.
Proof. unfold numeric_lines. apply flat_map_app. Qed.

Lemma numeric_lines_Some (b : list Q) : numeric_lines (map Some b) = b.
Proof.
  induction b as [|x b IH]; [reflexivity|].
  cbn [map numeric_lines flat_map app]. fold (numeric_lines (map Some b)).
  rewrite IH. reflexivity.
Qed.

Lemma numeric_lines_of_blocks (bs : list (list Q)) :
  numeric_lines (blocks bs) = List.concat bs.
Proof.
  induction bs as [|b bs IH]; [reflexivity|].
  rewrite blocks_cons, numeric_lines_app, numeric_lines_Some.
  cbn [numeric_lines flat_map app List.concat].
  fold (numeric_lines (blocks bs)). rewrite IH. reflexivity.
Qed.

Lemma line_labels_app (b : list Q) (rest : list (option Q)) (cl : Z) :
  line_labels (map Some b ++ None :: rest) cl
  = map (fun _ => cl) b ++ line_labels rest (cl + 1).
Proof.
  induction b as [|x b IH]; cbn [map app line_labels]; [reflexivity|].
  rewrite IH. reflexivity.
Qed.

Lemma line_labels_of_blocks (bs : list (list Q)) (cl : Z) :
  line_labels (blocks bs) cl = block_indices bs cl.
Proof.
  revert cl. induction bs as [|b bs IH]; intros cl; [reflexivity|].
  rewrite blocks_cons, line_labels_app, IH. reflexivity.
Qed.

Lemma take_eq_list {A : Type} (m : array A) (l : list A) (dflt : A) :
  (forall x, 0 <= x < Z.of_nat (List.length l) -> m x = nth (Z.to_nat x) l dflt) ->
  take m (Z.of_nat (List.length l)) = l.
Proof.
  intros H. apply (nth_ext _ _ dflt dflt).
  - rewrite take_length. lia.
  - intros n Hn. rewrite take_length in Hn.
    replace n with (Z.to_nat (Z.of_nat n)) by lia.
    rewrite take_nth by lia. apply H. lia.
Qed.

(** X3.  A file written as at most [MAX_DISTS] non-empty blocks, each
    followed by one blank line, is read back as written: [check_file]
    returns the number of blocks and their sizes, and [read_file]
    stores the values in order, each with the position of its block as
    its label. *)
Theorem loader_round_trip (bs : list (list Q)) (heap : array D) :
  (forall b, In b bs -> b <> []) ->
  Z.of_nat (List.length bs) <= MAX_DISTS ->
  exists c,
    check_file (blocks bs) = Done c /\
    no_runs c = Z.of_nat (List.length bs) /\
    take (Nsamp c) (no_runs c) = map (fun b => Z.of_nat (List.length b)) bs /\
    let N := fst (read_file (blocks bs) heap) in
    let d := snd (read_file (blocks bs) heap) in
    N = total c /\
    map value (take d N) = List.concat bs /\
    map label (take d N) = block_indices bs 0.
Proof.
  intros Hne Hmax.
  pose proof (file_blocks_blocks bs Hne) as Hfb.
  destruct (check_file_accepts (blocks bs)) as (c & Hc & Hk & Ht & Hin & _);
    cbv zeta in *; rewrite Hfb in *; [exact Hmax|].
  exists c. split; [exact Hc|]. split; [exact Hk|]. split.
  - rewrite Hk. rewrite <- (length_map (fun b => Z.of_nat (List.length b)) bs).
    apply (take_eq_list _ _ 0). intros x Hx. rewrite length_map in Hx.
    destruct (Hin x Hx) as (-> & _). unfold block_size. rewrite Hfb.
    symmetry.
    apply (map_nth (fun b : list Q => Z.of_nat (List.length b)) bs []).
  - destruct (read_file_cells (blocks bs) heap) as (Hv & _).
    destruct (check_file_done _ c Hc) as (_ & _ & Htot).
    cbv zeta in *. rewrite read_file_count.
    split; [symmetry; exact Htot|].
    split; [rewrite Hv; apply numeric_lines_of_blocks|].
    rewrite <- (read_file_count (blocks bs) heap), read_file_labels.
    apply line_labels_of_blocks.
Qed.

Lemma loader_round_trip_witness :
  exists c,
    check_file (blocks [[1]; [2; 3; 5]; [4; 5]]%Q) = Done c /\
    no_runs c = 3 /\ take (Nsamp c) (no_runs c) = [1; 3; 2] /\
    map label (take (snd (read_file (blocks [[1]; [2; 3; 5]; [4; 5]]%Q) zeroD))
                    (fst (read_file (blocks [[1]; [2; 3; 5]; [4; 5]]%Q) zeroD)))
    = [0; 1; 1; 1; 2; 2].
Proof.
  destruct (loader_round_trip [[1]; [2; 3; 5]; [4; 5]]%Q zeroD)
    as (c & Hc & Hk & Hs & _ & _ & Hl).
  - intros b [<- | [<- | [<- | []]]]; discriminate.
  - unfold MAX_DISTS. cbn. lia.
  - exists c. split; [exact Hc|]. split; [exact Hk|]. split; [exact Hs|].
    exact Hl.
Defined.

(** ** Paired samples *)


Lemma length_concat_const (bs : list (list Q)) (n : nat) :
  (forall b, In b bs -> List.length b = n) ->
  List.length (List.concat bs) = (List.length bs * n)%nat.
Proof.
  induction bs as [|b bs IH]; intros H; [reflexivity|].
  cbn [List.concat List.length]. rewrite length_app, IH, (H b).
  - lia.
  - left. reflexivity.
  - intros b' Hb'. apply H. right. exact Hb'.
Qed.

Lemma firstn_all_same (bs : list (list Q)) (n : nat) (j : nat) :
  (forall b, In b bs -> List.length b = n) -> (j <= List.length bs)%nat ->
  List.length (List.concat (firstn j bs)) = (j * n)%nat.
Proof.
  intros H Hj. rewrite (length_concat_const _ n).
  - rewrite length_firstn, Nat.min_l by lia. reflexivity.
  - intros b Hb. apply H. rewrite <- (firstn_skipn j bs).
    apply in_or_app. left. exact Hb.
Qed.

Lemma wilcoxon_check_file_done (lines : list (option Q)) (c : counts) :
  Wilcoxon.check_file lines = Done c ->
  check_file lines = Done c /\
  forall j, 0 <= j < no_runs c -> Nsamp c j = Nsamp c 0.
Proof.
  unfold Wilcoxon.check_file. destruct (check_file lines) as [c'| |] eqn:Hc;
    cbn [bind]; try discriminate.
  destruct (forallb _ _) eqn:Hall; [|discriminate].
  intros [= ->]. split; [reflexivity|]. intros j Hj.
  destruct (Z.eq_dec j 0) as [-> | Hj0]; [reflexivity|].
  rewrite forallb_forall in Hall. specialize (Hall (j - 1)).
  replace (j - 1 + 1) with j in Hall by lia.
  apply Z.eqb_eq. apply Hall. apply in_zrange. lia.
Qed.


Lemma differences_cells (d : array D) (Nsamp0 a b : Z) (p : array Wilcoxon.P) :
  0 <= Nsamp0 ->
  let r := Wilcoxon.differences d Nsamp0 a b p in
  let df := fun i => round_double (value (d (Nsamp0 * b + i)%Z)
                                   - value (d (Nsamp0 * a + i)%Z)) in
  (forall x, 0 <= x < Nsamp0 ->
     fst r x = Wilcoxon.mkP (if Qeq_bool (df x) 0 then Wilcoxon.dropped
                             else df x)
                            (Wilcoxon.rank (p x)) (Wilcoxon.sigrank (p x))) /\
  (forall x, Nsamp0 <= x -> fst r x = p x) /\
  snd r = Z.of_nat (List.length (filter (fun i => Qeq_bool (df i) 0)
                                        (zrange Nsamp0))).
Proof.
  intros Hn. cbv zeta. unfold Wilcoxon.differences.
  set (ob := Nsamp0 * b). set (oa := Nsamp0 * a). clearbody ob oa.
  pattern Nsamp0. apply natlike_ind; [| |exact Hn].
  - cbn [zrange Z.to_nat seq map fold_left fst snd filter List.length].
    split; [intros x Hx; lia|]. split; reflexivity.
  - clear Nsamp0 Hn. intros n Hn IH. unfold Z.succ.
    rewrite zrange_succ, fold_left_app, filter_app, length_app by exact Hn.
    cbn [fold_left filter].
    destruct (fold_left _ (zrange n) (p, 0)) as (p1, ties).
    cbn [fst snd] in *. destruct IH as (IHc & IHo & IHt).
    destruct (Qeq_bool (round_double (value (d (ob + n)) - value (d (oa + n))))
                       0) eqn:E;
      cbn [fst snd List.length]; (split; [|split; [|lia]]); intros x Hx;
      unfold upd;
      (destruct (Z.eqb_spec x n) as [-> | Hne];
       [try lia; rewrite ?E, (IHo n) by lia; reflexivity
       | first [apply IHc | apply IHo]; lia]).
Qed.

Lemma start_of_equal_sizes (Ns : array Z) (n0 a : Z) :
  0 <= a -> (forall j, 0 <= j < a -> Ns j = n0) ->
  MannWhitney.start_of Ns a = n0 * a.
Proof.
  intros Ha. pattern a. apply natlike_ind; [| |exact Ha].
  - intros _. unfold MannWhitney.start_of. cbn. lia.
  - intros x Hx IH Hall. unfold MannWhitney.start_of in *. unfold Z.succ.
    rewrite zrange_succ, fold_left_app by exact Hx. cbn [fold_left].
    rewrite IH by (intros j Hj; apply Hall; lia).
    rewrite Hall by lia. lia.
Qed.

Lemma paired_value (lines : list (option Q)) (heap_d : array D) (c : counts)
    (j i : Z) :
  Wilcoxon.check_file lines = Done c ->
  0 <= j < no_runs c -> 0 <= i < Nsamp c 0 ->
  value (snd (read_file lines heap_d) (Nsamp c 0 * j + i))
  = block_value lines j i.
Proof.
  intros Hw Hj Hi.
  destruct (wilcoxon_check_file_done lines c Hw) as (Hc & Hsame).
  rewrite <- (start_of_equal_sizes (Nsamp c) (Nsamp c 0) j)
    by (try lia; intros j' Hj'; apply Hsame; lia).
  apply (value_at_start lines heap_d c j i Hc Hj).
  rewrite Hsame by lia. exact Hi.
Qed.


(** X4.  For a file that [check_file] of wilcoxon-sign.cc accepts,
    the first loop of the test of the pair [(a, b)] stores in
    [p[i].diff] the [i]-th value of block [b] minus the [i]-th value of
    block [a] as the subtraction of two doubles gives it (rounded to
    the nearest double, [INFINITY] standing for an overflow), or
    [10e99] when that double is zero; it counts these zeros in [ties]
    and writes no cell outside [p[0..Nsamp[0]-1]].  The labels of
    [read_file] play no part. *)
Theorem wilcoxon_paired_differences (lines : list (option Q))
    (heap_d : array D) (p0 : array Wilcoxon.P) (c : counts) (a b : Z) :
  Wilcoxon.check_file lines = Done c ->
  0 <= a < no_runs c -> 0 <= b < no_runs c ->
  let n0 := Nsamp c 0 in
  let d := snd (read_file lines heap_d) in
  let r := Wilcoxon.differences d n0 a b p0 in
  let df := fun i => round_double (block_value lines b i
                                   - block_value lines a i) in
  (forall i, 0 <= i < n0 ->
     Wilcoxon.diff (fst r i)
     = if Qeq_bool (df i) 0 then Wilcoxon.dropped else df i) /\
  snd r = Z.of_nat (List.length (filter (fun i => Qeq_bool (df i) 0)
                                        (zrange n0))) /\
  (forall x, x < 0 \/ n0 <= x -> fst r x = p0 x).
Proof.
  intros Hw Ha Hb. cbv zeta.
  destruct (wilcoxon_check_file_done lines c Hw) as (Hc & Hsame).
  destruct (check_file_sizes lines c Hc) as (Hk & Hin & _).
  assert (Hn0 : 0 <= Nsamp c 0).
  { rewrite Hin by lia. unfold block_size. lia. }
  assert (Hval : forall j i, 0 <= j < no_runs c -> 0 <= i < Nsamp c 0 ->
            value (snd (read_file lines heap_d) (Nsamp c 0 * j + i))
            = block_value lines j i).
  { intros j i Hj Hi. apply paired_value; assumption. }
  destruct (differences_cells (snd (read_file lines heap_d)) (Nsamp c 0)
              a b p0 Hn0) as (Hcells & _ & Hties).
  destruct (differences_spec (snd (read_file lines heap_d)) (Nsamp c 0)
              a b p0 Hn0) as (_ & Hframe).
  cbv zeta in *. split; [|split].
  - intros i Hi. rewrite Hcells by exact Hi. cbn [Wilcoxon.diff].
    rewrite !Hval by lia. reflexivity.
  - rewrite Hties. f_equal. f_equal. apply filter_ext_in.
    intros i Hi. apply in_zrange in Hi. rewrite !Hval by lia. reflexivity.
  - intros x Hx. apply Hframe. exact Hx.
Qed.

Lemma wilcoxon_paired_differences_witness :
  exists c,
    Wilcoxon.check_file six_pairs = Done c /\
    0 <= 0 < no_runs c /\ 0 <= 1 < no_runs c /\
    snd (Wilcoxon.differences (snd (read_file six_pairs zeroD)) (Nsamp c 0)
           0 1 zeroP) = 1.
Proof.
  assert (Hw : exists c, Wilcoxon.check_file six_pairs = Done c /\
                         no_runs c = 2 /\ Nsamp c 0 = 6).
  { eexists. split; [vm_compute; reflexivity|]. split; reflexivity. }
  destruct Hw as (c & Hw & Hk & Hn). exists c.
  split; [exact Hw|]. split; [lia|]. split; [lia|].
  destruct (wilcoxon_paired_differences six_pairs zeroD zeroP c 0 1 Hw)
    as (_ & Hties & _); [lia | lia |].
  cbv zeta in Hties. rewrite Hties, Hn. vm_compute. reflexivity.
Defined.

(** ** The pool of two samples *)

(** X5.  For a file that [check_file] accepts, the two copy loops of a
    Mann-Whitney test of the samples [j] and [k] fill [pair] with the
    values of block [j], labelled [j], followed by the values of block
    [k], labelled [k]; they write no [rank] field and no cell after
    these.  The labels of [read_file] play no part. *)
Theorem mann_whitney_pool (lines : list (option Q)) (heap_d pr : array D)
    (c : counts) (j k : Z) :
  check_file lines = Done c ->
  0 <= j < no_runs c -> 0 <= k < no_runs c ->
  let d := snd (read_file lines heap_d) in
  let nj := Nsamp c j in
  let nk := Nsamp c k in
  let pool :=
    MannWhitney.copy_sample d (MannWhitney.start_of (Nsamp c) k) nk nj k
      (MannWhitney.copy_sample d (MannWhitney.start_of (Nsamp c) j) nj 0 j pr) in
  (forall i, 0 <= i < nj ->
     value (pool i) = block_value lines j i /\ label (pool i) = j) /\
  (forall i, 0 <= i < nk ->
     value (pool (nj + i)) = block_value lines k i /\
     label (pool (nj + i)) = k) /\
  (forall x, rank (pool x) = rank (pr x)) /\
  (forall x, x < 0 \/ nj + nk <= x -> pool x = pr x).
Proof.
  intros Hc Hj Hk. cbv zeta.
  destruct (check_file_sizes lines c Hc) as (_ & Hin & _).
  assert (Hnj : 0 <= Nsamp c j) by (rewrite Hin by lia; unfold block_size; lia).
  assert (Hnk : 0 <= Nsamp c k) by (rewrite Hin by lia; unfold block_size; lia).
  split; [|split; [|split]].
  - intros i Hi. rewrite !copy_sample_spec by lia.
    replace ((Nsamp c j <=? i) && (i <? Nsamp c j + Nsamp c k)) with false
      by (symmetry; zbool).
    replace ((0 <=? i) && (i <? 0 + Nsamp c j)) with true by (symmetry; zbool).
    cbn [value label]. split; [|reflexivity].
    replace (i - 0 + MannWhitney.start_of (Nsamp c) j)
      with (MannWhitney.start_of (Nsamp c) j + i) by lia.
    apply (value_at_start lines heap_d c j i Hc Hj Hi).
  - intros i Hi. rewrite copy_sample_spec by lia.
    replace ((Nsamp c j <=? Nsamp c j + i)
             && (Nsamp c j + i <? Nsamp c j + Nsamp c k)) with true
      by (symmetry; zbool).
    cbn [value label]. split; [|reflexivity].
    replace (Nsamp c j + i - Nsamp c j + MannWhitney.start_of (Nsamp c) k)
      with (MannWhitney.start_of (Nsamp c) k + i) by lia.
    apply (value_at_start lines heap_d c k i Hc Hk Hi).
  - intros x. rewrite !copy_sample_spec by lia.
    destruct (_ && _); cbn [rank]; destruct (_ && _); reflexivity.
  - intros x Hx. rewrite !copy_sample_spec by lia.
    replace ((Nsamp c j <=? x) && (x <? Nsamp c j + Nsamp c k)) with false
      by (symmetry; zbool).
    replace ((0 <=? x) && (x <? 0 + Nsamp c j)) with false by (symmetry; zbool).
    reflexivity.
Qed.

Lemma mann_whitney_pool_witness :
  exists c,
    check_file three_samples = Done c /\
    0 <= 1 < no_runs c /\ 0 <= 2 < no_runs c /\
    value (MannWhitney.copy_sample (snd (read_file three_samples zeroD))
             (MannWhitney.start_of (Nsamp c) 2) (Nsamp c 2) (Nsamp c 1) 2
             (MannWhitney.copy_sample (snd (read_file three_samples zeroD))
                (MannWhitney.start_of (Nsamp c) 1) (Nsamp c 1) 0 1 zeroD)
             (Nsamp c 1 + 0))
    = block_value three_samples 2 0.
Proof.
  assert (Hw : exists c, check_file three_samples = Done c /\
                         no_runs c = 3 /\ Nsamp c 2 = 2).
  { eexists. split; [vm_compute; reflexivity|]. split; reflexivity. }
  destruct Hw as (c & Hc & Hk & Hn). exists c.
  split; [exact Hc|]. split; [lia|]. split; [lia|].
  destruct (mann_whitney_pool three_samples zeroD zeroD c 1 2 Hc)
    as (_ & H2 & _); [lia | lia |].
  cbv zeta in H2. apply H2. lia.
Defined.

(** ** The scan, case by case *)

Section GuardedScan.
Context {Cell : Type}.
Variable same_key : Cell -> Cell -> bool.
Variable get_rank : Cell -> Q.
Variable set_rank : Cell -> Q -> Cell.
Hypothesis get_set : forall c q, get_rank (set_rank c q) = q.
Hypothesis key_sym : forall a b, same_key a b = same_key b a.
Hypothesis key_trans :
  forall a b c, same_key a b = true -> same_key b c = true ->
                same_key a c = true.

(** The look-ahead at [i = N - 1] does no harm when the last
    observation belongs to a run that started before it: the guard of
    the [do ... while] ends that run at [N - 1]. *)
Lemma assign_ranks_guarded (d : array Cell) (N : Z) :
  1 <= N <= RANK_LIMIT ->
  same_key (d N) (d (N - 1)) = false \/
  (2 <= N /\ same_key (d (N - 1)) (d (N - 2)) = true) ->
  exists d' t,
    RankAssigner.assign_ranks same_key set_rank d N = Some (d', t) /\
    (forall s c, is_run same_key d N s c ->
       forall k, 0 <= k <= c ->
         (get_rank (d' (s + k)%Z) == mean_rank (s + 1)%Z c)%Q) /\
    (forall x, 0 <= x < N ->
       exists s c, is_run same_key d N s c /\ s <= x <= s + c) /\
    t = tied_count same_key d N /\
    (RankAssigner.sum_ranks get_rank d' N == inject_Z (N * (N + 1)) / 2)%Q /\
    (forall x, x < 0 \/ N <= x -> d' x = d x) /\
    (forall x, d' x = d x \/ exists q, d' x = set_rank (d x) q).
Proof.
  intros HN Hguard.
  set (P := fun (d' : array Cell) (i t : Z) =>
    scanned same_key get_rank N d d' i t /\
    (RankAssigner.sum_ranks get_rank d' i == inject_Z (i * (i + 1)) / 2)%Q /\
    (forall x, x < 0 -> d' x = d x) /\
    (forall x, d' x = d x \/ exists q, d' x = set_rank (d x) q)).
  destruct (scan_runs_gen same_key set_rank P d N HN)
    as (d' & t & Hrun & Hcases).
  - unfold P. split; [apply scanned_start; assumption|]. split; [|split].
    + unfold RankAssigner.sum_ranks. simpl. reflexivity.
    + intros x _. reflexivity.
    + intros x. left. reflexivity.
  - intros d1 i ties c d2 r (Hsc & Hs & Hneg & Hframe) Hi Hties Hsame Hc Hic Hr
           Hd2 Hk Hx Hc0.
    unfold P. split; [|split; [|split]].
    + apply (scanned_step same_key get_rank set_rank get_set key_sym key_trans
               N d d1 d2 i c ties r); try assumption; lia.
    + apply (sum_ranks_run get_rank set_rank get_set d1 d2 i c r);
        assumption || lia.
    + intros x Hx'. rewrite Hd2.
      replace ((i <=? x) && (x <=? i + c)) with false by (symmetry; zbool).
      apply Hneg. exact Hx'.
    + intros x. rewrite Hd2.
      destruct ((i <=? x) && (x <=? i + c)) eqn:Hx'; [|apply Hframe].
      apply andb_true_iff in Hx'. destruct Hx' as [Hx' _].
      apply Z.leb_le in Hx'.
      right. exists r. rewrite Hsame by lia. reflexivity.
  - exists d', t. split; [exact Hrun|].
    destruct Hcases as [(((Hstart & Hranks & Hcover & Ht) & Hs & Hneg & Hframe)
                         & Hpast)
                       | (Htie & d1 & t1 & r & HP & _)].
    + split; [|split; [exact Hcover|split; [exact Ht|split; [exact Hs|split]]]].
      * intros s c Hrun0 k Hk. apply (Hranks s c Hrun0); [|exact Hk].
        destruct Hrun0 as (_ & _ & H & _). exact H.
      * intros x [Hx | Hx]; [apply Hneg | apply Hpast]; exact Hx.
      * exact Hframe.
    + exfalso. destruct HP as ((Hstart & _) & _).
      destruct Hguard as [Hno | (H2 & Hprev)]; [congruence|].
      replace (N - 1 - 1) with (N - 2) in Hstart by lia.
      destruct Hstart as [? | [? | Hst]]; [lia | lia | congruence].
Qed.

(** In the other case the scan also writes the cell after the pool. *)
Lemma assign_ranks_past_tie_cells (d : array Cell) (N : Z) :
  1 <= N <= RANK_LIMIT ->
  same_key (d N) (d (N - 1)) = true ->
  (N = 1 \/ same_key (d (N - 1)) (d (N - 2)) = false) ->
  exists d' t,
    RankAssigner.assign_ranks same_key set_rank d N = Some (d', t) /\
    (exists r, (r == inject_Z N + (1 # 2))%Q /\ d' N = set_rank (d N) r) /\
    (forall x, x < 0 \/ N < x -> d' x = d x).
Proof.
  intros HN Hpast Hlast.
  set (P := fun (d' : array Cell) (i t : Z) =>
    i <= N - 1 /\ (forall x, x < 0 -> d' x = d x)).
  destruct (scan_runs_gen same_key set_rank P d N HN)
    as (d' & t & Hrun & Hcases).
  - unfold P. split; [lia|]. intros x _. reflexivity.
  - intros d1 i ties c d2 r (_ & Hneg) Hi Hties Hsame Hc Hic Hr
           Hd2 Hk Hx Hc0.
    assert (Hinside : i + c < N - 1).
    { destruct (Z.eq_dec (i + c) (N - 1)) as [Heq | Hne]; [exfalso | lia].
      destruct (Z.eq_dec c 0) as [-> | Hcpos].
      - specialize (Hc0 eq_refl). replace (i + 1) with N in Hc0 by lia.
        replace i with (N - 1) in Hc0 by lia. congruence.
      - destruct Hlast as [? | Hlast]; [lia|].
        assert (H1 : same_key (d (N - 1)) (d i) = true).
        { replace (N - 1) with (i + c) by lia. apply Hk. lia. }
        assert (H2 : same_key (d (N - 1)) (d (N - 2)) = true).
        { destruct (Z.eq_dec (N - 2) i) as [-> | Hne]; [exact H1|].
          apply key_trans with (d i); [exact H1|]. rewrite key_sym.
          replace (N - 2) with (i + (c - 1)) by lia. apply Hk. lia. }
        congruence. }
    unfold P. split; [lia|].
    intros x Hx'. rewrite Hd2.
    replace ((i <=? x) && (x <=? i + c)) with false by (symmetry; zbool).
    apply Hneg. exact Hx'.
  - exists d', t. split; [exact Hrun|].
    destruct Hcases as [((Hle & _) & _)
                       | (_ & d1 & t1 & r & (_ & Hneg) & Hsame & _ & Hr & Hd')];
      [lia|].
    split.
    + exists r. split.
      { rewrite Hr. unfold avg_rank. rewrite inject_Z_plus, inject_Z_mult.
        change (inject_Z 2) with 2%Q. change (inject_Z 1) with 1%Q. field. }
      rewrite Hd'.
      replace ((N - 1 <=? N) && (N <=? N)) with true by (symmetry; zbool).
      rewrite Hsame by lia. reflexivity.
    + intros x Hx. rewrite Hd'.
      replace ((N - 1 <=? x) && (x <=? N)) with false by (symmetry; zbool).
      destruct Hx as [Hx | Hx]; [apply Hneg; exact Hx | apply Hsame; lia].
Qed.

End GuardedScan.

Lemma assign_ranks_empty {Cell : Type} (same_key : Cell -> Cell -> bool)
    (set_rank : Cell -> Q -> Cell) (d : array Cell) (N : Z) :
  N <= 0 -> RankAssigner.assign_ranks same_key set_rank d N = Some (d, 0).
Proof.
  intros HN. unfold RankAssigner.assign_ranks. cbv zeta.
  destruct (Z.to_nat N); cbn [while RankAssigner.scan_cond];
    replace (0 <? N) with false by (symmetry; zbool); reflexivity.
Qed.

(** X6.  What [assign_ranks] of kruskal-wallis.cc and mann-whit.cc does
    on every pool of at most 65534 cells.  It returns, changes no
    [value] and no [label], and no cell before the pool or after the
    cell [d[N]].  On an empty pool it changes nothing and returns 0.
    When the cell [d[N]] after the pool is tied to the last observation
    and that observation is not tied to the one before it, the two are
    ranked as a run: both get the rank [N + 1/2], the cell after the
    pool included, one tie too many is counted and the ranks of the
    pool add up to [N (N + 1) / 2 + 1/2].  In every other case [d[N]]
    is left alone, every maximal run of tied observations gets the mean
    of its natural ranks, the count returned is the number of
    observations tied to their predecessor, and the ranks add up to
    [N (N + 1) / 2]. *)
Theorem assign_ranks_outcome (d : array D) (N : Z) :
  N <= RANK_LIMIT ->
  exists d' t,
    Kruskal.assign_ranks d N = Some (d', t) /\
    MannWhitney.assign_ranks d N = Some (d', t) /\
    (forall x, value (d' x) = value (d x) /\ label (d' x) = label (d x)) /\
    (forall x, x < 0 \/ N < x -> d' x = d x) /\
    (N <= 0 -> (forall x, d' x = d x) /\ t = 0) /\
    (1 <= N ->
     if past_tie D_same_value d N then
       (rank (d' (N - 1)%Z) == inject_Z N + (1 # 2))%Q /\
       (rank (d' N) == inject_Z N + (1 # 2))%Q /\
       (forall s c, is_run D_same_value d (N - 1) s c ->
          forall k, 0 <= k <= c ->
            (rank (d' (s + k)%Z) == mean_rank (s + 1)%Z c)%Q) /\
       t = tied_count D_same_value d N + 1 /\
       (RankAssigner.sum_ranks rank d' N
        == inject_Z (N * (N + 1)) / 2 + (1 # 2))%Q
     else
       d' N = d N /\
       (forall s c, is_run D_same_value d N s c ->
          forall k, 0 <= k <= c ->
            (rank (d' (s + k)%Z) == mean_rank (s + 1)%Z c)%Q) /\
       (forall x, 0 <= x < N ->
          exists s c, is_run D_same_value d N s c /\ s <= x <= s + c) /\
       t = tied_count D_same_value d N /\
       (RankAssigner.sum_ranks rank d' N == inject_Z (N * (N + 1)) / 2)%Q).
Proof.
  intros HN. unfold past_tie.
  assert (Hfields : forall d' : array D,
            (forall x, d' x = d x \/ exists q, d' x = D_set_rank (d x) q) ->
            forall x, value (d' x) = value (d x) /\ label (d' x) = label (d x)).
  { intros d' Hframe x. destruct (Hframe x) as [-> | (q & ->)]; split; reflexivity. }
  destruct (Z_le_gt_dec N 0) as [Hempty | Hpos].
  { exists d, 0. unfold Kruskal.assign_ranks, MannWhitney.assign_ranks.
    rewrite assign_ranks_empty by exact Hempty.
    repeat split; try reflexivity. lia. }
  assert (HN' : 1 <= N <= RANK_LIMIT) by lia.
  destruct (D_same_value (d N) (d (N - 1))
            && ((N =? 1) || negb (D_same_value (d (N - 1)) (d (N - 2)))))
    eqn:Hcase.
  - apply andb_true_iff in Hcase. destruct Hcase as (Hpast & Hlast).
    assert (Hlast' : N = 1 \/ D_same_value (d (N - 1)) (d (N - 2)) = false).
    { apply orb_true_iff in Hlast. destruct Hlast as [H | H].
      - left. apply Z.eqb_eq. exact H.
      - right. apply negb_true_iff. exact H. }
    destruct (assign_ranks_D_past_tie d N HN' Hpast Hlast')
      as (d' & t & Hk & Hm & Hruns & Hr & Hsum & Ht & Hframe).
    destruct (assign_ranks_past_tie_cells D_same_value D_set_rank
                (fun a b => Qeq_bool_comm (value a) (value b))
                (fun a b c => Qeq_bool_transitive (value a) (value b) (value c))
                d N HN' Hpast Hlast')
      as (d2 & t2 & Hk2 & (r & Hr' & HdN) & Hout).
    unfold Kruskal.assign_ranks in Hk. rewrite Hk in Hk2.
    injection Hk2 as <- <-.
    exists d', t. split; [exact Hk|]. split; [exact Hm|].
    split; [apply Hfields; exact Hframe|]. split; [exact Hout|].
    split; [lia|]. intros _.
    split; [exact Hr|]. split; [rewrite HdN; cbn [rank D_set_rank]; exact Hr'|].
    split; [exact Hruns|]. split; [exact Ht | exact Hsum].
  - assert (Hguard : D_same_value (d N) (d (N - 1)) = false \/
                     (2 <= N /\ D_same_value (d (N - 1)) (d (N - 2)) = true)).
    { apply andb_false_iff in Hcase. destruct Hcase as [H | H]; [left; exact H|].
      apply orb_false_iff in H. destruct H as (H1 & H2).
      right. apply Z.eqb_neq in H1. apply negb_false_iff in H2.
      split; [lia | exact H2]. }
    destruct (assign_ranks_guarded D_same_value rank D_set_rank
                (fun c q => eq_refl)
                (fun a b => Qeq_bool_comm (value a) (value b))
                (fun a b c => Qeq_bool_transitive (value a) (value b) (value c))
                d N HN' Hguard)
      as (d' & t & Hrun & Hruns & Hcover & Ht & Hsum & Hout & Hframe).
    exists d', t. split; [exact Hrun|]. split; [exact Hrun|].
    split; [apply Hfields; exact Hframe|].
    split; [intros x Hx; apply Hout; lia|].
    split; [lia|]. intros _.
    split; [apply Hout; lia|]. split; [exact Hruns|].
    split; [exact Hcover|]. split; [exact Ht | exact Hsum].
Qed.

Lemma assign_ranks_outcome_witness :
  3 <= RANK_LIMIT /\
  exists d' t,
    Kruskal.assign_ranks
      (of_list [mkD 1 0 0; mkD 1 0 0; mkD 2 1 0; mkD 3 1 0]%Q zeroD) 3
    = Some (d', t) /\ t = 1.
Proof.
  split; [unfold RANK_LIMIT; lia|].
  destruct (assign_ranks_outcome
              (of_list [mkD 1 0 0; mkD 1 0 0; mkD 2 1 0; mkD 3 1 0]%Q zeroD) 3)
    as (d' & t & Hk & _ & _ & _ & _ & Hcase); [unfold RANK_LIMIT; lia|].
  exists d', t. split; [exact Hk|].
  specialize (Hcase ltac:(lia)).
  change (past_tie _ _ _) with false in Hcase. cbv beta iota in Hcase.
  destruct Hcase as (_ & _ & _ & Ht & _). rewrite Ht. reflexivity.
Defined.

(** ** Sorting *)

Lemma insert_perm {A : Type} (cmp : A -> A -> Z) (x : A) (l : list A) :
  Permutation (insert cmp x l) (x :: l).
Proof.
  induction l as [|y l IH]; cbn [insert]; [reflexivity|].
  destruct (cmp x y <=? 0); [reflexivity|].
  rewrite IH. apply perm_swap.
Qed.

Lemma sort_perm {A : Type} (cmp : A -> A -> Z) (l : list A) :
  Permutation (sort cmp l) l.
Proof.
  induction l as [|x l IH]; [reflexivity|].
  unfold sort in *. cbn [fold_right]. rewrite insert_perm.
  apply perm_skip. exact IH.
Qed.

Section SortFacts.
Context {A : Type}.
Variable cmp : A -> A -> Z.
Hypothesis cmp_total : forall x y, cmp x y <= 0 \/ cmp y x <= 0.
Hypothesis cmp_trans :
  forall x y z, cmp x y <= 0 -> cmp y z <= 0 -> cmp x z <= 0.

Lemma insert_sorted (x : A) (l : list A) :
  StronglySorted (fun a b => cmp a b <= 0) l ->
  StronglySorted (fun a b => cmp a b <= 0) (insert cmp x l).
Proof.
  induction l as [|y l IH]; intros Hs; cbn [insert].
  - constructor; constructor.
  - apply StronglySorted_inv in Hs. destruct Hs as (Hl & Hy).
    destruct (Z.leb_spec (cmp x y) 0) as [Hle | Hgt].
    + constructor; [constructor; assumption|].
      constructor; [exact Hle|].
      rewrite Forall_forall in *. intros z Hz.
      apply cmp_trans with y; [exact Hle | apply Hy; exact Hz].
    + constructor; [apply IH; exact Hl|].
      apply (Permutation_Forall (Permutation_sym (insert_perm cmp x l))).
      constructor; [|exact Hy].
      destruct (cmp_total x y); [lia | assumption].
Qed.

Lemma sort_sorted (l : list A) :
  StronglySorted (fun a b => cmp a b <= 0) (sort cmp l).
Proof.
  induction l as [|x l IH]; [constructor|].
  unfold sort in *. cbn [fold_right]. apply insert_sorted. exact IH.
Qed.

Lemma sorted_nth (l : list A) (dflt : A) (i j : nat) :
  StronglySorted (fun a b => cmp a b <= 0) l ->
  (i < j)%nat -> (j < List.length l)%nat ->
  cmp (nth i l dflt) (nth j l dflt) <= 0.
Proof.
  intros Hs. revert i j. induction Hs as [|x l Hs IH Hx]; intros i j Hij Hj.
  - cbn [List.length] in Hj. lia.
  - cbn [List.length] in Hj. destruct j as [|j]; [lia|].
    destruct i as [|i]; cbn [nth].
    + rewrite Forall_forall in Hx. apply Hx. apply nth_In. lia.
    + apply IH; lia.
Qed.

End SortFacts.

Lemma qsort_cells {A : Type} (cmp : A -> A -> Z) (m : array A) (n x : Z) :
  0 <= x < n ->
  qsort cmp m n x = nth (Z.to_nat x) (sort cmp (take m n)) (m x).
Proof.
  intros Hx. unfold qsort, of_list.
  rewrite sort_length, take_length.
  replace ((0 <=? x) && (x <? Z.of_nat (Z.to_nat n))) with true
    by (symmetry; zbool).
  reflexivity.
Qed.

Lemma take_qsort {A : Type} (cmp : A -> A -> Z) (m : array A) (n : Z) :
  take (qsort cmp m n) n = sort cmp (take m n).
Proof.
  destruct (Z_le_gt_dec n 0) as [Hn | Hn].
  - unfold take, zrange. replace (Z.to_nat n) with 0%nat by lia. reflexivity.
  - assert (Hlen : List.length (sort cmp (take m n)) = Z.to_nat n)
      by (rewrite sort_length; apply take_length).
    assert (Hn' : n = Z.of_nat (List.length (sort cmp (take m n)))) by lia.
    rewrite Hn' at 2.
    apply (take_eq_list _ _ (m 0)). intros x Hx.
    rewrite qsort_cells by lia. apply nth_indep. lia.
Qed.

Lemma compare_le (a b : D) : compare a b <= 0 <-> (value a <= value b)%Q.
Proof.
  unfold compare. cbv zeta.
  destruct (Qlt_bool (value a - value b) 0) eqn:E1.
  - apply Qlt_bool_iff in E1. split; [intros _; lra | lia].
  - apply Qlt_bool_false in E1.
    destruct (Qlt_bool 0 (value a - value b)) eqn:E2.
    + apply Qlt_bool_iff in E2. split; [lia | intros H; lra].
    + apply Qlt_bool_false in E2. split; [intros _; lra | lia].
Qed.

Lemma comparediff_le (a b : Wilcoxon.P) :
  Wilcoxon.comparediff a b <= 0
  <-> (Wilcoxon.myabs (Wilcoxon.diff a) <= Wilcoxon.myabs (Wilcoxon.diff b))%Q.
Proof.
  unfold Wilcoxon.comparediff. cbv zeta.
  set (u := Wilcoxon.myabs (Wilcoxon.diff a)).
  set (v := Wilcoxon.myabs (Wilcoxon.diff b)).
  destruct (Qlt_bool (u - v) 0) eqn:E1.
  - apply Qlt_bool_iff in E1. split; [intros _; lra | lia].
  - apply Qlt_bool_false in E1.
    destruct (Qlt_bool 0 (u - v)) eqn:E2.
    + apply Qlt_bool_iff in E2. split; [lia | intros H; lra].
    + apply Qlt_bool_false in E2. split; [intros _; lra | lia].
Qed.

(** X7.  [compare] is a comparison function as [qsort] requires: its
    result is -1, 0 or 1, it is 0 exactly on equal values and -1
    exactly when the first value is smaller, swapping the arguments
    negates it, and it is transitive. *)
Theorem compare_is_an_order (a b c : D) :
  (compare a b = -1 \/ compare a b = 0 \/ compare a b = 1) /\
  (compare a b = 0 <-> (value a == value b)%Q) /\
  (compare a b = -1 <-> (value a < value b)%Q) /\
  compare a b = - compare b a /\
  (compare a b <= 0 -> compare b c <= 0 -> compare a c <= 0).
Proof.
  split; [|split; [|split; [|split]]].
  - unfold compare. cbv zeta.
    destruct (Qlt_bool (value a - value b) 0),
             (Qlt_bool 0 (value a - value b)); lia.
  - unfold compare. cbv zeta.
    destruct (Qlt_bool (value a - value b) 0) eqn:E1;
      [apply Qlt_bool_iff in E1 | apply Qlt_bool_false in E1].
    + split; [lia | intros H; lra].
    + destruct (Qlt_bool 0 (value a - value b)) eqn:E2;
        [apply Qlt_bool_iff in E2 | apply Qlt_bool_false in E2].
      * split; [lia | intros H; lra].
      * split; [intros _; lra | reflexivity].
  - unfold compare. cbv zeta.
    destruct (Qlt_bool (value a - value b) 0) eqn:E1;
      [apply Qlt_bool_iff in E1 | apply Qlt_bool_false in E1].
    + split; [intros _; lra | reflexivity].
    + destruct (Qlt_bool 0 (value a - value b)) eqn:E2;
        [apply Qlt_bool_iff in E2 | apply Qlt_bool_false in E2];
        (split; [lia | intros H; lra]).
  - unfold compare. cbv zeta.
    destruct (Qlt_bool (value a - value b) 0) eqn:E1;
      [apply Qlt_bool_iff in E1 | apply Qlt_bool_false in E1];
      destruct (Qlt_bool 0 (value a - value b)) eqn:E2;
      try (apply Qlt_bool_iff in E2); try (apply Qlt_bool_false in E2);
      destruct (Qlt_bool (value b - value a) 0) eqn:E3;
      try (apply Qlt_bool_iff in E3); try (apply Qlt_bool_false in E3);
      destruct (Qlt_bool 0 (value b - value a)) eqn:E4;
      try (apply Qlt_bool_iff in E4); try (apply Qlt_bool_false in E4);
      try reflexivity; exfalso; lra.
  - rewrite !compare_le. intros H1 H2. lra.
Qed.

Lemma compare_total (a b : D) : compare a b <= 0 \/ compare b a <= 0.
Proof.
  rewrite !compare_le.
  destruct (Qlt_le_dec (value b) (value a)) as [H | H];
    [right; apply Qlt_le_weak; exact H | left; exact H].
Qed.

Lemma compare_trans (a b c : D) :
  compare a b <= 0 -> compare b c <= 0 -> compare a c <= 0.
Proof. rewrite !compare_le. intros H1 H2. lra. Qed.

Lemma qsort_compare_ordered (d : array D) (N x y : Z) :
  0 <= x <= y -> y < N ->
  (value (qsort compare d N x) <= value (qsort compare d N y))%Q.
Proof.
  intros Hx Hy. destruct (Z.eq_dec x y) as [-> | Hne]; [apply Qle_refl|].
  apply compare_le. rewrite !qsort_cells by lia.
  rewrite (nth_indep _ (d x) (d y))
    by (rewrite sort_length, take_length; lia).
  apply (sorted_nth compare).
  - apply sort_sorted; [exact compare_total | exact compare_trans].
  - lia.
  - rewrite sort_length, take_length. lia.
Qed.

(** X8.  After [qsort (d, N, sizeof (D), compare)] the values of the
    [N] cells are in nondecreasing order, the cells are the cells that
    were there, in another order ([value], [label] and [rank] move
    together), and the memory around them is untouched. *)
Theorem qsort_compare_sorted (d : array D) (N : Z) :
  let d' := qsort compare d N in
  Permutation (take d' N) (take d N) /\
  (forall x y, 0 <= x <= y -> y < N -> (value (d' x) <= value (d' y))%Q) /\
  (forall x, x < 0 \/ N <= x -> d' x = d x).
Proof.
  cbv zeta. split; [|split].
  - rewrite take_qsort. apply sort_perm.
  - intros x y Hx Hy. apply qsort_compare_ordered; assumption.
  - intros x Hx. apply qsort_outside. exact Hx.
Qed.

(** ** Ranks and values *)

Lemma past_tie_guard {Cell : Type} (same_key : Cell -> Cell -> bool)
    (d : array Cell) (N : Z) :
  1 <= N -> past_tie same_key d N = false ->
  same_key (d N) (d (N - 1)) = false \/
  (2 <= N /\ same_key (d (N - 1)) (d (N - 2)) = true).
Proof.
  unfold past_tie. intros HN H. apply andb_false_iff in H.
  destruct H as [H | H]; [left; exact H|].
  apply orb_false_iff in H. destruct H as (H1 & H2).
  apply Z.eqb_neq in H1. apply negb_false_iff in H2.
  right. split; [lia | exact H2].
Qed.

Lemma mean_rank_bounds (r c : Z) :
  0 <= c ->
  (inject_Z r <= mean_rank r c)%Q /\ (mean_rank r c <= inject_Z (r + c))%Q.
Proof.
  intros Hc. rewrite mean_rank_avg by exact Hc. unfold avg_rank.
  rewrite !inject_Z_plus, inject_Z_mult. change (inject_Z 2) with 2%Q.
  assert (H0 : (0 <= inject_Z c)%Q).
  { change 0%Q with (inject_Z 0). rewrite <- Zle_Qle. exact Hc. }
  split.
  - apply Qle_shift_div_l; [reflexivity|]. lra.
  - apply Qle_shift_div_r; [reflexivity|]. lra.
Qed.

Lemma sorted_runs_order (d d' : array D) (N : Z) :
  (forall x y, 0 <= x <= y -> y < N -> (value (d x) <= value (d y))%Q) ->
  (forall s c, is_run D_same_value d N s c ->
     forall k, 0 <= k <= c ->
       (rank (d' (s + k)%Z) == mean_rank (s + 1)%Z c)%Q) ->
  (forall x, 0 <= x < N ->
     exists s c, is_run D_same_value d N s c /\ s <= x <= s + c) ->
  forall x y, 0 <= x <= y -> y < N ->
    ((value (d x) == value (d y))%Q /\ (rank (d' x) == rank (d' y))%Q) \/
    ((value (d x) < value (d y))%Q /\ (rank (d' x) < rank (d' y))%Q).
Proof.
  intros Hsorted Hranks Hcover x y Hx Hy.
  destruct (Hcover x ltac:(lia)) as (s & c & Hrun & Hin).
  destruct (Hcover y ltac:(lia)) as (s' & c' & Hrun' & Hin').
  pose proof Hrun as (Hs & Hc & HsN & Hs0 & Hrunk & Hend).
  pose proof Hrun' as (Hs' & Hc' & HsN' & Hs0' & Hrunk' & Hend').
  assert (Hval : forall k, s <= k <= s + c -> (value (d k) == value (d s))%Q).
  { intros k Hk. destruct (Z.eq_dec k s) as [-> | Hne]; [reflexivity|].
    apply Qeq_bool_iff. replace k with (s + (k - s)) by lia.
    apply Hrunk. lia. }
  assert (Hval' : forall k, s' <= k <= s' + c' ->
                    (value (d k) == value (d s'))%Q).
  { intros k Hk. destruct (Z.eq_dec k s') as [-> | Hne]; [reflexivity|].
    apply Qeq_bool_iff. replace k with (s' + (k - s')) by lia.
    apply Hrunk'. lia. }
  assert (Htied : forall a b, (value (d a) == value (d b))%Q ->
                    D_same_value (d a) (d b) = true).
  { intros a b H. apply Qeq_bool_iff. exact H. }
  assert (Hrx : (rank (d' x) == mean_rank (s + 1) c)%Q).
  { replace x with (s + (x - s)) by lia. apply (Hranks s c Hrun). lia. }
  assert (Hry : (rank (d' y) == mean_rank (s' + 1) c')%Q).
  { replace y with (s' + (y - s')) by lia. apply (Hranks s' c' Hrun'). lia. }
  assert (Hss : s <= s').
  { destruct (Z_le_gt_dec s s') as [? | Hgt]; [assumption | exfalso].
    destruct Hs0 as [? | Hs0]; [lia|].
    rewrite Htied in Hs0; [discriminate|].
    rewrite (Hval' s) by lia. rewrite (Hval' (s - 1)) by lia. reflexivity. }
  destruct (Z.eq_dec s s') as [<- | Hne].
  - left. assert (Hcc : c' = c).
    { destruct (Z_lt_le_dec c c') as [Hlt | Hge].
      - exfalso. destruct Hend as [? | Hend]; [lia|].
        rewrite Htied in Hend; [discriminate|]. apply Hval'. lia.
      - destruct (Z_lt_le_dec c' c) as [Hlt | Hge']; [exfalso | lia].
        destruct Hend' as [? | Hend']; [lia|].
        rewrite Htied in Hend'; [discriminate|]. apply Hval. lia. }
    subst c'. split.
    + rewrite (Hval x), (Hval y) by lia. reflexivity.
    + rewrite Hrx, Hry. reflexivity.
  - right.
    assert (Hgap : s + c < s').
    { destruct (Z_lt_le_dec (s + c) s') as [? | Hle]; [assumption | exfalso].
      destruct Hs0' as [? | Hs0']; [lia|].
      rewrite Htied in Hs0'; [discriminate|].
      rewrite (Hval s') by lia. rewrite (Hval (s' - 1)) by lia. reflexivity. }
    assert (Hlt : (value (d s) < value (d s'))%Q).
    { destruct Hend as [? | Hend]; [lia|].
      assert (H1 : (value (d s) <= value (d (s + c + 1)%Z))%Q)
        by (apply Hsorted; lia).
      assert (H2 : (value (d (s + c + 1)%Z) <= value (d s'))%Q)
        by (apply Hsorted; lia).
      assert (H3 : ~ (value (d (s + c + 1)%Z) == value (d s))%Q).
      { intros H. rewrite (Htied _ _ H) in Hend. discriminate. }
      apply Qle_lt_or_eq in H1. destruct H1 as [H1 | H1].
      - eapply Qlt_le_trans; eassumption.
      - exfalso. apply H3. symmetry. exact H1. }
    split.
    + rewrite (Hval x), (Hval' y) by lia. exact Hlt.
    + rewrite Hrx, Hry.
      destruct (mean_rank_bounds (s + 1) c Hc) as (_ & Hup).
      destruct (mean_rank_bounds (s' + 1) c' Hc') as (Hlow & _).
      eapply Qle_lt_trans; [exact Hup|].
      eapply Qlt_le_trans; [|exact Hlow].
      rewrite <- Zlt_Qlt. lia.
Qed.

(** X9.  Sorting a pool with [compare] and ranking it with
    [assign_ranks] gives ranks that follow the values: unless the cell
    after the pool is taken for a tie ([past_tie]), two observations
    with equal values have equal ranks and an observation with a
    smaller value has a smaller rank; every rank is at least 1 and at
    most [N]. *)
Theorem ranks_follow_values (d : array D) (N : Z) :
  1 <= N <= RANK_LIMIT ->
  let pool := qsort compare d N in
  past_tie D_same_value pool N = false ->
  exists ranked t,
    Kruskal.assign_ranks pool N = Some (ranked, t) /\
    MannWhitney.assign_ranks pool N = Some (ranked, t) /\
    (forall x y, 0 <= x < N -> 0 <= y < N ->
       ((value (ranked x) == value (ranked y))%Q ->
        (rank (ranked x) == rank (ranked y))%Q) /\
       ((value (ranked x) < value (ranked y))%Q ->
        (rank (ranked x) < rank (ranked y))%Q)) /\
    (forall x, 0 <= x < N ->
       (1 <= rank (ranked x))%Q /\ (rank (ranked x) <= inject_Z N)%Q).
Proof.
  intros HN pool Hcase.
  assert (Hguard : D_same_value (pool N) (pool (N - 1)) = false \/
                   (2 <= N /\ D_same_value (pool (N - 1)) (pool (N - 2)) = true)).
  { apply past_tie_guard; [lia | exact Hcase]. }
  destruct (assign_ranks_guarded D_same_value rank D_set_rank
              (fun c q => eq_refl)
              (fun a b => Qeq_bool_comm (value a) (value b))
              (fun a b c => Qeq_bool_transitive (value a) (value b) (value c))
              pool N HN Hguard)
    as (ranked & t & Hrun & Hruns & Hcover & _ & _ & _ & Hframe).
  exists ranked, t. split; [exact Hrun|]. split; [exact Hrun|].
  assert (Hv : forall x, value (ranked x) = value (pool x)).
  { intros x. destruct (Hframe x) as [-> | (q & ->)]; reflexivity. }
  assert (Hsorted : forall x y, 0 <= x <= y -> y < N ->
                      (value (pool x) <= value (pool y))%Q).
  { intros x y Hx Hy. apply qsort_compare_ordered; assumption. }
  pose proof (sorted_runs_order pool ranked N Hsorted Hruns Hcover) as Hord.
  split.
  - intros x y Hx Hy. rewrite !Hv.
    destruct (Z_le_gt_dec x y) as [Hxy | Hxy].
    + destruct (Hord x y ltac:(lia) ltac:(lia)) as [(He & Hr) | (Hl & Hr)].
      * split; [intros _; exact Hr | intros H; lra].
      * split; [intros H; lra | intros _; exact Hr].
    + destruct (Hord y x ltac:(lia) ltac:(lia)) as [(He & Hr) | (Hl & Hr)].
      * split; [intros _; symmetry; exact Hr | intros H; lra].
      * split; intros H; lra.
  - intros x Hx. destruct (Hcover x Hx) as (s & c & Hrun0 & Hin).
    pose proof Hrun0 as (Hs & Hc & HsN & _).
    assert (Hrx : (rank (ranked x) == mean_rank (s + 1) c)%Q).
    { replace x with (s + (x - s)) by lia. apply (Hruns s c Hrun0). lia. }
    destruct (mean_rank_bounds (s + 1) c Hc) as (Hlow & Hup).
    rewrite Hrx. split.
    + eapply Qle_trans; [|exact Hlow].
      change 1%Q with (inject_Z 1). rewrite <- Zle_Qle. lia.
    + eapply Qle_trans; [exact Hup|]. rewrite <- Zle_Qle. lia.
Qed.

Lemma ranks_follow_values_witness :
  let d := of_list [mkD 3 0 0; mkD 1 0 0; mkD 2 1 0; mkD 1 1 0]%Q zeroD in
  1 <= 4 <= RANK_LIMIT /\
  past_tie D_same_value (qsort compare d 4) 4 = false /\
  exists ranked t,
    Kruskal.assign_ranks (qsort compare d 4) 4 = Some (ranked, t).
Proof.
  cbv zeta. split; [unfold RANK_LIMIT; lia|]. split; [reflexivity|].
  destruct (ranks_follow_values
              (of_list [mkD 3 0 0; mkD 1 0 0; mkD 2 1 0; mkD 1 1 0]%Q zeroD) 4)
    as (ranked & t & Hk & _); [unfold RANK_LIMIT; lia | reflexivity |].
  exists ranked, t. exact Hk.
Defined.

(** ** The rank sums of the samples *)







(** ** The statistics of kruskal-wallis.cc *)

Lemma sum_of_squares (n : nat) :
  (sum_upto n (fun i => inject_Z (i + 1) * inject_Z (i + 1))
   == inject_Z (Z.of_nat n * (Z.of_nat n + 1) * (2 * Z.of_nat n + 1)) / 6)%Q.
Proof.
  induction n as [|n IH]; [reflexivity|].
  cbn [sum_upto]. rewrite IH.
  replace (Z.of_nat (Datatypes.S n)) with (Z.of_nat n + 1) by lia.
  generalize (Z.of_nat n). intros m.
  repeat (rewrite inject_Z_mult || rewrite inject_Z_plus).
  change (inject_Z 2) with 2%Q. change (inject_Z 1) with 1%Q. field.
Qed.

(** X11.  Without ties the squared ranks add up as those of 1, ...,
    [N]: on a pool of [N >= 2] cells in which no cell is tied to the
    one before it (the cell after the pool included), [assign_ranks]
    counts no tie and [sum_squared_ranks] returns
    [N (N + 1) (2 N + 1) / 6], a sum of integers below 2^53 that the
    [double] accumulator holds exactly. *)
Theorem squared_ranks_without_ties (d : array D) (N : Z) :
  2 <= N <= RANK_LIMIT ->
  (forall x, 1 <= x <= N -> D_same_value (d x) (d (x - 1)) = false) ->
  exists ranked t,
    Kruskal.assign_ranks d N = Some (ranked, t) /\ t = 0 /\
    (sum_squared_ranks ranked N
     == inject_Z (N * (N + 1) * (2 * N + 1)) / 6)%Q /\
    N * (N + 1) * (2 * N + 1) / 6 < 2 ^ 53.
Proof.
  intros HN Hdistinct.
  destruct (assign_ranks_distinct D_same_value rank D_set_rank
              (fun c q => eq_refl)
              (fun a b => Qeq_bool_comm (value a) (value b))
              (fun a b c => Qeq_bool_transitive (value a) (value b) (value c))
              d N ltac:(lia) Hdistinct)
    as (ranked & t & Hrun & Hranks & Ht).
  exists ranked, t. split; [exact Hrun|]. split; [exact Ht|]. split.
  - unfold sum_squared_ranks.
    rewrite (sum_upto_ext _ _ (fun i => inject_Z (i + 1) * inject_Z (i + 1))%Q).
    + rewrite sum_of_squares. rewrite Z2Nat.id by lia. reflexivity.
    + intros k Hk. rewrite Hranks by lia. reflexivity.
  - apply Z.div_lt_upper_bound; [lia|]. unfold RANK_LIMIT in HN. nia.
Qed.

Lemma squared_ranks_without_ties_witness :
  let d := of_list [mkD 1 0 0; mkD 2 1 0; mkD 4 0 0; mkD 7 1 0; mkD 9 0 0]%Q
                   zeroD in
  2 <= 4 <= RANK_LIMIT /\
  exists ranked t,
    Kruskal.assign_ranks d 4 = Some (ranked, t) /\
    (sum_squared_ranks ranked 4 == 30)%Q.
Proof.
  cbv zeta. split; [unfold RANK_LIMIT; lia|].
  destruct (squared_ranks_without_ties
              (of_list [mkD 1 0 0; mkD 2 1 0; mkD 4 0 0; mkD 7 1 0; mkD 9 0 0]%Q
                       zeroD) 4)
    as (ranked & t & Hrun & _ & HS & _).
  - unfold RANK_LIMIT. lia.
  - intros x Hx.
    assert (Hc : x = 1 \/ x = 2 \/ x = 3 \/ x = 4) by lia.
    destruct Hc as [-> | [-> | [-> | ->]]]; reflexivity.
  - exists ranked, t. split; [exact Hrun|]. rewrite HS. reflexivity.
Defined.

Lemma Qplus_comm_eq (x y : Q) : (x + y)%Q = (y + x)%Q.
Proof.
  unfold Qplus. f_equal.
  - ring.
  - apply Pos.mul_comm.
Qed.

(** X12.  The statistic of [pairwise] changes sign when its two samples
    are swapped: the two calls are finite numbers together, the
    difference of mean ranks is negated and the denominator is the same
    number, in [double] arithmetic as in exact arithmetic, whatever
    [sqrt] and the arguments are. *)
Theorem pairwise_antisymmetric {E : Extern} (ndist a b : Z) (d : array D)
    (N : Z) (Nsamp : array Z) (T : Q) :
  match Kruskal.pairwise ndist a b d N Nsamp T,
        Kruskal.pairwise ndist b a d N Nsamp T with
  | Some x, Some y => (x == - y)%Q
  | None, None => True
  | _, _ => False
  end.
Proof.
  unfold Kruskal.pairwise.
  destruct (ddiv (sum_of_ranks d a N) (inject_Z (Nsamp a))) as [ma|],
           (ddiv (sum_of_ranks d b N) (inject_Z (Nsamp b))) as [mb|];
    cbn [obind]; try exact I.
  rewrite (dsub_swap ma mb).
  destruct (dsub ma mb) as [v|]; cbn [option_map obind]; [|exact I].
  destruct (Kruskal.S_squared d N ndist) as [S2|]; cbn [obind]; [|exact I].
  destruct (dsub (inject_Z N) 1) as [n1|]; cbn [obind]; [|exact I].
  destruct (dsub n1 T) as [n1T|]; cbn [obind]; [|exact I].
  destruct (dmul S2 n1T) as [prod|]; cbn [obind]; [|exact I].
  destruct (ddiv prod (inject_Z (N - ndist))) as [q|]; cbn [obind]; [|exact I].
  destruct (Kruskal.dsqrt q) as [s1|]; cbn [obind]; [|exact I].
  destruct (ddiv 1 (inject_Z (Nsamp a))) as [ia|],
           (ddiv 1 (inject_Z (Nsamp b))) as [ib|];
    cbn [obind]; try exact I.
  rewrite (dadd_comm ib ia).
  destruct (dadd ia ib) as [sab|]; cbn [obind]; [|exact I].
  destruct (Kruskal.dsqrt sab) as [s2|]; cbn [obind]; [|exact I].
  destruct (dmul s1 s2) as [denom|]; cbn [obind]; [|exact I].
  rewrite ddiv_opp.
  destruct (ddiv v denom) as [z|]; cbn [option_map]; [|exact I].
  symmetry. apply Qopp_involutive.
Qed.

(** ** How a run of kruskal-wallis.cc ends *)




(** ** How a run of mann-whit.cc ends *)









(** ** Midranks *)

Lemma count_range (a b N : Z) :
  0 <= a <= b -> b <= N ->
  Z.of_nat (List.length (filter (fun y => (a <=? y) && (y <? b)) (zrange N)))
  = b - a.
Proof.
  intros Hab HbN. assert (HN : 0 <= N) by lia.
  revert HbN. generalize dependent b. pattern N.
  apply natlike_ind; [| |exact HN].
  - intros b Hab HbN. cbn. lia.
  - intros n Hn IH b Hab HbN. unfold Z.succ in *.
    rewrite zrange_succ, filter_app, length_app by exact Hn.
    cbn [filter].
    destruct (Z.eq_dec b (n + 1)) as [-> | Hne].
    + destruct (Z.eq_dec a (n + 1)) as [-> | Hne'].
      * replace ((n + 1 <=? n) && (n <? n + 1)) with false by (symmetry; zbool).
        cbn [List.length].
        rewrite (filter_ext_in _ (fun _ => false)).
        -- assert (Hnil : forall l : list Z, filter (fun _ => false) l = [])
             by (induction l; [reflexivity | assumption]).
           rewrite Hnil. cbn [List.length]. lia.
        -- intros y Hy. apply in_zrange in Hy. zbool.
      * replace ((a <=? n) && (n <? n + 1)) with true by (symmetry; zbool).
        cbn [List.length].
        rewrite (filter_ext_in _ (fun y => (a <=? y) && (y <? n))).
        -- rewrite Nat2Z.inj_add, IH by lia. cbn. lia.
        -- intros y Hy. apply in_zrange in Hy. zbool.
    + replace ((a <=? n) && (n <? b)) with false by (symmetry; zbool).
      cbn [List.length]. rewrite Nat.add_0_r. apply IH; lia.
Qed.

Lemma filter_length_perm {A : Type} (f : A -> bool) (l l' : list A) :
  Permutation l l' ->
  List.length (filter f l) = List.length (filter f l').
Proof.
  intros H. induction H as [| x l l' H IH | x y l | l l' l'' H1 IH1 H2 IH2].
  - reflexivity.
  - cbn [filter]. destruct (f x); cbn [List.length]; lia.
  - cbn [filter]. destruct (f x), (f y); cbn [List.length]; lia.
  - lia.
Qed.

Lemma filter_length_le {A : Type} (f g : A -> bool) (l : list A) :
  (forall x, In x l -> f x = true -> g x = true) ->
  (List.length (filter f l) <= List.length (filter g l))%nat.
Proof.
  induction l as [|x l IH]; intros H; [cbn; lia|].
  cbn [filter].
  assert (IH' := IH (fun y Hy => H y (or_intror Hy))).
  destruct (f x) eqn:Ef.
  - rewrite (H x (or_introl eq_refl) Ef). cbn [List.length]. lia.
  - destruct (g x); cbn [List.length]; lia.
Qed.

Lemma filter_length_split {A : Type} (f : A -> bool) (l : list A) :
  (List.length (filter f l) + List.length (filter (fun x => negb (f x)) l)
   = List.length l)%nat.
Proof.
  induction l as [|x l IH]; [reflexivity|].
  cbn [filter]. destruct (f x); cbn [negb List.length]; lia.
Qed.

Lemma filter_map_length {A B : Type} (f : B -> bool) (m : A -> B)
    (l : list A) :
  List.length (filter f (map m l))
  = List.length (filter (fun x => f (m x)) l).
Proof.
  induction l as [|x l IH]; [reflexivity|].
  cbn [map filter]. destruct (f (m x)); cbn [List.length]; lia.
Qed.

Lemma Qlt_bool_compat (a v v' : Q) :
  (v == v')%Q -> Qlt_bool a v = Qlt_bool a v'.
Proof.
  intros He. destruct (Qlt_bool a v') eqn:E.
  - apply Qlt_bool_iff. apply Qlt_bool_iff in E. rewrite He. exact E.
  - apply Qlt_bool_false. apply Qlt_bool_false in E. rewrite He. exact E.
Qed.

Lemma Qeq_bool_compat (a v v' : Q) :
  (v == v')%Q -> Qeq_bool a v = Qeq_bool a v'.
Proof.
  intros He. destruct (Qeq_bool a v') eqn:E.
  - apply Qeq_bool_iff. apply Qeq_bool_iff in E. rewrite He. exact E.
  - destruct (Qeq_bool a v) eqn:E'; [|reflexivity].
    apply Qeq_bool_iff in E'. rewrite He in E'. apply Qeq_bool_iff in E'.
    congruence.
Qed.

Section KeyedCells.
Context {Cell : Type}.
Variable key : Cell -> Q.

(** In a pool sorted by [key], the cells with a smaller key than a run
    are the cells before it and the cells with its key are the run. *)
Lemma sorted_run_values (d : array Cell) (N s c : Z) :
  (forall x y, 0 <= x <= y -> y < N -> (key (d x) <= key (d y))%Q) ->
  is_run (fun a b => Qeq_bool (key a) (key b)) d N s c ->
  forall y, 0 <= y < N ->
    (Qlt_bool (key (d y)) (key (d s)) = (0 <=? y) && (y <? s)) /\
    (Qeq_bool (key (d y)) (key (d s)) = (s <=? y) && (y <? s + c + 1)).
Proof.
  intros Hsorted (Hs & Hc & HsN & Hs0 & Hrunk & Hend) y Hy.
  assert (Hne : forall a b, Qeq_bool (key (d a)) (key (d b)) = false ->
                  ~ (key (d a) == key (d b))%Q).
  { intros a b H He. apply Qeq_bool_iff in He. congruence. }
  destruct (Z_lt_le_dec y s) as [Hlt | Hge].
  - assert (Hless : (key (d y) < key (d s))%Q).
    { destruct Hs0 as [? | Hs0]; [lia|].
      assert (H1 : (key (d y) <= key (d (s - 1)%Z))%Q)
        by (apply Hsorted; lia).
      assert (H2 : (key (d (s - 1)%Z) <= key (d s))%Q)
        by (apply Hsorted; lia).
      apply Hne in Hs0. apply Qle_lt_or_eq in H2. destruct H2 as [H2 | H2].
      - eapply Qle_lt_trans; eassumption.
      - exfalso. apply Hs0. symmetry. exact H2. }
    split.
    + replace ((0 <=? y) && (y <? s)) with true by (symmetry; zbool).
      apply Qlt_bool_iff. exact Hless.
    + replace ((s <=? y) && (y <? s + c + 1)) with false by (symmetry; zbool).
      destruct (Qeq_bool (key (d y)) (key (d s))) eqn:E; [|reflexivity].
      apply Qeq_bool_iff in E. rewrite E in Hless.
      exfalso. apply (Qlt_irrefl _ Hless).
  - destruct (Z_le_gt_dec y (s + c)) as [Hin | Hout].
    + assert (Heq : (key (d y) == key (d s))%Q).
      { destruct (Z.eq_dec y s) as [-> | Hys]; [reflexivity|].
        apply Qeq_bool_iff. replace y with (s + (y - s)) by lia.
        apply Hrunk. lia. }
      split.
      * replace ((0 <=? y) && (y <? s)) with false by (symmetry; zbool).
        apply Qlt_bool_false. rewrite Heq. apply Qle_refl.
      * replace ((s <=? y) && (y <? s + c + 1)) with true by (symmetry; zbool).
        apply Qeq_bool_iff. exact Heq.
    + assert (Hmore : (key (d s) < key (d y))%Q).
      { destruct Hend as [? | Hend]; [lia|].
        assert (H1 : (key (d s) <= key (d (s + c + 1)%Z))%Q)
          by (apply Hsorted; lia).
        assert (H2 : (key (d (s + c + 1)%Z) <= key (d y))%Q)
          by (apply Hsorted; lia).
        apply Hne in Hend. apply Qle_lt_or_eq in H1. destruct H1 as [H1 | H1].
        - eapply Qlt_le_trans; eassumption.
        - exfalso. apply Hend. symmetry. exact H1. }
      split.
      * replace ((0 <=? y) && (y <? s)) with false by (symmetry; zbool).
        apply Qlt_bool_false. apply Qlt_le_weak. exact Hmore.
      * replace ((s <=? y) && (y <? s + c + 1)) with false by (symmetry; zbool).
        destruct (Qeq_bool (key (d y)) (key (d s))) eqn:E; [|reflexivity].
        apply Qeq_bool_iff in E. rewrite E in Hmore.
        exfalso. apply (Qlt_irrefl _ Hmore).
Qed.

Lemma midrank_of_run (d : array Cell) (N s c x : Z) :
  (forall x y, 0 <= x <= y -> y < N -> (key (d x) <= key (d y))%Q) ->
  is_run (fun a b => Qeq_bool (key a) (key b)) d N s c -> s <= x <= s + c ->
  (midrank (map key (take d N)) (key (d x)) == mean_rank (s + 1) c)%Q.
Proof.
  intros Hsorted Hrun Hx.
  pose proof Hrun as (Hs & Hc & HsN & Hs0 & Hrunk & Hend).
  assert (Hxs : (key (d x) == key (d s))%Q).
  { destruct (Z.eq_dec x s) as [-> | Hne]; [reflexivity|].
    apply Qeq_bool_iff. replace x with (s + (x - s)) by lia.
    apply Hrunk. lia. }
  assert (Hsm : Z.of_nat (List.length
                  (filter (fun u => Qlt_bool u (key (d x)))
                          (map key (take d N)))) = s).
  { unfold take. rewrite map_map.
    rewrite (filter_map_length (fun u => Qlt_bool u (key (d x)))
               (fun y => key (d y)) (zrange N)).
    rewrite (filter_ext_in _ (fun y => (0 <=? y) && (y <? s))).
    - rewrite count_range by lia. lia.
    - intros y Hy. apply in_zrange in Hy.
      rewrite (Qlt_bool_compat _ _ _ Hxs).
      apply (sorted_run_values d N s c Hsorted Hrun y Hy). }
  assert (Heq : Z.of_nat (List.length
                  (filter (fun u => Qeq_bool u (key (d x)))
                          (map key (take d N)))) = c + 1).
  { unfold take. rewrite map_map.
    rewrite (filter_map_length (fun u => Qeq_bool u (key (d x)))
               (fun y => key (d y)) (zrange N)).
    rewrite (filter_ext_in _ (fun y => (s <=? y) && (y <? s + c + 1))).
    - rewrite count_range by lia. lia.
    - intros y Hy. apply in_zrange in Hy.
      rewrite (Qeq_bool_compat _ _ _ Hxs).
      apply (sorted_run_values d N s c Hsorted Hrun y Hy). }
  unfold midrank. rewrite Hsm, Heq, mean_rank_avg by exact Hc.
  unfold avg_rank.
  repeat (rewrite inject_Z_mult || rewrite inject_Z_plus).
  change (inject_Z 2) with 2%Q. change (inject_Z 1) with 1%Q. field.
Qed.

End KeyedCells.

(** X15.  Sorting and ranking compute midranks: unless the cell after
    the pool is taken for a tie, the rank of every observation is the
    number of observations of the pool with a smaller value plus half
    of one more than the number of observations with the same value.
    The ranks therefore do not depend on the order in which [qsort]
    leaves equal values. *)
Theorem assign_ranks_midranks (d : array D) (N : Z) :
  1 <= N <= RANK_LIMIT ->
  let pool := qsort compare d N in
  past_tie D_same_value pool N = false ->
  exists ranked t,
    Kruskal.assign_ranks pool N = Some (ranked, t) /\
    MannWhitney.assign_ranks pool N = Some (ranked, t) /\
    forall x, 0 <= x < N ->
      (rank (ranked x)
       == midrank (map value (take pool N)) (value (pool x)))%Q.
Proof.
  intros HN pool Hcase.
  assert (Hguard := past_tie_guard D_same_value pool N (proj1 HN) Hcase).
  destruct (assign_ranks_guarded D_same_value rank D_set_rank
              (fun c q => eq_refl)
              (fun a b => Qeq_bool_comm (value a) (value b))
              (fun a b c => Qeq_bool_transitive (value a) (value b) (value c))
              pool N HN Hguard)
    as (ranked & t & Hrun & Hruns & Hcover & _).
  exists ranked, t. split; [exact Hrun|]. split; [exact Hrun|].
  intros x Hx. destruct (Hcover x Hx) as (s & c & Hrun0 & Hin).
  assert (Hsorted : forall x y, 0 <= x <= y -> y < N ->
                      (value (pool x) <= value (pool y))%Q).
  { intros a b Ha Hb. apply qsort_compare_ordered; assumption. }
  rewrite (midrank_of_run value pool N s c x Hsorted Hrun0 Hin).
  replace x with (s + (x - s)) at 1 by lia. apply (Hruns s c Hrun0). lia.
Qed.

Lemma assign_ranks_midranks_witness :
  let d := of_list [mkD 3 0 0; mkD 1 0 0; mkD 2 1 0; mkD 1 1 0]%Q zeroD in
  1 <= 4 <= RANK_LIMIT /\
  past_tie D_same_value (qsort compare d 4) 4 = false /\
  exists ranked t,
    Kruskal.assign_ranks (qsort compare d 4) 4 = Some (ranked, t) /\
    (rank (ranked 0%Z) == 3 # 2)%Q.
Proof.
  cbv zeta. split; [unfold RANK_LIMIT; lia|]. split; [reflexivity|].
  destruct (assign_ranks_midranks
              (of_list [mkD 3 0 0; mkD 1 0 0; mkD 2 1 0; mkD 1 1 0]%Q zeroD) 4)
    as (ranked & t & Hk & _ & Hmid); [unfold RANK_LIMIT; lia | reflexivity |].
  exists ranked, t. split; [exact Hk|].
  rewrite (Hmid 0 ltac:(lia)). vm_compute. reflexivity.
Defined.

(** ** The exact path of wilcoxon-sign.cc *)

Lemma Qle_bool_false (x y : Q) : Qle_bool x y = false <-> (y < x)%Q.
Proof.
  split.
  - intros H. apply Qnot_le_lt. intros Hle. apply Qle_bool_iff in Hle.
    congruence.
  - intros H. destruct (Qle_bool x y) eqn:E; [|reflexivity].
    apply Qle_bool_iff in E. exfalso. apply (Qlt_not_le _ _ H E).
Qed.

Lemma first_reaching_scan (n : Z) (T : Q) (j : Z) :
  0 <= j <= 8 ->
  (forall k, 0 <= k < j -> (Wilcoxon.W n k < T)%Q) ->
  (j < 8 -> (T <= Wilcoxon.W n j)%Q) ->
  first_reaching n T = Wilcoxon.Wsig j.
Proof.
  intros Hj Hbelow Hreach. unfold first_reaching.
  assert (Hf : forall k, 0 <= k < j ->
                 Qle_bool T (Wilcoxon.W n k) = false).
  { intros k Hk. apply Qle_bool_false. apply Hbelow. exact Hk. }
  assert (Ht : j < 8 -> Qle_bool T (Wilcoxon.W n j) = true).
  { intros H. apply Qle_bool_iff. apply Hreach. exact H. }
  change (zrange 8) with [0; 1; 2; 3; 4; 5; 6; 7].
  assert (Hc : j = 0 \/ j = 1 \/ j = 2 \/ j = 3 \/ j = 4 \/ j = 5 \/ j = 6
               \/ j = 7 \/ j = 8) by lia.
  cbn [find].
  destruct Hc as [-> | [-> | [-> | [-> | [-> | [-> | [-> | [-> | ->]]]]]]]];
    rewrite ?Hf by lia; rewrite ?Ht by lia; reflexivity.
Qed.

Lemma Wsig_monotone (a b : Z) :
  0 <= a <= b -> b <= 8 -> (Wilcoxon.Wsig a <= Wilcoxon.Wsig b)%Q.
Proof.
  intros Ha Hb.
  assert (Hstep : forall k, 0 <= k < 8 ->
                    (Wilcoxon.Wsig k <= Wilcoxon.Wsig (k + 1))%Q).
  { intros k Hk.
    assert (Hc : k = 0 \/ k = 1 \/ k = 2 \/ k = 3 \/ k = 4 \/ k = 5 \/ k = 6
                 \/ k = 7) by lia.
    destruct Hc as [-> | [-> | [-> | [-> | [-> | [-> | [-> | ->]]]]]]];
      vm_compute; discriminate. }
  assert (Hall : forall m, 0 <= m -> a + m <= 8 ->
                   (Wilcoxon.Wsig a <= Wilcoxon.Wsig (a + m))%Q).
  { intros m Hm. pattern m. apply natlike_ind; [| |exact Hm].
    - intros _. rewrite Z.add_0_r. apply Qle_refl.
    - intros x Hx IH Hle. apply Qle_trans with (Wilcoxon.Wsig (a + x)).
      + apply IH. lia.
      + replace (a + Z.succ x) with (a + x + 1) by lia. apply Hstep. lia. }
  replace b with (a + (b - a)) by lia. apply Hall; lia.
Qed.

(** X16.  On the exact path the p-value is read off the table by the
    upper scan alone: it is the first of the levels 0.005, ..., 0.4
    whose critical value for [n] is not below [Tplus], and 0.5 when
    there is none.  It is always one of the nine tabulated levels, the
    lower scan never changes it, and a larger [Tplus] never gives a
    smaller p-value. *)
Theorem exact_pvalue_level (p p' : array Wilcoxon.P) (n : Z) :
  Wilcoxon.exact_pvalue p n = Some (first_reaching n (Wilcoxon.Tplus p n)) /\
  In (first_reaching n (Wilcoxon.Tplus p n)) Wilcoxon.Wsig_table /\
  ((Wilcoxon.Tplus p n <= Wilcoxon.Tplus p' n)%Q ->
   (first_reaching n (Wilcoxon.Tplus p n)
    <= first_reaching n (Wilcoxon.Tplus p' n))%Q).
Proof.
  destruct (upper_scan_spec n (Wilcoxon.Tplus p n))
    as (j & Hscan & Hj & Hbelow & Hreach).
  destruct (upper_scan_spec n (Wilcoxon.Tplus p' n))
    as (j' & _ & Hj' & Hbelow' & Hreach').
  rewrite (first_reaching_scan n _ j Hj Hbelow Hreach).
  rewrite (first_reaching_scan n _ j' Hj' Hbelow' Hreach').
  split; [|split].
  - unfold Wilcoxon.exact_pvalue. cbv zeta. rewrite Hscan.
    destruct (lower_scan_returns n (Wilcoxon.Tplus p n)) as (jl & ->).
    reflexivity.
  - assert (Hc : j = 0 \/ j = 1 \/ j = 2 \/ j = 3 \/ j = 4 \/ j = 5 \/ j = 6
                 \/ j = 7 \/ j = 8) by lia.
    destruct Hc as [-> | [-> | [-> | [-> | [-> | [-> | [-> | [-> | ->]]]]]]]];
      cbn; tauto.
  - intros HT. apply Wsig_monotone; [|lia]. split; [lia|].
    destruct (Z_le_gt_dec j j') as [? | Hgt]; [assumption | exfalso].
    specialize (Hbelow j' ltac:(lia)). specialize (Hreach' ltac:(lia)).
    apply (Qlt_irrefl (Wilcoxon.W n j')).
    eapply Qlt_le_trans; [exact Hbelow|].
    eapply Qle_trans; eassumption.
Qed.

(** X17.  The table of [init_W], row by row: for every sample size
    from 4 to 50 the critical values are nonnegative and do not
    decrease from one level to the next, and the last one, at level
    0.5, is the mean [n (n + 1) / 4] of the signed-rank statistic. *)
Theorem W_rows_nondecreasing (n j : Z) :
  4 <= n <= 50 -> 0 <= j < 8 ->
  (0 <= Wilcoxon.W n j)%Q /\
  (Wilcoxon.W n j <= Wilcoxon.W n (j + 1))%Q /\
  (Wilcoxon.W n 8 == inject_Z (n * (n + 1)) / 4)%Q.
Proof.
  intros Hn Hj.
  assert (Hall :
    forallb (fun n =>
               Qeq_bool (Wilcoxon.W n 8) (inject_Z (n * (n + 1)) / 4)
               && forallb (fun j =>
                    Qle_bool 0 (Wilcoxon.W n j)
                    && Qle_bool (Wilcoxon.W n j) (Wilcoxon.W n (j + 1)))
                    (zrange 8))
            (map (Z.add 4) (zrange 47)) = true) by (vm_compute; reflexivity).
  rewrite forallb_forall in Hall.
  assert (Hin : In n (map (Z.add 4) (zrange 47))).
  { apply in_map_iff. exists (n - 4). split; [lia|]. apply in_zrange. lia. }
  specialize (Hall n Hin). apply andb_true_iff in Hall.
  destruct Hall as (Hlast & Hrow). rewrite forallb_forall in Hrow.
  specialize (Hrow j (proj2 (in_zrange 8 j) ltac:(lia))).
  apply andb_true_iff in Hrow. destruct Hrow as (H0 & H1).
  split; [apply Qle_bool_iff; exact H0|].
  split; [apply Qle_bool_iff; exact H1 | apply Qeq_bool_iff; exact Hlast].
Qed.

Lemma W_rows_nondecreasing_witness :
  4 <= 5 <= 50 /\ 0 <= 4 < 8 /\
  (Wilcoxon.W 5 4 <= Wilcoxon.W 5 (4 + 1))%Q.
Proof.
  split; [lia|]. split; [lia|].
  apply (W_rows_nondecreasing 5 4); lia.
Defined.

(** ** How a run of wilcoxon-sign.cc ends *)




(** ** The dropped differences *)

Lemma comparediff_total (a b : Wilcoxon.P) :
  Wilcoxon.comparediff a b <= 0 \/ Wilcoxon.comparediff b a <= 0.
Proof.
  rewrite !comparediff_le.
  destruct (Qlt_le_dec (Wilcoxon.myabs (Wilcoxon.diff b))
                       (Wilcoxon.myabs (Wilcoxon.diff a))) as [H | H];
    [right; apply Qlt_le_weak; exact H | left; exact H].
Qed.

Lemma comparediff_trans (a b c : Wilcoxon.P) :
  Wilcoxon.comparediff a b <= 0 -> Wilcoxon.comparediff b c <= 0 ->
  Wilcoxon.comparediff a c <= 0.
Proof. rewrite !comparediff_le. intros H1 H2. lra. Qed.

Lemma qsort_comparediff_ordered (p : array Wilcoxon.P) (N x y : Z) :
  0 <= x <= y -> y < N ->
  (Wilcoxon.myabs (Wilcoxon.diff (qsort Wilcoxon.comparediff p N x))
   <= Wilcoxon.myabs (Wilcoxon.diff (qsort Wilcoxon.comparediff p N y)))%Q.
Proof.
  intros Hx Hy. destruct (Z.eq_dec x y) as [-> | Hne]; [apply Qle_refl|].
  apply comparediff_le. rewrite !qsort_cells by lia.
  rewrite (nth_indep _ (p x) (p y))
    by (rewrite sort_length, take_length; lia).
  apply (sorted_nth Wilcoxon.comparediff).
  - apply sort_sorted; [exact comparediff_total | exact comparediff_trans].
  - lia.
  - rewrite sort_length, take_length. lia.
Qed.

Lemma myabs_nonneg (v : Q) : (0 <= Wilcoxon.myabs v)%Q.
Proof.
  unfold Wilcoxon.myabs. destruct (Qle_bool 0 v) eqn:E.
  - apply Qle_bool_iff. exact E.
  - assert (H : ~ (0 <= v)%Q) by (intros H; apply Qle_bool_iff in H; congruence).
    apply Qnot_le_lt in H. lra.
Qed.

Lemma myabs_dropped : Wilcoxon.myabs Wilcoxon.dropped = Wilcoxon.dropped.
Proof. reflexivity. Qed.

(** The cells of the sorted differences: the [n] differences that are
    not zero, then the dropped ones. *)
Lemma sorted_differences (d : array D) (Nsamp0 a b : Z)
    (p0 : array Wilcoxon.P) :
  0 <= Nsamp0 ->
  (forall i, 0 <= i < Nsamp0 ->
     (Wilcoxon.myabs (round_double (value (d (Nsamp0 * b + i)%Z)
                                    - value (d (Nsamp0 * a + i)%Z)))
      < Wilcoxon.dropped)%Q) ->
  let r := Wilcoxon.differences d Nsamp0 a b p0 in
  let sorted := qsort Wilcoxon.comparediff (fst r) Nsamp0 in
  let n := Nsamp0 - snd r in
  (forall x, 0 <= x < n ->
     (Wilcoxon.myabs (Wilcoxon.diff (sorted x)) < Wilcoxon.dropped)%Q) /\
  (forall x, n <= x < Nsamp0 ->
     (Wilcoxon.dropped <= Wilcoxon.myabs (Wilcoxon.diff (sorted x)))%Q).
Proof.
  intros HN Hsmall r sorted n.
  destruct (differences_cells d Nsamp0 a b p0 HN) as (Hcells & _ & Hties).
  destruct (differences_spec d Nsamp0 a b p0 HN) as (Hrange & _).
  fold r in Hcells, Hties, Hrange. cbv zeta in Hcells, Hties.
  set (big := fun c : Wilcoxon.P =>
                Qle_bool Wilcoxon.dropped (Wilcoxon.myabs (Wilcoxon.diff c))).
  assert (Hbig1 : Z.of_nat (List.length (filter (fun y => big (fst r y))
                                                (zrange Nsamp0))) = snd r).
  { rewrite Hties. f_equal. f_equal. apply filter_ext_in. intros i Hi.
    apply in_zrange in Hi. rewrite Hcells by exact Hi. unfold big.
    cbn [Wilcoxon.diff].
    destruct (Qeq_bool (round_double (value (d (Nsamp0 * b + i))
                                      - value (d (Nsamp0 * a + i)))) 0) eqn:E.
    - rewrite myabs_dropped. apply Qle_bool_iff. apply Qle_refl.
    - apply Qle_bool_false. apply Hsmall. exact Hi. }
  assert (Hbig : Z.of_nat (List.length (filter (fun y => big (sorted y))
                                               (zrange Nsamp0))) = snd r).
  { rewrite <- Hbig1. f_equal.
    rewrite <- (filter_map_length big sorted (zrange Nsamp0)).
    rewrite <- (filter_map_length big (fst r) (zrange Nsamp0)).
    apply filter_length_perm.
    change (Permutation (take sorted Nsamp0) (take (fst r) Nsamp0)).
    unfold sorted. rewrite take_qsort. apply sort_perm. }
  assert (Hordered : forall x y, 0 <= x <= y -> y < Nsamp0 ->
            (Wilcoxon.myabs (Wilcoxon.diff (sorted x))
             <= Wilcoxon.myabs (Wilcoxon.diff (sorted y)))%Q).
  { intros x y Hx Hy. apply qsort_comparediff_ordered; assumption. }
  assert (Hfirst : forall x, 0 <= x < Nsamp0 -> big (sorted x) = true ->
                     n <= x).
  { intros x Hx Hb. destruct (Z_le_gt_dec n x) as [? | Hgt]; [assumption|].
    exfalso.
    assert (Hle' : Nsamp0 - x <= snd r).
    { rewrite <- Hbig, <- (count_range x Nsamp0 Nsamp0) by lia.
      apply Nat2Z.inj_le. apply filter_length_le.
      intros y Hy Hin. apply in_zrange in Hy.
      apply andb_true_iff in Hin. destruct Hin as (H1 & H2).
      apply Z.leb_le in H1. apply Z.ltb_lt in H2.
      unfold big in *. apply Qle_bool_iff. apply Qle_bool_iff in Hb.
      eapply Qle_trans; [exact Hb|]. apply Hordered; lia. }
    unfold n in Hgt. lia. }
  assert (Hlast : forall x, 0 <= x < Nsamp0 -> big (sorted x) = false ->
                    x < n).
  { intros x Hx Hb. destruct (Z_lt_le_dec x n) as [? | Hge]; [assumption|].
    exfalso.
    pose proof (filter_length_split (fun y => big (sorted y))
                  (zrange Nsamp0)) as Hsplit.
    rewrite zrange_length in Hsplit.
    assert (Hle' : x + 1 <= Z.of_nat (List.length
                     (filter (fun y => negb (big (sorted y)))
                             (zrange Nsamp0)))).
    { replace (x + 1) with (x + 1 - 0) by lia.
      rewrite <- (count_range 0 (x + 1) Nsamp0) by lia.
      apply Nat2Z.inj_le. apply filter_length_le.
      intros y Hy Hin. apply in_zrange in Hy.
      apply andb_true_iff in Hin. destruct Hin as (H1 & H2).
      apply Z.leb_le in H1. apply Z.ltb_lt in H2.
      apply negb_true_iff. unfold big in *. apply Qle_bool_false.
      apply Qle_bool_false in Hb.
      eapply Qle_lt_trans; [|exact Hb]. apply Hordered; lia. }
    unfold n in Hge. lia. }
  split.
  - intros x Hx. destruct (big (sorted x)) eqn:Eb.
    + apply Hfirst in Eb; [lia | unfold n in Hx; lia].
    + apply Qle_bool_false in Eb. exact Eb.
  - intros x Hx. destruct (big (sorted x)) eqn:Eb.
    + apply Qle_bool_iff in Eb. exact Eb.
    + apply Hlast in Eb; [lia | unfold n in Hx; lia].
Qed.

Lemma sum_upto_nonneg (n : nat) (f : Z -> Q) :
  (forall k, 0 <= k < Z.of_nat n -> (0 <= f k)%Q) ->
  (0 <= sum_upto n f)%Q.
Proof.
  induction n as [|n IH]; intros H; cbn [sum_upto]; [apply Qle_refl|].
  assert (H1 : (0 <= sum_upto n f)%Q) by (apply IH; intros k Hk; apply H; lia).
  assert (H2 : (0 <= f (Z.of_nat n))%Q) by (apply H; lia).
  lra.
Qed.

(** X19.  The signed ranks of a pair of samples add up as they should
    whenever a zero difference was dropped and every difference, as
    the subtraction of the two doubles gives it, is smaller than
    [10e99] in absolute value: the dropped differences are then sorted
    behind the [n] others, the cell after those is not taken for a
    tie, and [Tplus] and the sum [Tminus] of the ranks of the negative
    differences are nonnegative and add up to [n (n + 1) / 2]. *)
Theorem wilcoxon_signed_ranks_add_up (d : array D) (Nsamp0 a b : Z)
    (p0 : array Wilcoxon.P) :
  let r := Wilcoxon.differences d Nsamp0 a b p0 in
  let n := Nsamp0 - snd r in
  0 <= Nsamp0 -> 1 <= snd r -> 1 <= n <= RANK_LIMIT ->
  (forall i, 0 <= i < Nsamp0 ->
     (Wilcoxon.myabs (round_double (value (d (Nsamp0 * b + i)%Z)
                                    - value (d (Nsamp0 * a + i)%Z)))
      < Wilcoxon.dropped)%Q) ->
  exists p,
    Wilcoxon.rank_differences d Nsamp0 a b p0 = Some (p, snd r, n) /\
    (0 <= Wilcoxon.Tplus p n)%Q /\ (0 <= Tminus p n)%Q /\
    (Wilcoxon.Tplus p n + Tminus p n == inject_Z (n * (n + 1)) / 2)%Q.
Proof.
  intros r n HN Hties Hn Hsmall.
  destruct (sorted_differences d Nsamp0 a b p0 HN Hsmall) as (Hlow & Hhigh).
  fold r in Hlow, Hhigh. cbv zeta in Hlow, Hhigh. fold n in Hlow, Hhigh.
  set (sorted := qsort Wilcoxon.comparediff (fst r) Nsamp0) in *.
  assert (Hpast : Wilcoxon.P_same_abs (sorted n) (sorted (n - 1)) = false).
  { unfold Wilcoxon.P_same_abs.
    destruct (Qeq_bool _ _) eqn:E; [|reflexivity].
    apply Qeq_bool_iff in E. exfalso.
    specialize (Hlow (n - 1) ltac:(lia)).
    specialize (Hhigh n ltac:(unfold n; lia)).
    rewrite E in Hhigh. apply (Qlt_irrefl Wilcoxon.dropped).
    eapply Qle_lt_trans; eassumption. }
  destruct (wilcoxon_signed_rank_sum d Nsamp0 a b p0 HN Hn Hpast)
    as (p & Hrun & Hsum).
  exists p. split; [exact Hrun|].
  assert (Hminus : (0 <= Tminus p n)%Q).
  { unfold Tminus. apply sum_upto_nonneg. intros k Hk.
    destruct (Qlt_bool (Wilcoxon.sigrank (p k)) 0);
      [apply Qabs_nonneg | apply Qle_refl]. }
  destruct (assign_ranks_facts Wilcoxon.P_same_abs Wilcoxon.rank
              Wilcoxon.P_set_rank (fun c q => eq_refl) sorted n Hn)
    as (p3 & t & Hrun3 & _ & Hhalf & _).
  assert (Hp : p = Wilcoxon.sign_ranks p3 n).
  { unfold Wilcoxon.rank_differences in Hrun. fold r in Hrun.
    destruct r as (p1, ties) eqn:Er. cbn [fst snd] in *.
    fold sorted in Hrun. fold n in Hrun.
    unfold Wilcoxon.assign_ranks in Hrun. rewrite Hrun3 in Hrun.
    congruence. }
  split; [|split; [exact Hminus | exact Hsum]].
  unfold Wilcoxon.Tplus. apply sum_upto_nonneg. intros k Hk.
  destruct (Qlt_bool 0 (Wilcoxon.diff (p k))) eqn:E; [|apply Qle_refl].
  subst p. rewrite sign_ranks_spec in E |- * by lia.
  replace ((0 <=? k) && (k <? n)) with true in E |- * by (symmetry; zbool).
  cbn [Wilcoxon.diff Wilcoxon.sigrank] in E |- *.
  apply Qlt_bool_iff in E.
  replace (Qlt_bool (Wilcoxon.diff (p3 k)) 0) with false.
  2:{ symmetry. apply Qlt_bool_false. apply Qlt_le_weak. exact E. }
  destruct (Hhalf k ltac:(lia)) as (z & Hz & Hrank). rewrite Hrank.
  unfold Qle, Qdiv, Qmult, Qinv, inject_Z. simpl. lia.
Qed.

Lemma wilcoxon_signed_ranks_add_up_witness :
  let d := snd (read_file six_pairs zeroD) in
  0 <= 6 /\ 1 <= snd (Wilcoxon.differences d 6 0 1 zeroP) /\
  exists p,
    Wilcoxon.rank_differences d 6 0 1 zeroP = Some (p, 1, 5) /\
    (Wilcoxon.Tplus p 5 + Tminus p 5 == inject_Z (5 * (5 + 1)) / 2)%Q.
Proof.
  cbv zeta. split; [lia|]. split; [vm_compute; discriminate|].
  destruct (wilcoxon_signed_ranks_add_up (snd (read_file six_pairs zeroD))
              6 0 1 zeroP) as (p & Hrun & _ & _ & Hsum).
  - lia.
  - vm_compute. discriminate.
  - change (snd (Wilcoxon.differences (snd (read_file six_pairs zeroD)) 6 0 1
                   zeroP)) with 1.
    unfold RANK_LIMIT. lia.
  - intros i Hi.
    assert (Hc : i = 0 \/ i = 1 \/ i = 2 \/ i = 3 \/ i = 4 \/ i = 5) by lia.
    destruct Hc as [-> | [-> | [-> | [-> | [-> | ->]]]]]; vm_compute; reflexivity.
  - exists p. split; [exact Hrun | exact Hsum].
Defined.

(** ** The two directions of a Mann-Whitney test *)

Lemma Qsum_app (l1 l2 : list Q) : (Qsum (l1 ++ l2) == Qsum l1 + Qsum l2)%Q.
Proof.
  induction l1 as [|x l1 IH].
  - change (Qsum l2 == 0 + Qsum l2)%Q. ring.
  - change (x + Qsum (l1 ++ l2) == x + Qsum l1 + Qsum l2)%Q. rewrite IH. ring.
Qed.

Lemma Qsum_perm (l l' : list Q) : Permutation l l' -> (Qsum l == Qsum l')%Q.
Proof.
  intros H. induction H as [| x l l' H IH | x y l | l l' l'' H1 IH1 H2 IH2];
    cbn [Qsum fold_right].
  - reflexivity.
  - fold (Qsum l). fold (Qsum l'). rewrite IH. reflexivity.
  - ring.
  - rewrite IH1. exact IH2.
Qed.

Lemma Qsum_map_ext {A : Type} (f g : A -> Q) (l : list A) :
  (forall x, In x l -> (f x == g x)%Q) ->
  (Qsum (map f l) == Qsum (map g l))%Q.
Proof.
  induction l as [|x l IH]; intros H; cbn [map Qsum fold_right];
    [reflexivity|].
  fold (Qsum (map f l)). fold (Qsum (map g l)).
  rewrite IH by (intros y Hy; apply H; right; exact Hy).
  rewrite (H x (or_introl eq_refl)). reflexivity.
Qed.

Lemma sum_upto_Qsum (n : nat) (f : Z -> Q) :
  (sum_upto n f == Qsum (map f (zrange (Z.of_nat n))))%Q.
Proof.
  induction n as [|n IH]; [reflexivity|].
  cbn [sum_upto]. rewrite IH.
  replace (Z.of_nat (Datatypes.S n)) with (Z.of_nat n + 1) by lia.
  rewrite zrange_succ, map_app, Qsum_app by lia.
  cbn [map Qsum fold_right]. ring.
Qed.

Lemma midrank_perm (vs vs' : list Q) (v : Q) :
  Permutation vs vs' -> midrank vs v = midrank vs' v.
Proof.
  intros H. unfold midrank.
  rewrite (filter_length_perm (fun u => Qlt_bool u v) vs vs' H).
  rewrite (filter_length_perm (fun u => Qeq_bool u v) vs vs' H).
  reflexivity.
Qed.

(** The rank sum of the sample [idx] of a ranked pool, from the values
    and labels of the pool alone. *)
Lemma sum_of_ranks_midranks (pool ranked : array D) (N idx : Z) :
  0 <= N ->
  (forall x, 0 <= x < N ->
     label (ranked x) = label (pool x) /\
     (rank (ranked x) == midrank (map value (take pool N)) (value (pool x)))%Q) ->
  (sum_of_ranks ranked idx N
   == Qsum (map (fun c => if label c =? idx
                          then midrank (map value (take pool N)) (value c)
                          else 0%Q)
                (take pool N)))%Q /\
  (sum_squared_ranks ranked N
   == Qsum (map (fun c => midrank (map value (take pool N)) (value c)
                          * midrank (map value (take pool N)) (value c))
                (take pool N)))%Q.
Proof.
  intros HN H. unfold sum_of_ranks, sum_squared_ranks.
  rewrite !sum_upto_Qsum, Z2Nat.id by exact HN.
  revert H. generalize (map value (take pool N)). intros vs H.
  unfold take. rewrite !map_map. split; apply Qsum_map_ext;
    intros x Hx; apply in_zrange in Hx; destruct (H x Hx) as (Hl & Hr).
  - rewrite Hl. destruct (label (pool x) =? idx); [exact Hr | reflexivity].
  - rewrite Hr. reflexivity.
Qed.

Lemma Qsum_labelled_perm (L L' : list D) (idx : Z) :
  Permutation (map (fun c => (value c, label c)) L)
              (map (fun c => (value c, label c)) L') ->
  (Qsum (map (fun c => if label c =? idx
                       then midrank (map value L) (value c) else 0%Q) L)
   == Qsum (map (fun c => if label c =? idx
                          then midrank (map value L') (value c) else 0%Q) L'))%Q
  /\
  (Qsum (map (fun c => midrank (map value L) (value c)
                       * midrank (map value L) (value c)) L)
   == Qsum (map (fun c => midrank (map value L') (value c)
                          * midrank (map value L') (value c)) L'))%Q.
Proof.
  intros HP.
  assert (Hv : Permutation (map value L) (map value L')).
  { apply (Permutation_map fst) in HP. rewrite !map_map in HP. exact HP. }
  assert (Hm : forall v, midrank (map value L) v = midrank (map value L') v)
    by (intros v; apply midrank_perm; exact Hv).
  split.
  - apply (Permutation_map
             (fun vl : Q * Z => if snd vl =? idx
                                then midrank (map value L) (fst vl)
                                else 0%Q)) in HP.
    rewrite !map_map in HP. cbn [fst snd] in HP.
    rewrite (Qsum_perm _ _ HP). apply Qsum_map_ext.
    intros c _. rewrite Hm. reflexivity.
  - apply (Permutation_map
             (fun vl : Q * Z => (midrank (map value L) (fst vl)
                                 * midrank (map value L) (fst vl))%Q)) in HP.
    rewrite !map_map in HP. cbn [fst snd] in HP.
    rewrite (Qsum_perm _ _ HP). apply Qsum_map_ext.
    intros c _. rewrite Hm. reflexivity.
Qed.

Lemma zrange_app (n m : Z) :
  0 <= n -> 0 <= m -> zrange (n + m) = zrange n ++ map (Z.add n) (zrange m).
Proof.
  intros Hn Hm. pattern m. apply natlike_ind; [| |exact Hm].
  - rewrite Z.add_0_r. cbn. rewrite app_nil_r. reflexivity.
  - clear m Hm. intros m Hm IH. unfold Z.succ.
    rewrite Z.add_assoc, !zrange_succ, IH, map_app, app_assoc by lia.
    reflexivity.
Qed.

(** The pool of a test as a list of (value, label) pairs: sample [j]
    followed by sample [k]. *)
Lemma pool_cells (d : array D) (sj sk n m j k : Z) (pr : array D) :
  0 <= n -> 0 <= m ->
  map (fun c => (value c, label c))
      (take (MannWhitney.copy_sample d sk m n k
               (MannWhitney.copy_sample d sj n 0 j pr)) (n + m))
  = map (fun i => (value (d (i + sj)), j)) (zrange n)
    ++ map (fun i => (value (d (i + sk)), k)) (zrange m).
Proof.
  intros Hn Hm. unfold take.
  rewrite zrange_app, !map_app, !map_map by assumption.
  f_equal; apply map_ext_in; intros x Hx; apply in_zrange in Hx;
    rewrite !copy_sample_spec by assumption.
  - replace ((n <=? x) && (x <? n + m)) with false by (symmetry; zbool).
    replace ((0 <=? x) && (x <? 0 + n)) with true by (symmetry; zbool).
    cbn [value label]. replace (x - 0 + sj) with (x + sj) by lia.
    reflexivity.
  - replace ((n <=? n + x) && (n + x <? n + m)) with true
      by (symmetry; zbool).
    cbn [value label]. replace (n + x - n + sk) with (x + sk) by lia.
    reflexivity.
Qed.

Lemma pool_labels (d : array D) (sj sk n m j k : Z) (pr : array D) (x : Z) :
  0 <= n -> 0 <= m -> 0 <= x < n + m ->
  let c := qsort compare
             (MannWhitney.copy_sample d sk m n k
                (MannWhitney.copy_sample d sj n 0 j pr)) (n + m) x in
  label c = j \/ label c = k.
Proof.
  intros Hn Hm Hx c. subst c.
  destruct (qsort_inside compare
              (MannWhitney.copy_sample d sk m n k
                 (MannWhitney.copy_sample d sj n 0 j pr)) (n + m) x Hx)
    as (y & Hy & ->).
  rewrite !copy_sample_spec by assumption.
  destruct (Z_lt_le_dec y n) as [Hlt | Hge].
  - replace ((n <=? y) && (y <? n + m)) with false by (symmetry; zbool).
    replace ((0 <=? y) && (y <? 0 + n)) with true by (symmetry; zbool).
    left. reflexivity.
  - replace ((n <=? y) && (y <? n + m)) with true by (symmetry; zbool).
    right. reflexivity.
Qed.

(** Ranking a sorted pool whose last run is not extended past the pool:
    the ranks are the midranks, values and labels stay, and the ranks
    add up to [N (N + 1) / 2]. *)
Lemma ranked_pool (d : array D) (N : Z) :
  1 <= N <= RANK_LIMIT ->
  past_tie D_same_value (qsort compare d N) N = false ->
  exists ranked t,
    RankAssigner.assign_ranks D_same_value D_set_rank (qsort compare d N) N
    = Some (ranked, t) /\
    (forall x, 0 <= x < N ->
       label (ranked x) = label (qsort compare d N x) /\
       (rank (ranked x)
        == midrank (map value (take (qsort compare d N) N))
                   (value (qsort compare d N x)))%Q) /\
    (RankAssigner.sum_ranks rank ranked N == inject_Z (N * (N + 1)) / 2)%Q.
Proof.
  intros HN Hcase. set (pool := qsort compare d N) in *.
  assert (Hguard := past_tie_guard D_same_value pool N (proj1 HN) Hcase).
  destruct (assign_ranks_guarded D_same_value rank D_set_rank
              (fun c q => eq_refl)
              (fun a b => Qeq_bool_comm (value a) (value b))
              (fun a b c => Qeq_bool_transitive (value a) (value b) (value c))
              pool N HN Hguard)
    as (ranked & t & Hrun & Hruns & Hcover & _ & Hsum & _ & Hkeep).
  exists ranked, t. split; [exact Hrun|]. split; [|exact Hsum].
  intros x Hx. split.
  - destruct (Hkeep x) as [-> | (q & ->)]; reflexivity.
  - destruct (Hcover x Hx) as (s & c & Hrun0 & Hin).
    assert (Hsorted : forall x y, 0 <= x <= y -> y < N ->
                        (value (pool x) <= value (pool y))%Q).
    { intros a b Ha Hb. apply qsort_compare_ordered; assumption. }
    rewrite (midrank_of_run value pool N s c x Hsorted Hrun0 Hin).
    replace x with (s + (x - s)) at 1 by lia. apply (Hruns s c Hrun0). lia.
Qed.

(** The two pools of the tests of [j] against [k] and of [k] against
    [j] hold the same labelled values. *)
Lemma swapped_pools (d : array D) (sj sk n m j k : Z) (pr pr' : array D) :
  0 <= n -> 0 <= m ->
  Permutation
    (map (fun c => (value c, label c))
       (take (qsort compare
                (MannWhitney.copy_sample d sk m n k
                   (MannWhitney.copy_sample d sj n 0 j pr)) (n + m)) (n + m)))
    (map (fun c => (value c, label c))
       (take (qsort compare
                (MannWhitney.copy_sample d sj n m j
                   (MannWhitney.copy_sample d sk m 0 k pr')) (m + n)) (m + n))).
Proof.
  intros Hn Hm. rewrite !take_qsort.
  rewrite (Permutation_map _ (sort_perm compare _)).
  rewrite (Permutation_map _ (sort_perm compare _)).
  rewrite !pool_cells by assumption. apply Permutation_app_comm.
Qed.

(** X20.  The two directions of a Mann-Whitney test mirror each other:
    for two samples pooled as [main] pools them, first [j] then [k] and
    first [k] then [j], with neither ranking taking the cell after the
    pool for a tie and a square root that gives equal results on equal
    arguments, the corrected statistic of [k] against [j] is the
    negative of the one of [j] against [k]. *)
Theorem mann_whitney_swapped_statistic {E : Extern} (d : array D)
    (sj sk n m j k : Z) (pr pr' : array D) :
  0 <= n -> 0 <= m -> 1 <= n + m <= PAIR_LIMIT -> j <> k ->
  (forall x y : Q, (x == y)%Q -> (sqrt x == sqrt y)%Q) ->
  let pool := qsort compare
                (MannWhitney.copy_sample d sk m n k
                   (MannWhitney.copy_sample d sj n 0 j pr)) (n + m) in
  let pool' := qsort compare
                 (MannWhitney.copy_sample d sj n m j
                    (MannWhitney.copy_sample d sk m 0 k pr')) (m + n) in
  past_tie D_same_value pool (n + m) = false ->
  past_tie D_same_value pool' (m + n) = false ->
  exists ranked t ranked' t',
    MannWhitney.assign_ranks pool (n + m) = Some (ranked, t) /\
    MannWhitney.assign_ranks pool' (m + n) = Some (ranked', t') /\
    (MannWhitney.corrected_Tvalue ranked' m n (m + n) k
     == - MannWhitney.corrected_Tvalue ranked n m (n + m) j)%Q.
Proof.
  intros Hn Hm HN Hjk Hsqrt pool pool' Hcase Hcase'.
  assert (HN' : 1 <= n + m <= RANK_LIMIT)
    by (unfold PAIR_LIMIT in HN; unfold RANK_LIMIT; lia).
  assert (HN'' : 1 <= m + n <= RANK_LIMIT) by lia.
  destruct (ranked_pool _ (n + m) HN' Hcase)
    as (ranked & t & Hrun & Hcells & Hsum).
  destruct (ranked_pool _ (m + n) HN'' Hcase')
    as (ranked' & t' & Hrun' & Hcells' & Hsum').
  fold pool in Hrun, Hcells. fold pool' in Hrun', Hcells'.
  exists ranked, t, ranked', t'.
  split; [exact Hrun|]. split; [exact Hrun'|].
  (* rank sums and sums of squares from the labelled values *)
  pose proof (swapped_pools d sj sk n m j k pr pr' Hn Hm) as Hperm.
  fold pool pool' in Hperm.
  destruct (sum_of_ranks_midranks pool ranked (n + m) k ltac:(lia) Hcells)
    as (HTk & Hss).
  destruct (sum_of_ranks_midranks pool' ranked' (m + n) k ltac:(lia) Hcells')
    as (HTk' & Hss').
  destruct (Qsum_labelled_perm _ _ k Hperm) as (Hk & Hsq).
  assert (HT : (sum_of_ranks ranked' k (m + n)
                == sum_of_ranks ranked k (n + m))%Q)
    by (rewrite HTk', HTk, Hk; reflexivity).
  assert (HS : (sum_squared_ranks ranked' (m + n)
                == sum_squared_ranks ranked (n + m))%Q)
    by (rewrite Hss', Hss, Hsq; reflexivity).
  assert (Hsplit : (sum_of_ranks ranked j (n + m)
                    + sum_of_ranks ranked k (n + m)
                    == inject_Z ((n + m) * (n + m + 1)) / 2)%Q).
  { rewrite <- Hsum. apply sum_of_ranks_split; [exact Hjk|].
    intros x Hx. rewrite (proj1 (Hcells x Hx)).
    apply (pool_labels d sj sk n m j k pr x Hn Hm Hx). }
  unfold MannWhitney.corrected_Tvalue.
  replace (m + n) with (n + m) in * by lia.
  replace (wrap (m * n)) with (wrap (n * m)) by (f_equal; lia).
  rewrite (wrap_small (n + m + 1))
    by (unfold in_int, INT_MIN, INT_MAX, PAIR_LIMIT in *; lia).
  rewrite (wrap_small (n * (n + m + 1)))
    by (unfold in_int, INT_MIN, INT_MAX, PAIR_LIMIT in *; nia).
  rewrite (wrap_small (m * (n + m + 1)))
    by (unfold in_int, INT_MIN, INT_MAX, PAIR_LIMIT in *; nia).
  set (denom := (_ * sum_squared_ranks ranked (n + m) - _)%Q).
  set (denom' := (_ * sum_squared_ranks ranked' (n + m) - _)%Q).
  assert (Hden : (denom' == denom)%Q)
    by (subst denom denom'; rewrite HS; reflexivity).
  assert (HT1 : (sum_of_ranks ranked' k (n + m)
                 - inject_Z (m * (n + m + 1)) / 2
                 == - (sum_of_ranks ranked j (n + m)
                       - inject_Z (n * (n + m + 1)) / 2))%Q).
  { rewrite HT.
    assert (Hj : (sum_of_ranks ranked j (n + m)
                  == inject_Z ((n + m) * (n + m + 1)) / 2
                     - sum_of_ranks ranked k (n + m))%Q)
      by (rewrite <- Hsplit; ring).
    rewrite Hj. rewrite !inject_Z_mult, !inject_Z_plus. field. }
  set (T1 := (sum_of_ranks ranked j (n + m)
              - inject_Z (n * (n + m + 1)) / 2)%Q) in *.
  set (T1' := (sum_of_ranks ranked' k (n + m)
               - inject_Z (m * (n + m + 1)) / 2)%Q) in *.
  destruct (Qeq_bool T1' 0) eqn:Hz', (Qeq_bool T1 0) eqn:Hz.
  - ring.
  - exfalso. apply Qeq_bool_iff in Hz'. rewrite HT1 in Hz'.
    assert (H0 : (T1 == 0)%Q)
      by (rewrite <- (Qopp_involutive T1), Hz'; ring).
    apply Qeq_bool_iff in H0. congruence.
  - exfalso. apply Qeq_bool_iff in Hz.
    assert (H0 : (T1' == 0)%Q) by (rewrite HT1, Hz; ring).
    apply Qeq_bool_iff in H0. congruence.
  - rewrite HT1, (Hsqrt _ _ Hden). unfold Qdiv. ring.
Qed.

Lemma mann_whitney_swapped_statistic_witness :
  let d := of_list [mkD 1 0 0; mkD 3 0 0; mkD 2 0 0; mkD 4 0 0]%Q zeroD in
  let pool := qsort compare
                (MannWhitney.copy_sample d 2 2 2 1
                   (MannWhitney.copy_sample d 0 2 0 0 zeroD)) (2 + 2) in
  let pool' := qsort compare
                 (MannWhitney.copy_sample d 0 2 2 0
                    (MannWhitney.copy_sample d 2 2 0 1 zeroD)) (2 + 2) in
  1 <= 2 + 2 <= PAIR_LIMIT /\
  past_tie D_same_value pool (2 + 2) = false /\
  past_tie D_same_value pool' (2 + 2) = false /\
  exists ranked t ranked' t',
    MannWhitney.assign_ranks pool (2 + 2) = Some (ranked, t) /\
    MannWhitney.assign_ranks pool' (2 + 2) = Some (ranked', t') /\
    (MannWhitney.corrected_Tvalue (E := toy_extern) ranked' 2 2 (2 + 2) 1
     == - MannWhitney.corrected_Tvalue (E := toy_extern) ranked 2 2 (2 + 2) 0)%Q.
Proof.
  cbv zeta. split; [unfold PAIR_LIMIT; lia|].
  split; [reflexivity|]. split; [reflexivity|].
  apply (mann_whitney_swapped_statistic (E := toy_extern)
           (of_list [mkD 1 0 0; mkD 3 0 0; mkD 2 0 0; mkD 4 0 0]%Q zeroD)
           0 2 2 2 0 1 zeroD zeroD); try lia.
  - unfold PAIR_LIMIT. lia.
  - intros x y H. exact H.
  - reflexivity.
  - reflexivity.
Defined.

(** * Part V: the report of the omnibus test *)












(** * Part VI: the branch of the signed-rank test *)





(** * Part VII: the numerator of the rank-sum statistic on a large pool *)

(** [compare] looks at the values only, so sorting commutes with
    taking the values. *)
Lemma map_value_insert (x : D) (l : list D) :
  map value (insert compare x l)
  = insert compare_values (value x) (map value l).
Proof.
  induction l as [|y l IH]; [reflexivity|]. cbn [insert map].
  change (compare x y) with (compare_values (value x) (value y)).
  destruct (compare_values (value x) (value y) <=? 0); cbn [map];
    [reflexivity | now rewrite IH].
Qed.

Lemma map_value_sort (l : list D) :
  map value (sort compare l) = sort compare_values (map value l).
Proof.
  induction l as [|x l IH]; [reflexivity|].
  unfold sort in *. cbn [fold_right map].
  rewrite map_value_insert, IH. reflexivity.
Qed.

Lemma without_median_length :
  Z.of_nat (List.length without_median) = 46340.
Proof. vm_compute. reflexivity. Qed.

Lemma wide_samples_blocks : file_blocks wide_samples = around_median.
Proof.
  apply file_blocks_blocks. unfold around_median.
  intros b [<- | [<- | []]]; [|discriminate].
  intros H. pose proof without_median_length as Hlen.
  rewrite H in Hlen. discriminate Hlen.
Qed.

Lemma wide_samples_counts :
  exists c, check_file wide_samples = Done c /\
            no_runs c = 2 /\ total c = 46341 /\
            Nsamp c 0 = 46340 /\ Nsamp c 1 = 1.
Proof.
  pose proof (check_file_accepts wide_samples) as H. cbv zeta in H.
  rewrite wide_samples_blocks in H.
  change (Z.of_nat (List.length around_median)) with 2 in H.
  destruct H as (c & Hc & Hk & Ht & Hin & _); [unfold MAX_DISTS; lia|].
  exists c. split; [exact Hc|]. split; [exact Hk|].
  split.
  { rewrite Ht. unfold wide_samples. rewrite numeric_lines_of_blocks.
    vm_compute. reflexivity. }
  destruct (Hin 0 ltac:(lia)) as (H0 & _).
  destruct (Hin 1 ltac:(lia)) as (H1 & _).
  rewrite H0, H1. unfold block_size. rewrite wide_samples_blocks.
  split; vm_compute; reflexivity.
Qed.

Lemma wide_samples_values (heap : array D) (x : Z) :
  0 <= x < 46341 ->
  value (snd (read_file wide_samples heap) x)
  = nth (Z.to_nat x) (without_median ++ [23171%Q]) 0%Q.
Proof.
  intros Hx. destruct wide_samples_counts as (c & Hc & _ & Ht & _).
  destruct (check_file_done wide_samples c Hc) as (_ & _ & Hcount).
  rewrite read_file_value_nth by lia.
  unfold wide_samples. rewrite numeric_lines_of_blocks.
  change (List.concat around_median)
    with (without_median ++ [23171%Q] ++ []).
  rewrite app_nil_r. reflexivity.
Qed.

Lemma map_take_list {A B : Type} (f : A -> B) (m : array A) (l : list B)
    (dflt : B) (n : Z) :
  n = Z.of_nat (List.length l) ->
  (forall x, 0 <= x < n -> f (m x) = nth (Z.to_nat x) l dflt) ->
  map f (take m n) = l.
Proof.
  intros -> H. unfold take. rewrite map_map.
  apply (take_eq_list (fun x => f (m x)) l dflt). exact H.
Qed.

Lemma wide_pool_length : 46341 = Z.of_nat (List.length wide_pool).
Proof.
  pose proof without_median_length as Hlen.
  unfold wide_pool. rewrite length_app, length_map. cbn [List.length]. lia.
Qed.

Lemma wide_pool_cells (d pr : array D) :
  (forall x, 0 <= x < 46341 ->
     value (d x) = nth (Z.to_nat x) (without_median ++ [23171%Q]) 0%Q) ->
  map (fun c => (value c, label c))
      (take (MannWhitney.copy_sample d 46340 1 46340 1
               (MannWhitney.copy_sample d 0 46340 0 0 pr)) 46341)
  = wide_pool.
Proof.
  intros Hd. pose proof without_median_length as Hlen.
  apply (map_take_list _ _ wide_pool (0%Q, 0)); [exact wide_pool_length|].
  intros x Hx. rewrite !copy_sample_spec by lia. unfold wide_pool.
  destruct (Z_lt_le_dec x 46340) as [Hlt | Hge].
  - replace ((46340 <=? x) && (x <? 46340 + 1)) with false by (symmetry; zbool).
    replace ((0 <=? x) && (x <? 0 + 46340)) with true by (symmetry; zbool).
    cbn [value label]. rewrite Hd by lia.
    rewrite !app_nth1 by (rewrite ?length_map; lia).
    change (0%Q, 0) with ((fun v : Q => (v, 0)) 0%Q). rewrite map_nth.
    cbv beta. do 2 f_equal. lia.
  - replace ((46340 <=? x) && (x <? 46340 + 1)) with true by (symmetry; zbool).
    cbn [value label]. rewrite Hd by lia.
    rewrite !app_nth2 by (rewrite ?length_map; lia).
    rewrite length_map.
    replace (Z.to_nat (x - 46340 + 46340) - List.length without_median)%nat
      with 0%nat by lia.
    replace (Z.to_nat x - List.length without_median)%nat with 0%nat by lia.
    reflexivity.
Qed.

Lemma wide_pool_sorted_last :
  nth (Z.to_nat 46340) (sort compare_values (map fst wide_pool)) 0%Q
  = 46341%Q.
Proof. vm_compute. reflexivity. Qed.

Lemma wide_pool_rank_sum :
  (Qsum (map (fun p : Q * Z =>
                if snd p =? 1 then midrank (map fst wide_pool) (fst p)
                else 0%Q) wide_pool) == 23171)%Q.
Proof. vm_compute. reflexivity. Qed.

Lemma wide_pool_ranked (d pr : array D) :
  (forall x, 0 <= x < 46341 ->
     value (d x) = nth (Z.to_nat x) (without_median ++ [23171%Q]) 0%Q) ->
  Qeq_bool (value (pr 46341)) 46341 = false ->
  exists ranked t,
    MannWhitney.assign_ranks
      (qsort compare
         (MannWhitney.copy_sample d 46340 1 46340 1
            (MannWhitney.copy_sample d 0 46340 0 0 pr)) 46341) 46341
    = Some (ranked, t) /\
    (sum_of_ranks ranked 0 46341 == 1073744140)%Q /\
    (sum_of_ranks ranked 1 46341 == 23171)%Q.
Proof.
  intros Hd Hpr.
  pose proof (wide_pool_cells d pr Hd) as Hcells.
  set (u := MannWhitney.copy_sample d 46340 1 46340 1
              (MannWhitney.copy_sample d 0 46340 0 0 pr)) in *.
  assert (Hvals : map value (take u 46341) = map fst wide_pool).
  { rewrite <- Hcells, map_map. reflexivity. }
  assert (Hlast : value (qsort compare u 46341 46340) = 46341%Q).
  { rewrite qsort_cells by lia.
    rewrite <- (map_nth value), map_value_sort, Hvals.
    rewrite <- wide_pool_sorted_last. apply nth_indep.
    rewrite sort_length, length_map.
    pose proof wide_pool_length. lia. }
  assert (Hpast : past_tie D_same_value (qsort compare u 46341) 46341 = false).
  { unfold past_tie. apply andb_false_iff. left.
    rewrite qsort_outside by lia.
    replace (46341 - 1) with 46340 by lia. unfold D_same_value.
    rewrite Hlast. unfold u. rewrite !copy_sample_spec by lia.
    replace ((46340 <=? 46341) && (46341 <? 46340 + 1)) with false
      by (symmetry; zbool).
    replace ((0 <=? 46341) && (46341 <? 0 + 46340)) with false
      by (symmetry; zbool).
    exact Hpr. }
  destruct (ranked_pool u 46341 ltac:(unfold RANK_LIMIT; lia) Hpast)
    as (ranked & t & Hrun & Hfacts & Hsum).
  exists ranked, t. split; [exact Hrun|].
  assert (HS1 : (sum_of_ranks ranked 1 46341 == 23171)%Q).
  { destruct (sum_of_ranks_midranks (qsort compare u 46341) ranked 46341 1
                ltac:(lia) Hfacts) as (HS & _).
    rewrite HS.
    assert (HP : Permutation
                   (map (fun c => (value c, label c))
                        (take (qsort compare u 46341) 46341))
                   (map (fun c => (value c, label c)) (take u 46341))).
    { rewrite take_qsort. apply Permutation_map, sort_perm. }
    destruct (Qsum_labelled_perm _ _ 1 HP) as (HQ & _).
    rewrite HQ, Hvals.
    transitivity
      (Qsum (map (fun p : Q * Z =>
                    if snd p =? 1 then midrank (map fst wide_pool) (fst p)
                    else 0%Q)
                 (map (fun c => (value c, label c)) (take u 46341)))).
    { rewrite map_map. apply Qsum_map_ext. intros c _. reflexivity. }
    rewrite Hcells. exact wide_pool_rank_sum. }
  split; [|exact HS1].
  assert (Hlab : forall x, 0 <= x < 46341 ->
                   label (ranked x) = 0 \/ label (ranked x) = 1).
  { intros x Hx. destruct (Hfacts x Hx) as (-> & _).
    apply (pool_labels d 0 46340 46340 1 0 1 pr x); lia. }
  pose proof (sum_of_ranks_split ranked 0 1 46341 ltac:(lia) Hlab) as Hsplit.
  assert (Hall : (inject_Z (46341 * (46341 + 1)) / 2 == 1073767311)%Q)
    by (vm_compute; reflexivity).
  revert Hsplit Hsum HS1.
  generalize (sum_of_ranks ranked 0 46341), (sum_of_ranks ranked 1 46341),
    (RankAssigner.sum_ranks rank ranked 46341), Hall.
  generalize (inject_Z (46341 * (46341 + 1)) / 2)%Q.
  intros all R0 R1 S Hall' Hsplit Hsum HS1. lra.
Qed.

(** C6.  mann-whit.cc on [wide_samples], first test (sample 1 against
    sample 2, [n = 46340], [m = 1], [N = 46341]), when the cell after
    the pool does not hold the last key: the pool is ranked, the mean
    ranks [Ra / n] and [Rb / m] are equal (both are 23171) and the
    numerator [Ra - n (N + 1) / 2] is exactly zero, but the [int]
    product [n * (N + 1)] of the code wraps to -2147479016, so that
    [T1] is 2147483648: [corrected_Tvalue] does not take its early
    return and gives the quotient of [T1] by the square root of the
    denominator. *)
Theorem corrected_Tvalue_product_wraps {E : Extern} (heap_d pr : array D) :
  Qeq_bool (value (pr 46341)) 46341 = false ->
  exists c ranked t,
    check_file wide_samples = Done c /\ no_runs c = 2 /\
    Nsamp c 0 = 46340 /\ Nsamp c 1 = 1 /\
    let d := snd (read_file wide_samples heap_d) in
    let n := Nsamp c 0 in
    let m := Nsamp c 1 in
    let N := n + m in
    let pool :=
      qsort compare
        (MannWhitney.copy_sample d (MannWhitney.start_of (Nsamp c) 1) m n 1
           (MannWhitney.copy_sample d (MannWhitney.start_of (Nsamp c) 0)
              n 0 0 pr))
        N in
    MannWhitney.assign_ranks pool N = Some (ranked, t) /\
    let Ra := sum_of_ranks ranked 0 N in
    let Rb := sum_of_ranks ranked 1 N in
    (Ra / inject_Z n == Rb / inject_Z m)%Q /\
    (Ra - inject_Z (n * (N + 1)) / 2 == 0)%Q /\
    wrap (n * wrap (N + 1)) = -2147479016 /\
    let denom :=
      (inject_Z 46340 / inject_Z 2147441940 * sum_squared_ranks ranked N
       - inject_Z 214656144 / inject_Z 185360)%Q in
    (MannWhitney.corrected_Tvalue ranked n m N 0
     == 2147483648 / sqrt denom)%Q.
Proof.
  intros Hpr.
  destruct wide_samples_counts as (c & Hc & Hk & _ & H0 & H1).
  assert (Hs0 : MannWhitney.start_of (Nsamp c) 0 = 0) by reflexivity.
  assert (Hs1 : MannWhitney.start_of (Nsamp c) 1 = 46340)
    by (unfold MannWhitney.start_of; change (zrange 1) with [0];
        cbn [fold_left]; rewrite H0; reflexivity).
  destruct (wide_pool_ranked (snd (read_file wide_samples heap_d)) pr
              (wide_samples_values heap_d) Hpr)
    as (ranked & t & Hrun & HR0 & HR1).
  exists c, ranked, t.
  split; [exact Hc|]. split; [exact Hk|].
  split; [exact H0|]. split; [exact H1|].
  cbv zeta. rewrite Hs0, Hs1, H0, H1.
  replace (46340 + 1) with 46341 by reflexivity.
  split; [exact Hrun|].
  unfold MannWhitney.corrected_Tvalue. cbv zeta.
  revert HR0 HR1.
  generalize (sum_of_ranks ranked 0 46341), (sum_of_ranks ranked 1 46341),
    (sum_squared_ranks ranked 46341).
  intros R0 R1 ssR HR0 HR1.
  split; [rewrite HR0, HR1; vm_compute; reflexivity|].
  split; [rewrite HR0; vm_compute; reflexivity|].
  split; [vm_compute; reflexivity|].
  assert (HT1 : (R0 - inject_Z (wrap (46340 * wrap (46341 + 1))) / 2
                 == 2147483648)%Q)
    by (rewrite HR0; vm_compute; reflexivity).
  destruct (Qeq_bool (R0 - inject_Z (wrap (46340 * wrap (46341 + 1))) / 2) 0)
    eqn:Hzero.
  - apply Qeq_bool_iff in Hzero. rewrite HT1 in Hzero.
    vm_compute in Hzero. discriminate Hzero.
  - rewrite HT1. reflexivity.
Qed.

Lemma corrected_Tvalue_product_wraps_witness :
  Qeq_bool (value (zeroD 46341)) 46341 = false /\
  exists c ranked t,
    check_file wide_samples = Done c /\ no_runs c = 2 /\
    Nsamp c 0 = 46340 /\ Nsamp c 1 = 1 /\
    let d := snd (read_file wide_samples zeroD) in
    let n := Nsamp c 0 in
    let m := Nsamp c 1 in
    let N := n + m in
    let pool :=
      qsort compare
        (MannWhitney.copy_sample d (MannWhitney.start_of (Nsamp c) 1) m n 1
           (MannWhitney.copy_sample d (MannWhitney.start_of (Nsamp c) 0)
              n 0 0 zeroD))
        N in
    MannWhitney.assign_ranks pool N = Some (ranked, t) /\
    let Ra := sum_of_ranks ranked 0 N in
    let Rb := sum_of_ranks ranked 1 N in
    (Ra / inject_Z n == Rb / inject_Z m)%Q /\
    (Ra - inject_Z (n * (N + 1)) / 2 == 0)%Q /\
    wrap (n * wrap (N + 1)) = -2147479016 /\
    let denom :=
      (inject_Z 46340 / inject_Z 2147441940 * sum_squared_ranks ranked N
       - inject_Z 214656144 / inject_Z 185360)%Q in
    (MannWhitney.corrected_Tvalue (E := toy_extern) ranked n m N 0
     == 2147483648 / sqrt (Extern := toy_extern) denom)%Q.
Proof.
  split; [reflexivity|].
  apply (corrected_Tvalue_product_wraps (E := toy_extern) zeroD zeroD).
  reflexivity.
Defined.
